(** * Conversation reconstruction of cursor-chat-browser

    A shallow embedding of the API route handlers that rebuild chat
    conversations from Cursor's key-value stores:

    - the workspace listing route ([Workspaces]),
    - the project listing route with project attribution ([Projects]),
    - the per-project conversation route ([Tabs]) with the text extraction,
      the tool-action formatter and the conversation assembler.

    Conventions of the embedding.

    - A JavaScript string is a [string]; each character stands for one UTF-16
      code unit (the embedding covers the code units below 256).
    - A JavaScript number that the code uses as a time stamp, a count or an
      exit code is a [Z].
    - A payload decoded by [JSON.parse] is a record with optional fields, one
      field per property the code reads, of the type the code expects there.
      [None] is an absent property; the presence and truthiness tests of the
      source are kept on the optional fields (the empty string and zero are
      falsy, an empty array is truthy and has length zero).
    - A string that the code hands to [JSON.parse] is a [JsonText]: either the
      text is rejected ([Malformed]) or it decodes to a payload.
    - Exceptions and [try]/[catch] are explicit ([Res], [try_catch]); the
      readings of [Date.now()] come from a clock that is threaded through the
      handler ([M]).
    - An object that the code fills as a map is a finite map.  The ids at
      which the routes read such a map (conversation, bubble and workspace
      ids) are taken not to be names of members of [Object.prototype].  The
      resolver is followed beyond that: the layout hints, which are free
      text, are looked up with the members that the object inherits
      ([JS.read]), and the hints of a conversation whose id is such a name
      cannot be read ([Attribution.layoutTier]).
    - The rows of a query that selects by the key alone are given as a list;
      the [composerData] rows carry, besides, the outcome of the tests that
      the two queries make on the text of the value ([ComposerRow]). *)

From stdpp Require Import gmap strings list sorting.
From Stdlib Require Import ZArith Ascii DecimalString Lia.

Local Open Scope Z_scope.

(** ** JavaScript runtime helpers *)

Module JS.

(** [WhiteSpace] and [LineTerminator] code units (below 256), the characters
    removed by [String.prototype.trim]. *)
Definition is_ws (c : ascii) : bool :=
  match c with
  | "009" | "010" | "011" | "012" | "013" | " " | "160" => true
  | _ => false
  end%char.

Fixpoint trimStart (s : string) : string :=
  match s with
  | EmptyString => EmptyString
  | String c s' => if is_ws c then trimStart s' else s
  end.

Fixpoint trimEnd (s : string) : string :=
  match s with
  | EmptyString => EmptyString
  | String c s' =>
      match trimEnd s' with
      | EmptyString => if is_ws c then EmptyString else String c EmptyString
      | t => String c t
      end
  end.

(** [s.trim()] *)
Definition trim (s : string) : string := trimEnd (trimStart s).

(** Truthiness of a string value: every string but the empty one. *)
Definition truthy (s : string) : bool :=
  match s with EmptyString => false | _ => true end.

(** Truthiness of a number: every number but zero (the numbers of the
    embedding are never [NaN]). *)
Definition truthyZ (n : Z) : bool := negb (n =? 0).

(** Truthiness of an optional property: [undefined] and [null] are falsy. *)
Definition present {A} (truthyA : A -> bool) (o : option A) : bool :=
  match o with Some a => truthyA a | None => false end.

(** [a || b] on optional strings. *)
Definition or_else (a b : option string) : option string :=
  if present truthy a then a else b.

(** A value interpolated in a template literal. *)
Definition show (o : option string) : string :=
  match o with Some s => s | None => "undefined" end.

(** [a || 'lit'] interpolated in a template literal. *)
Definition show_or (o : option string) (lit : string) : string :=
  match o with
  | Some s => if truthy s then s else lit
  | None => lit
  end.

(** [String(n)] for an integer [n]. *)
Definition showZ (n : Z) : string := NilZero.string_of_int (Z.to_int n).

(** [s.startsWith(p)] *)
Fixpoint startsWith (s p : string) {struct p} : bool :=
  match p with
  | EmptyString => true
  | String c p' =>
      match s with
      | EmptyString => false
      | String d s' => if Ascii.eqb c d then startsWith s' p' else false
      end
  end.

(** The rest of [s] after its first [n] characters. *)
Fixpoint drop (n : nat) (s : string) : string :=
  match n with
  | O => s
  | S n' => match s with EmptyString => EmptyString | String _ s' => drop n' s' end
  end.

(** [s.substring(0, n)] and [s.slice(0, n)] for a literal [n >= 0]. *)
Fixpoint take (n : nat) (s : string) : string :=
  match n with
  | O => EmptyString
  | S n' => match s with EmptyString => EmptyString | String c s' => String c (take n' s') end
  end.

(** [s.replace(/^pat/, '')] for a pattern [pat] of literal characters. *)
Definition stripPrefix (pat s : string) : string :=
  if startsWith s pat then drop (String.length pat) s else s.

(** [s.replace(pat, '')] for a string pattern: the first occurrence, wherever
    it is, is removed. *)
Fixpoint removeFirst (pat s : string) : string :=
  if startsWith s pat then drop (String.length pat) s
  else match s with
       | EmptyString => EmptyString
       | String c s' => String c (removeFirst pat s')
       end.

(** [s.split(sep)] for a one-character separator: never empty. *)
Fixpoint split (sep : ascii) (s : string) : list string :=
  match s with
  | EmptyString => [EmptyString]
  | String c s' =>
      if Ascii.eqb c sep then EmptyString :: split sep s'
      else match split sep s' with
           | [] => [String c EmptyString]
           | w :: ws => String c w :: ws
           end
  end.

(** [arr.join(sep)] on an array of strings. *)
Fixpoint join (sep : string) (l : list string) : string :=
  match l with
  | [] => EmptyString
  | [x] => x
  | x :: l' => x +:+ sep +:+ join sep l'
  end.

(** [arr.pop()] on a fresh array: its last element. *)
Definition pop (l : list string) : option string := last l.

(** The members that an object written [{}] inherits from
    [Object.prototype]. *)
Definition prototypeMembers : list string :=
  [ "constructor"; "__defineGetter__"; "__defineSetter__"; "hasOwnProperty";
    "__lookupGetter__"; "__lookupSetter__"; "isPrototypeOf"; "propertyIsEnumerable";
    "toString"; "valueOf"; "__proto__"; "toLocaleString" ].

(** A value read by [obj[key]] from an object that the code fills with
    strings: a string stored under the key, or the member that the object
    inherits under that name (a function, and for [__proto__] the
    prototype itself: truthy, and never a string). *)
Inductive Found := Stored (value : string) | Inherited (member : string).

#[export] Instance Found_eq_dec : EqDecision Found.
Proof. solve_decision. Defined.

(** [obj[key]] for an object written [{}] and filled by [obj[k] = v] with
    strings [v]: an assignment to [__proto__] stores nothing, and a name of
    [Object.prototype] that has not been assigned reads as the inherited
    member. *)
Definition read (obj : gmap string string) (key : string) : option Found :=
  if bool_decide (key = "__proto__") then Some (Inherited key)
  else match obj !! key with
       | Some value => Some (Stored value)
       | None =>
           if bool_decide (key ∈ prototypeMembers) then Some (Inherited key) else None
       end.

Definition truthyFound (v : Found) : bool :=
  match v with Stored value => truthy value | Inherited _ => true end.

(** [String(v)]: the key that a value read gives when it is used as a
    property name. *)
Definition keyOf (v : Found) : string :=
  match v with
  | Stored value => value
  | Inherited member =>
      if bool_decide (member = "__proto__") then "[object Object]"
      else if bool_decide (member = "constructor")
           then "function Object() { [native code] }"
           else "function " +:+ member +:+ "() { [native code] }"
  end.

End JS.

(** ** Exceptions *)

Inductive Error := SyntaxError | TypeError | IOError.

(** The outcome of a computation that may throw. *)
Inductive Res (A : Type) : Type :=
| Ok (a : A)
| Thrown (e : Error).
Arguments Ok {A} a.
Arguments Thrown {A} e.

#[export] Instance Res_ret : MRet Res := fun A a => Ok a.
#[export] Instance Res_bind : MBind Res := fun A B f m =>
  match m with
  | Ok a => f a
  | Thrown e => Thrown e
  end.

(** [try { body } catch (error) { handler }] *)
Definition try_catch {A} (body : Res A) (handler : Error -> Res A) : Res A :=
  match body with
  | Ok a => Ok a
  | Thrown e => handler e
  end.

(** A string handed to [JSON.parse], seen through what the parser makes of it. *)
Inductive JsonText (A : Type) : Type :=
| Malformed
| Encodes (a : A).
Arguments Malformed {A}.
Arguments Encodes {A} a.

Definition JSON_parse {A} (t : JsonText A) : Res A :=
  match t with
  | Malformed => Thrown SyntaxError
  | Encodes a => Ok a
  end.

(** A property that holds either a JSON string or the object itself:
    [typeof x === 'string' ? JSON.parse(x) : x]. *)
Inductive StringOr (A : Type) : Type :=
| IsString (t : JsonText A)
| IsObject (a : A).
Arguments IsString {A} t.
Arguments IsObject {A} a.

Definition parse_if_string {A} (x : StringOr A) : Res A :=
  match x with
  | IsString t => JSON_parse t
  | IsObject a => Ok a
  end.

(** [x && x.length > 0] on an optional array. *)
Definition nonEmpty {A} (o : option (list A)) : bool :=
  match o with
  | Some (_ :: _) => true
  | _ => false
  end.

(** The elements a [for ... of] loop visits once the guard on the array has
    passed. *)
Definition items {A} (o : option (list A)) : list A := default [] o.

Definition LF : string := String "010"%char EmptyString.
Definition fence : string := "```".

(** ** Decoded payloads *)

(** A node of the rich-text tree stored in [bubble.richText]. *)
Inductive RichNode : Type :=
| mkRichNode (rn_type : option string) (rn_text : option string)
             (rn_children : option (list RichNode)).

Definition rn_type (n : RichNode) : option string :=
  match n with mkRichNode t _ _ => t end.
Definition rn_text (n : RichNode) : option string :=
  match n with mkRichNode _ t _ => t end.
Definition rn_children (n : RichNode) : option (list RichNode) :=
  match n with mkRichNode _ _ c => c end.

Record RichRoot := { root_children : option (list RichNode) }.
Record RichTextData := { rt_root : option RichRoot }.

Record CodeBlock := {
  cb_content : option string;
  cb_language : option string }.

Record Uri := { uri_path : option string }.
Record FileSelection := { fs_uri : option Uri }.
Record BubbleContext := { ctx_fileSelections : option (list (option FileSelection)) }.

(** The value of a [bubbleId:<chatId>:<bubbleId>] row. *)
Record Bubble := {
  b_text : option string;
  b_richText : option (JsonText RichTextData);
  b_codeBlocks : option (list CodeBlock);
  b_timestamp : option Z;
  b_relevantFiles : option (list (option string));
  b_attachedFileCodeChunksUris : option (list (option Uri));
  b_context : option BubbleContext }.

(** The value of a [codeBlockDiff:<chatId>:<diffId>] row, with the [diffId]
    the route adds to it. *)
Record ModelDiff := { md_modified : option (list string) }.

Record ToolParams := {
  tp_command : option string;
  tp_target_file : option string;
  tp_query : option string;
  tp_instructions : option string }.

Record FoundFile := {
  ff_name : option string;
  ff_path : option string;
  ff_type : option string }.

Record SearchHit := {
  sh_file : option string;
  sh_content : option string }.

Record ToolResult := {
  tr_output : option string;
  tr_contents : option string;
  tr_exitCodeV2 : option Z;
  tr_files : option (list FoundFile);
  tr_results : option (list SearchHit) }.

Record WebSearchResult := { ws_title : option string }.

Record Action := {
  act_newModelDiffWrtV0 : option (list ModelDiff);
  act_filePath : option string;
  act_command : option string;
  act_searchResults : option string;
  act_webResults : option string;
  act_toolName : option string;
  act_parameters : option (StringOr ToolParams);
  act_result : option (StringOr ToolResult);
  act_actionsTaken : option (list string);
  act_filesModified : option (list string);
  act_gitStatus : option string;
  act_directoryListed : option string;
  act_webSearchResults : option (list WebSearchResult);
  act_diffId : option string }.

(** The value of a [messageRequestContext:<chatId>:<contextId>] row. *)
Record TerminalFile := { tf_path : option string }.
Record DirFile := { df_name : option string; df_type : option string }.
Record FolderListing := {
  fl_files : option (list DirFile);
  fl_path : option string }.
Record CursorRule := { cr_name : option string; cr_description : option string }.
Record SummarizedComposer := { sc_name : option string; sc_composerId : option string }.
Record Layout := { lay_rootPath : option string }.

Record RequestContext := {
  rc_bubbleId : option string;
  rc_gitStatusRaw : option string;
  rc_terminalFiles : option (list TerminalFile);
  rc_attachedFoldersListDirResults : option (list FolderListing);
  rc_cursorRules : option (list CursorRule);
  rc_summarizedComposers : option (list SummarizedComposer);
  rc_projectLayouts : option (list (JsonText Layout));
  rc_contextId : option string }.

(** The value of a [composerData:<composerId>] row. *)
Record Header := {
  h_bubbleId : string;
  h_type : option Z }.

Record NewFile := { nf_uri : option Uri }.

Record ComposerData := {
  cd_name : option string;
  cd_newlyCreatedFiles : option (list NewFile);
  cd_codeBlockData : option (list string);
  cd_fullConversationHeadersOnly : option (list Header);
  cd_lastUpdatedAt : option Z;
  cd_createdAt : option Z }.

(** The content of a [workspace.json] file. *)
Record WorkspaceData := { wd_folder : option string }.

(** A kept workspace directory: its name and what reading its
    [workspace.json] gives. *)
Record WorkspaceEntry := {
  we_name : string;
  we_workspaceJson : JsonText WorkspaceData }.

(** The turns and conversations the route answers with. *)
Inductive Role := user | ai.

Record ChatBubble := {
  cb_type : Role;
  cb_text : string;
  cb_timestamp : Z }.

Record ChatTab := {
  tab_id : string;
  tab_title : string;
  tab_timestamp : option Z;
  tab_bubbles : list ChatBubble;
  tab_codeBlockDiffs : list Action }.

(** ** Text extraction ([extractTextFromRichText], [extractTextFromBubble]) *)

Module Extract.
Import JS.

(** What one iteration of the loop of [extractTextFromRichText] appends to
    [text] for the node [child].  The second and the third branch of the
    source both ask for [child.children]; they stand here under one test of
    the children. *)
Fixpoint appended (child : RichNode) : string :=
  let fix loop (text : string) (children : list RichNode) {struct children} : string :=
    match children with
    | [] => text
    | c :: cs => loop (text +:+ appended c) cs
    end in
  match child with
  | mkRichNode type text children =>
      if bool_decide (type = Some "text") && present truthy text then
        show text
      else
        match children with
        | Some cs =>
            if bool_decide (type = Some "code")
            then (LF +:+ fence +:+ LF) +:+ loop "" cs +:+ (LF +:+ fence +:+ LF)
            else loop "" cs
        | None => ""
        end
  end.

Definition extractTextFromRichText (children : list RichNode) : string :=
  foldl (fun text child => text +:+ appended child) "" children.

(** The fenced section appended for one attached code block. *)
Definition codeBlockSection (codeBlock : CodeBlock) : string :=
  if present truthy (cb_content codeBlock) then
    LF +:+ LF +:+ fence +:+ show_or (cb_language codeBlock) "" +:+ LF
       +:+ show (cb_content codeBlock) +:+ LF +:+ fence
  else "".

Definition extractTextFromBubble (bubble : Bubble) : Res string :=
  let text := "" in
  (* Try to get text from the text field first *)
  let text :=
    if present (fun t => truthy t && truthy (trim t)) (b_text bubble)
    then show (b_text bubble) else text in
  (* If no text, try to extract from richText *)
  text ←
    (match b_richText bubble with
     | Some richText =>
         if negb (truthy text) then
           try_catch
             (richTextData ← JSON_parse richText;
              match rt_root richTextData with
              | Some root =>
                  match root_children root with
                  | Some children => Ok (extractTextFromRichText children)
                  | None => Ok text
                  end
              | None => Ok text
              end)
             (fun error => Ok text)
         else Ok text
     | None => Ok text
     end);
  (* If it's an AI message with code blocks, include them *)
  let text :=
    match b_codeBlocks bubble with
    | Some codeBlocks =>
        foldl (fun text codeBlock => text +:+ codeBlockSection codeBlock) text codeBlocks
    | None => text
    end in
  Ok text.

End Extract.

(** ** Text extraction on a payload as the route admits it *)

(** The route hands to [extractTextFromBubble] every value of its bubble
    map, and a row enters the map as soon as its value decodes to an object
    ([bubble && typeof bubble === 'object']): nothing tests the properties.
    The payloads below are those of the embedding and, besides, the ones
    whose [text] is not a string and whose [codeBlocks] hold [null]. *)
Module Loose.
Import JS.

(** The value of [bubble.text]. *)
Inductive Text :=
| AString (s : string)
| Falsy      (* null, false or 0 *)
| NotAString (* a number but 0, true, an array or an object: truthy, and
                without a method [trim] *).

Record LooseBubble := {
  lb_text : option Text;
  lb_richText : option (JsonText RichTextData);
  (* an element [None] is [null] *)
  lb_codeBlocks : option (list (option CodeBlock)) }.

(** The loop over [bubble.codeBlocks]: [codeBlock.content] throws on
    [null]. *)
Fixpoint appendCodeBlocks (text : string) (codeBlocks : list (option CodeBlock))
  : Res string :=
  match codeBlocks with
  | [] => Ok text
  | Some codeBlock :: rest =>
      appendCodeBlocks (text +:+ Extract.codeBlockSection codeBlock) rest
  | None :: rest => Thrown TypeError
  end.

Definition extractTextFromBubble (bubble : LooseBubble) : Res string :=
  let text := "" in
  (* Try to get text from the text field first: [bubble.text.trim()] is a
     call of [undefined] when the text is truthy and not a string *)
  text ←
    (match lb_text bubble with
     | Some (AString s) => Ok (if truthy s && truthy (trim s) then s else text)
     | Some NotAString => Thrown TypeError
     | Some Falsy => Ok text
     | None => Ok text
     end);
  (* If no text, try to extract from richText *)
  text ←
    (match lb_richText bubble with
     | Some richText =>
         if negb (truthy text) then
           try_catch
             (richTextData ← JSON_parse richText;
              match rt_root richTextData with
              | Some root =>
                  match root_children root with
                  | Some children => Ok (Extract.extractTextFromRichText children)
                  | None => Ok text
                  end
              | None => Ok text
              end)
             (fun error => Ok text)
         else Ok text
     | None => Ok text
     end);
  (* If it's an AI message with code blocks, include them *)
  match lb_codeBlocks bubble with
  | Some codeBlocks => appendCodeBlocks text codeBlocks
  | None => Ok text
  end.

(** A payload of the embedding, among the payloads the route admits. *)
Definition typed (bubble : Bubble) : LooseBubble :=
  {| lb_text := option_map AString (b_text bubble);
     lb_richText := b_richText bubble;
     lb_codeBlocks := option_map (List.map Some) (b_codeBlocks bubble) |}.

End Loose.

(** ** The tool-action formatter ([formatToolAction]) *)

Module Format.
Import JS.

(** The statements of the [try] block that reads the tool parameters. *)
Definition appendParameters (result : string) (params : ToolParams) : string :=
  let result :=
    if present truthy (tp_command params)
    then result +:+ LF +:+ "**Command:** `" +:+ show (tp_command params) +:+ "`"
    else result in
  let result :=
    if present truthy (tp_target_file params)
    then result +:+ LF +:+ "**File:** " +:+ show (tp_target_file params)
    else result in
  let result :=
    if present truthy (tp_query params)
    then result +:+ LF +:+ "**Query:** " +:+ show (tp_query params)
    else result in
  let result :=
    if present truthy (tp_instructions params)
    then result +:+ LF +:+ "**Instructions:** " +:+ show (tp_instructions params)
    else result in
  result.

(** The statements of the [try] block that reads the tool result. *)
Definition appendResult (result : string) (resultData : ToolResult) : string :=
  let result :=
    if present truthy (tr_output resultData)
    then result +:+ LF +:+ LF +:+ "**Output:**" +:+ LF +:+ fence +:+ LF
                +:+ show (tr_output resultData) +:+ LF +:+ fence
    else result in
  let result :=
    if present truthy (tr_contents resultData)
    then result +:+ LF +:+ LF +:+ "**File Contents:**" +:+ LF +:+ fence +:+ LF
                +:+ show (tr_contents resultData) +:+ LF +:+ fence
    else result in
  let result :=
    match tr_exitCodeV2 resultData with
    | Some code => result +:+ LF +:+ LF +:+ "**Exit Code:** " +:+ showZ code
    | None => result
    end in
  let result :=
    if nonEmpty (tr_files resultData) then
      foldl (fun result file =>
               result +:+ LF +:+ "- " +:+ show (or_else (ff_name file) (ff_path file))
                      +:+ " (" +:+ show_or (ff_type file) "file" +:+ ")")
            (result +:+ LF +:+ LF +:+ "**Files Found:**")
            (items (tr_files resultData))
    else result in
  let result :=
    if nonEmpty (tr_results resultData) then
      foldl (fun result searchResult =>
               if present truthy (sh_file searchResult)
                  && present truthy (sh_content searchResult)
               then (result +:+ LF +:+ LF +:+ "**File:** " +:+ show (sh_file searchResult))
                      +:+ LF +:+ fence +:+ LF +:+ show (sh_content searchResult)
                      +:+ LF +:+ fence
               else result)
            (result +:+ LF +:+ LF +:+ "**Results:**")
            (items (tr_results resultData))
    else result in
  result.

(** The blocks of [formatToolAction], in the order of the source; each
    takes the [result] built so far and gives the new one. *)

(* Handle code changes *)
Definition handleCodeChanges (action : Action) (result : string) : string :=
  if nonEmpty (act_newModelDiffWrtV0 action) then
    foldl (fun result diff =>
             if nonEmpty (md_modified diff)
             then result +:+ LF +:+ LF +:+ "**Code Changes:**" +:+ LF +:+ fence +:+ LF
                         +:+ join LF (items (md_modified diff)) +:+ LF +:+ fence
             else result)
          result (items (act_newModelDiffWrtV0 action))
  else result.

(* Handle file operations *)
Definition handleFilePath (action : Action) (result : string) : string :=
  if present truthy (act_filePath action)
  then result +:+ LF +:+ LF +:+ "**File:** " +:+ show (act_filePath action)
  else result.

(* Handle terminal commands *)
Definition handleCommand (action : Action) (result : string) : string :=
  if present truthy (act_command action)
  then result +:+ LF +:+ LF +:+ "**Command:** `" +:+ show (act_command action) +:+ "`"
  else result.

(* Handle search results *)
Definition handleSearchResults (action : Action) (result : string) : string :=
  if present truthy (act_searchResults action)
  then result +:+ LF +:+ LF +:+ "**Search Results:**" +:+ LF
              +:+ show (act_searchResults action)
  else result.

(* Handle web search results *)
Definition handleWebResults (action : Action) (result : string) : string :=
  if present truthy (act_webResults action)
  then result +:+ LF +:+ LF +:+ "**Web Search:**" +:+ LF
              +:+ show (act_webResults action)
  else result.

(* Handle tool actions with specific types *)
Definition handleTool (action : Action) (result : string) : Res string :=
  if present truthy (act_toolName action) then
    let result := result +:+ LF +:+ LF +:+ "**Tool Action:** "
                         +:+ show (act_toolName action) in
    result ←
      (match act_parameters action with
       | Some parameters =>
           try_catch
             (params ← parse_if_string parameters;
              Ok (appendParameters result params))
             (fun error => Ok result)
       | None => Ok result
       end);
    result ←
      (match act_result action with
       | Some result' =>
           try_catch
             (resultData ← parse_if_string result';
              Ok (appendResult result resultData))
             (fun error => Ok result)
       | None => Ok result
       end);
    Ok result
  else Ok result.

(* Handle actions taken *)
Definition handleActionsTaken (action : Action) (result : string) : string :=
  if nonEmpty (act_actionsTaken action)
  then result +:+ LF +:+ LF +:+ "**Actions Taken:** "
              +:+ join ", " (items (act_actionsTaken action))
  else result.

(* Handle files modified *)
Definition handleFilesModified (action : Action) (result : string) : string :=
  if nonEmpty (act_filesModified action) then
    foldl (fun result file => result +:+ LF +:+ "- " +:+ file)
          (result +:+ LF +:+ LF +:+ "**Files Modified:**")
          (items (act_filesModified action))
  else result.

(* Handle git status *)
Definition handleGitStatus (action : Action) (result : string) : string :=
  if present truthy (act_gitStatus action)
  then result +:+ LF +:+ LF +:+ "**Git Status:**" +:+ LF +:+ fence +:+ LF
              +:+ show (act_gitStatus action) +:+ LF +:+ fence
  else result.

(* Handle directory listings *)
Definition handleDirectoryListed (action : Action) (result : string) : string :=
  if present truthy (act_directoryListed action)
  then result +:+ LF +:+ LF +:+ "**Directory Listed:** "
              +:+ show (act_directoryListed action)
  else result.

(* Handle web search results *)
Definition handleWebSearchResults (action : Action) (result : string) : string :=
  match act_webSearchResults action with
  | Some webSearchResults =>
      foldl (fun result searchResult =>
               if present truthy (ws_title searchResult)
               then result +:+ LF +:+ "- " +:+ show (ws_title searchResult)
               else result)
            (result +:+ LF +:+ LF +:+ "**Web Search Results:**")
            webSearchResults
  | None => result
  end.

Definition formatToolAction (action : option Action) : Res string :=
  match action with
  | None => Ok ""
  | Some action =>
      let result := "" in
      let result := handleCodeChanges action result in
      let result := handleFilePath action result in
      let result := handleCommand action result in
      let result := handleSearchResults action result in
      let result := handleWebResults action result in
      result ← handleTool action result;
      let result := handleActionsTaken action result in
      let result := handleFilesModified action result in
      let result := handleGitStatus action result in
      let result := handleDirectoryListed action result in
      let result := handleWebSearchResults action result in
      Ok result
  end.

End Format.

(** ** Project attribution
    ([getProjectFromFilePath], [createProjectNameToWorkspaceIdMap],
    [determineProjectForConversation]; the project route and the conversation
    route each carry the same text of the three functions) *)

Module Attribution.
Import JS.

Definition home : string := "/Users/evaran/".
Definition scheme : string := "file://".

(** One iteration of the loop of [getProjectFromFilePath]: the name of the
    entry when the normalized path starts with its folder. *)
Definition entryMatch (normalizedPath : string) (entry : WorkspaceEntry)
  : Res (option string) :=
  try_catch
    (workspaceData ← JSON_parse (we_workspaceJson entry);
     if present truthy (wd_folder workspaceData) then
       let workspacePath :=
         stripPrefix home (removeFirst scheme (show (wd_folder workspaceData))) in
       if startsWith normalizedPath workspacePath
       then Ok (Some (we_name entry))
       else Ok None
     else Ok None)
    (fun error => Ok None).

Fixpoint firstEntry (normalizedPath : string) (workspaceEntries : list WorkspaceEntry)
  : Res (option string) :=
  match workspaceEntries with
  | [] => Ok None
  | entry :: rest =>
      hit ← entryMatch normalizedPath entry;
      match hit with
      | Some name => Ok (Some name)
      | None => firstEntry normalizedPath rest
      end
  end.

Definition getProjectFromFilePath (filePath : string)
    (workspaceEntries : list WorkspaceEntry) : Res (option string) :=
  (* Normalize the file path *)
  let normalizedPath := stripPrefix home filePath in
  firstEntry normalizedPath workspaceEntries.

(** [workspacePath.split('/').pop() || workspacePath.split('\\').pop()] *)
Definition folderNameOf (workspacePath : string) : option string :=
  or_else (pop (split "/" workspacePath)) (pop (split "\" workspacePath)).

Definition createProjectNameToWorkspaceIdMap (workspaceEntries : list WorkspaceEntry)
  : gmap string string :=
  foldl (fun projectNameToWorkspaceId entry =>
           match JSON_parse (we_workspaceJson entry) with
           | Ok workspaceData =>
               if present truthy (wd_folder workspaceData) then
                 let workspacePath := removeFirst scheme (show (wd_folder workspaceData)) in
                 let folderName := folderNameOf workspacePath in
                 if present truthy folderName
                 then <[show folderName := we_name entry]> projectNameToWorkspaceId
                 else projectNameToWorkspaceId
               else projectNameToWorkspaceId
           | Thrown error => projectNameToWorkspaceId
           end)
        ∅ workspaceEntries.

(** [a ?? b] for the early returns: the project found by [a] when it is a
    truthy id, else what [b] finds. *)
Definition or_next (a b : Res (option string)) : Res (option string) :=
  projectId ← a;
  if present truthy projectId then Ok projectId else b.

(** [for (const x of xs) { const projectId = f(x); if (projectId) return projectId }] *)
Fixpoint firstHit {A} (f : A -> Res (option string)) (xs : list A)
  : Res (option string) :=
  match xs with
  | [] => Ok None
  | x :: rest => or_next (f x) (firstHit f rest)
  end.

Section Resolver.
Variable projectLayoutsMap : gmap string (list string).
Variable projectNameToWorkspaceId : gmap string string.
Variable workspaceEntries : list WorkspaceEntry.
Variable bubbleMap : gmap string Bubble.

(** The loop of the first tier: the value read for the first hint that
    reads as a truthy value. *)
Fixpoint firstWorkspaceId (projectLayouts : list string) : option Found :=
  match projectLayouts with
  | [] => None
  | projectName :: rest =>
      match read projectNameToWorkspaceId projectName with
      | Some workspaceId =>
          if truthyFound workspaceId then Some workspaceId else firstWorkspaceId rest
      | None => firstWorkspaceId rest
      end
  end.

(** First tier: the layout hints recorded for the conversation.  For a
    conversation id that is a name of [Object.prototype] the map of the
    hints, which never holds such a name as a key of its own, gives the
    member it inherits, and the loop cannot iterate it. *)
Definition layoutTier (composerId : string) : Res (option Found) :=
  if bool_decide (composerId ∈ prototypeMembers) then Thrown TypeError
  else
    let projectLayouts := default [] (projectLayoutsMap !! composerId) in
    Ok (firstWorkspaceId projectLayouts).

(** Second tier: [composerData.newlyCreatedFiles]. *)
Definition newFilesTier (composerData : ComposerData) : Res (option string) :=
  if nonEmpty (cd_newlyCreatedFiles composerData) then
    firstHit (fun file =>
                match nf_uri file with
                | Some uri =>
                    if present truthy (uri_path uri)
                    then getProjectFromFilePath (show (uri_path uri)) workspaceEntries
                    else Ok None
                | None => Ok None
                end)
             (items (cd_newlyCreatedFiles composerData))
  else Ok None.

(** Third tier: the keys of [composerData.codeBlockData]. *)
Definition codeBlockTier (composerData : ComposerData) : Res (option string) :=
  match cd_codeBlockData composerData with
  | Some keys =>
      firstHit (fun filePath =>
                  let normalizedPath := removeFirst scheme filePath in
                  getProjectFromFilePath normalizedPath workspaceEntries)
               keys
  | None => Ok None
  end.

(** Fourth tier, for one bubble: its three shapes of file references. *)
Definition bubbleFiles (bubble : Bubble) : Res (option string) :=
  or_next
    ((* Check relevantFiles *)
     if nonEmpty (b_relevantFiles bubble) then
       firstHit (fun filePath =>
                   if present truthy filePath
                   then getProjectFromFilePath (show filePath) workspaceEntries
                   else Ok None)
                (items (b_relevantFiles bubble))
     else Ok None)
  (or_next
    ((* Check attachedFileCodeChunksUris *)
     if nonEmpty (b_attachedFileCodeChunksUris bubble) then
       firstHit (fun uri =>
                   match uri with
                   | Some uri =>
                       if present truthy (uri_path uri)
                       then getProjectFromFilePath (show (uri_path uri)) workspaceEntries
                       else Ok None
                   | None => Ok None
                   end)
                (items (b_attachedFileCodeChunksUris bubble))
     else Ok None)
    ((* Check context.fileSelections *)
     match b_context bubble with
     | Some context =>
         if nonEmpty (ctx_fileSelections context) then
           firstHit (fun fileSelection =>
                       match fileSelection with
                       | Some fileSelection =>
                           match fs_uri fileSelection with
                           | Some uri =>
                               if present truthy (uri_path uri)
                               then getProjectFromFilePath (show (uri_path uri))
                                      workspaceEntries
                               else Ok None
                           | None => Ok None
                           end
                       | None => Ok None
                       end)
                    (items (ctx_fileSelections context))
         else Ok None
     | None => Ok None
     end)).

Definition bubbleTier (composerData : ComposerData) : Res (option string) :=
  let conversationHeaders := default [] (cd_fullConversationHeadersOnly composerData) in
  firstHit (fun header =>
              let bubbleId := h_bubbleId header in
              match bubbleMap !! bubbleId with
              | Some bubble => bubbleFiles bubble
              | None => Ok None
              end)
           conversationHeaders.

Definition determineProjectForConversation (composerData : ComposerData)
    (composerId : string) : Res (option Found) :=
  (* First, try to get project from projectLayouts (most accurate) *)
  workspaceId ← layoutTier composerId;
  match workspaceId with
  | Some workspaceId => Ok (Some workspaceId)
  | None =>
      (* If no project found from projectLayouts, try file-based detection *)
      match or_next (newFilesTier composerData)
              (or_next (codeBlockTier composerData)
                 (bubbleTier composerData))
      with
      | Ok projectId => Ok (Stored <$> projectId)
      | Thrown error => Thrown error
      end
  end.

End Resolver.

End Attribution.

(** ** The clock *)

(** A handler run: exceptions, and the number of [Date.now()] readings taken
    so far.  The [n]-th reading of the run is [clock n]. *)
Definition M (A : Type) : Type := (nat -> Z) -> nat -> Res A * nat.

#[export] Instance M_ret : MRet M := fun A a clock n => (Ok a, n).
#[export] Instance M_bind : MBind M := fun A B f m clock n =>
  match m clock n with
  | (Ok a, n') => f a clock n'
  | (Thrown e, n') => (Thrown e, n')
  end.

Definition lift {A} (r : Res A) : M A := fun clock n => (r, n).

Definition Date_now : M Z := fun clock n => (Ok (clock n), S n).

Definition try_catchM {A} (body : M A) (handler : Error -> M A) : M A :=
  fun clock n =>
    match body clock n with
    | (Ok a, n') => (Ok a, n')
    | (Thrown e, n') => handler e clock n'
    end.

(** A [for ... of] loop that updates [b]. *)
Fixpoint forM {A B} (xs : list A) (b : B) (body : B -> A -> M B) : M B :=
  match xs with
  | [] => mret b
  | x :: rest => b' ← body b x; forM rest b' body
  end.

(** [xs.map(f)] for an [f] that may read the clock. *)
Fixpoint mapM_ {A B} (f : A -> M B) (xs : list A) : M (list B) :=
  match xs with
  | [] => mret []
  | x :: rest => y ← f x; ys ← mapM_ f rest; mret (y :: ys)
  end.

(** ** [Array.prototype.sort] *)

Section Sort.
Context {A : Type} (compareFn : A -> A -> Z).

(** [x] goes before the first element it does not compare greater than. *)
Fixpoint insert_sorted (x : A) (l : list A) : list A :=
  match l with
  | [] => [x]
  | y :: l' => if compareFn x y <=? 0 then x :: l else y :: insert_sorted x l'
  end.

(** The stable sort of [l] by [compareFn]: elements that compare equal keep
    their order. *)
Definition sort (l : list A) : list A := foldr insert_sorted [] l.
End Sort.

(** ** The conversation route ([GET /api/workspaces/:id/tabs]) *)

(** What the handler sends back. *)
Inductive Response (A : Type) : Type :=
| Json (body : A)
| Failure (status : Z) (error : string).
Arguments Json {A} body.
Arguments Failure {A} status error.

(** A row of [cursorDiskKV] whose key is like [composerData:%], with the
    outcome of the tests that the queries of the routes make on the text of
    its value. *)
Record ComposerRow := {
  cr_key : string;
  cr_value : JsonText ComposerData;
  (* LENGTH(value) > 10 *)
  cr_long : bool;
  (* value LIKE '%fullConversationHeadersOnly%' *)
  cr_likeHeaders : bool;
  (* value LIKE the same word followed by a quote, a colon and an empty
     array *)
  cr_likeEmptyHeaders : bool }.

(** The rows of the global store that the queries of the routes select by
    their key, and the [composerData] rows from which each route selects by
    the value as well. *)
Record GlobalDb := {
  bubbleRows : list (string * JsonText Bubble);
  codeBlockDiffRows : list (string * JsonText Action);
  messageRequestContextRows : list (string * JsonText RequestContext);
  composerDataRows : list ComposerRow }.

(** The store file of a workspace directory. *)
Record ChatData := { chat_tabs : option (list unit) }.
Record StoreFile := {
  st_mtime : Z;
  (* the [workbench.panel.aichat.view.aichat.chatdata] item; [None] at the
     outer level when the file cannot be opened or queried *)
  st_chatdata : option (option (JsonText ChatData)) }.

(** An entry of the workspace storage directory ([fs.readdir]). *)
Record DirEntry := {
  de_name : string;
  de_isDirectory : bool;
  (* [workspace.json], when the file exists *)
  de_workspaceJson : option (JsonText WorkspaceData);
  (* [state.vscdb], when the file exists *)
  de_stateDb : option StoreFile }.

(** The storage as a query finds it. *)
Record Storage := {
  (* the entries of the workspace storage directory; [None] when the
     directory cannot be read *)
  fs_entries : option (list DirEntry);
  (* [globalStorage/state.vscdb]: [None] when missing, [Some None] when it
     cannot be opened or queried *)
  fs_globalDb : option (option GlobalDb) }.

(** The outermost [try { ... return response } catch (error) { return failure }]
    of a handler. *)
Definition respond {A} (body : Res (Response A)) (handler : Error -> Response A)
  : Response A :=
  match body with
  | Ok response => response
  | Thrown error => handler error
  end.

(** [fs.readdir(workspacePath, { withFileTypes: true })] *)
Definition readdir (fs : Storage) : Res (list DirEntry) :=
  match fs_entries fs with
  | Some entries => Ok entries
  | None => Thrown IOError
  end.

(** [new Database(path, { readonly: true })] with the queries that follow. *)
Definition openDatabase {A} (db : option A) : Res A :=
  match db with
  | Some rows => Ok rows
  | None => Thrown IOError
  end.

(** The loop that keeps the directories holding a [workspace.json]. *)
Definition collectWorkspaceEntries (entries : list DirEntry) : list WorkspaceEntry :=
  foldl (fun workspaceEntries entry =>
           if de_isDirectory entry then
             match de_workspaceJson entry with
             | Some workspaceJson =>
                 workspaceEntries ++
                   [{| we_name := de_name entry; we_workspaceJson := workspaceJson |}]
             | None => workspaceEntries
             end
           else workspaceEntries)
        [] entries.

(** The [composerId -> projectLayouts] map both routes build from the
    [messageRequestContext] rows. *)
Definition buildProjectLayoutsMap (rows : list (string * JsonText RequestContext))
  : gmap string (list string) :=
  foldl (fun projectLayoutsMap row =>
           let parts := JS.split ":" row.1 in
           match parts !! 1%nat with
           | Some composerId =>
               match JSON_parse row.2 with
               | Ok context =>
                   match rc_projectLayouts context with
                   | Some layouts =>
                       let known := default [] (projectLayoutsMap !! composerId) in
                       <[composerId :=
                           foldl (fun paths layout =>
                                    match JSON_parse layout with
                                    | Ok layoutObj =>
                                        if JS.present JS.truthy (lay_rootPath layoutObj)
                                        then paths ++ [JS.show (lay_rootPath layoutObj)]
                                        else paths
                                    | Thrown parseError => paths
                                    end)
                                 known layouts]> projectLayoutsMap
                   | None => projectLayoutsMap
                   end
               | Thrown parseError => projectLayoutsMap
               end
           | None => projectLayoutsMap
           end)
        ∅ rows.

(** The [bubbleId -> bubble] map both routes build from the [bubbleId] rows:
    the key is the third segment of the row key alone. *)
Definition buildBubbleMap (rows : list (string * JsonText Bubble)) : gmap string Bubble :=
  foldl (fun bubbleMap row =>
           let bubbleId := JS.show (JS.split ":" row.1 !! 2%nat) in
           match JSON_parse row.2 with
           | Ok bubble => <[bubbleId := bubble]> bubbleMap
           | Thrown parseError => bubbleMap
           end)
        ∅ rows.

Module Tabs.
Import JS.

(** [extractChatIdFromCodeBlockDiffKey]: the match of
    [/^codeBlockDiff:([^:]+):/] on the key. *)
Definition extractChatIdFromCodeBlockDiffKey (key : string) : option string :=
  match split ":" key with
  | kind :: chatId :: _ :: _ =>
      if bool_decide (kind = "codeBlockDiff") && truthy chatId
      then Some chatId else None
  | _ => None
  end.

Definition setDiffId (codeBlockDiff : Action) (diffId : option string) : Action :=
  {| act_newModelDiffWrtV0 := act_newModelDiffWrtV0 codeBlockDiff;
     act_filePath := act_filePath codeBlockDiff;
     act_command := act_command codeBlockDiff;
     act_searchResults := act_searchResults codeBlockDiff;
     act_webResults := act_webResults codeBlockDiff;
     act_toolName := act_toolName codeBlockDiff;
     act_parameters := act_parameters codeBlockDiff;
     act_result := act_result codeBlockDiff;
     act_actionsTaken := act_actionsTaken codeBlockDiff;
     act_filesModified := act_filesModified codeBlockDiff;
     act_gitStatus := act_gitStatus codeBlockDiff;
     act_directoryListed := act_directoryListed codeBlockDiff;
     act_webSearchResults := act_webSearchResults codeBlockDiff;
     act_diffId := diffId |}.

Definition buildCodeBlockDiffMap (rows : list (string * JsonText Action))
  : gmap string (list Action) :=
  foldl (fun codeBlockDiffMap row =>
           match extractChatIdFromCodeBlockDiffKey row.1 with
           | Some chatId =>
               match JSON_parse row.2 with
               | Ok codeBlockDiff =>
                   <[chatId := default [] (codeBlockDiffMap !! chatId)
                                 ++ [setDiffId codeBlockDiff (split ":" row.1 !! 2%nat)]]>
                     codeBlockDiffMap
               | Thrown parseError => codeBlockDiffMap
               end
           | None => codeBlockDiffMap
           end)
        ∅ rows.

Definition setContextId (context : RequestContext) (contextId : string) : RequestContext :=
  {| rc_bubbleId := rc_bubbleId context;
     rc_gitStatusRaw := rc_gitStatusRaw context;
     rc_terminalFiles := rc_terminalFiles context;
     rc_attachedFoldersListDirResults := rc_attachedFoldersListDirResults context;
     rc_cursorRules := rc_cursorRules context;
     rc_summarizedComposers := rc_summarizedComposers context;
     rc_projectLayouts := rc_projectLayouts context;
     rc_contextId := Some contextId |}.

Definition buildMessageRequestContextMap (rows : list (string * JsonText RequestContext))
  : gmap string (list RequestContext) :=
  foldl (fun messageRequestContextMap row =>
           match split ":" row.1 with
           | _ :: chatId :: contextId :: _ =>
               match JSON_parse row.2 with
               | Ok context =>
                   <[chatId := default [] (messageRequestContextMap !! chatId)
                                 ++ [setContextId context contextId]]>
                     messageRequestContextMap
               | Thrown parseError => messageRequestContextMap
               end
           | _ => messageRequestContextMap
           end)
        ∅ rows.

(** What a request context of the bubble appends to [contextText]. *)
Definition appendContext (contextText : string) (context : RequestContext) : string :=
  (* Add git status if available *)
  let contextText :=
    if present truthy (rc_gitStatusRaw context)
    then contextText +:+ LF +:+ LF +:+ "**Git Status:**" +:+ LF +:+ fence +:+ LF
                     +:+ show (rc_gitStatusRaw context) +:+ LF +:+ fence
    else contextText in
  (* Add terminal files if available *)
  let contextText :=
    if nonEmpty (rc_terminalFiles context) then
      foldl (fun contextText file => contextText +:+ LF +:+ "- " +:+ show (tf_path file))
            (contextText +:+ LF +:+ LF +:+ "**Terminal Files:**")
            (items (rc_terminalFiles context))
    else contextText in
  (* Add attached folders if available *)
  let contextText :=
    if nonEmpty (rc_attachedFoldersListDirResults context) then
      foldl (fun contextText folder =>
               if nonEmpty (fl_files folder) then
                 foldl (fun contextText file =>
                          contextText +:+ LF +:+ "- " +:+ show (df_name file)
                                      +:+ " (" +:+ show (df_type file) +:+ ")")
                       (contextText +:+ LF +:+ LF +:+ "**Folder:** "
                                    +:+ show_or (fl_path folder) "Unknown")
                       (items (fl_files folder))
               else contextText)
            (contextText +:+ LF +:+ LF +:+ "**Attached Folders:**")
            (items (rc_attachedFoldersListDirResults context))
    else contextText in
  (* Add cursor rules if available *)
  let contextText :=
    if nonEmpty (rc_cursorRules context) then
      foldl (fun contextText rule =>
               contextText +:+ LF +:+ "- "
                 +:+ show_or (or_else (cr_name rule) (cr_description rule)) "Rule")
            (contextText +:+ LF +:+ LF +:+ "**Cursor Rules:**")
            (items (rc_cursorRules context))
    else contextText in
  (* Add summarized composers if available *)
  let contextText :=
    if nonEmpty (rc_summarizedComposers context) then
      foldl (fun contextText composer =>
               contextText +:+ LF +:+ "- "
                 +:+ show_or (or_else (sc_name composer) (sc_composerId composer))
                       "Conversation")
            (contextText +:+ LF +:+ LF +:+ "**Related Conversations:**")
            (items (rc_summarizedComposers context))
    else contextText in
  contextText.

(** [a.timestamp || 0] *)
Definition or0 (timestamp : Z) : Z := if truthyZ timestamp then timestamp else 0.

(** The comparison function handed to [bubbles.sort]. *)
Definition byTimestamp (a b : ChatBubble) : Z :=
  or0 (cb_timestamp a) - or0 (cb_timestamp b).

(** [new Date(value).getTime()]: [None] is [NaN]. *)
Definition getTime (value : option Z) : option Z :=
  match value with
  | Some t => if Z.abs t <=? 8640000000000000 then Some t else None
  | None => None
  end.

(** The title of a conversation, computed from the stored name and the
    turns collected from the headers. *)
Definition resolveTitle (name : option string) (composerId : string)
    (bubbles : list ChatBubble) : string :=
  let title := show_or name ("Conversation " +:+ take 8 composerId) in
  if negb (present truthy name) then
    match bubbles with
    | first :: _ =>
        let firstMessage := cb_text first in
        if truthy firstMessage then
          let firstLines :=
            List.filter (fun line => truthy (trim line)) (split "010" firstMessage) in
          match firstLines with
          | firstLine :: _ =>
              let title := take 100 firstLine in
              if bool_decide (String.length title = 100%nat)
              then title +:+ "..." else title
          | [] => title
          end
        else title
    | [] => title
    end
  else title.

Section Assembler.
Variable bubbleMap : gmap string Bubble.
Variable codeBlockDiffMap : gmap string (list Action).
Variable messageRequestContextMap : gmap string (list RequestContext).

(** The text of the turn of a header: the text of its bubble and the
    sections of the request contexts of the bubble. *)
Definition fullTextOf (composerId bubbleId : string) (bubble : Bubble) : Res string :=
  (* Extract the actual text content *)
  text ← Extract.extractTextFromBubble bubble;
  (* Add messageRequestContext data if available *)
  let messageContexts := default [] (messageRequestContextMap !! composerId) in
  let contextText :=
    foldl (fun contextText context =>
             if bool_decide (rc_bubbleId context = Some bubbleId)
             then appendContext contextText context
             else contextText)
          "" messageContexts in
  (* Combine text and context *)
  Ok (text +:+ contextText).

(** One iteration of the loop over the conversation headers. *)
Definition headerStep (composerId : string) (bubbles : list ChatBubble)
    (header : Header) : M (list ChatBubble) :=
  let bubbleId := h_bubbleId header in
  match bubbleMap !! bubbleId with
  | Some bubble =>
      (* Determine if this is a user or AI message *)
      let isUser := bool_decide (h_type header = Some 1) in
      let messageType := if isUser then user else ai in
      fullText ← lift (fullTextOf composerId bubbleId bubble);
      if truthy (trim fullText) then
        timestamp ←
          (match b_timestamp bubble with
           | Some t => if truthyZ t then mret t else Date_now
           | None => Date_now
           end);
        mret (bubbles ++ [{| cb_type := messageType;
                             cb_text := fullText;
                             cb_timestamp := timestamp |}])
      else mret bubbles
  | None => mret bubbles
  end.

(** One iteration of the loop over the code-block diffs of the
    conversation. *)
Definition diffStep (bubbles : list ChatBubble) (diff : Action) : M (list ChatBubble) :=
  diffText ← lift (Format.formatToolAction (Some diff));
  if truthy (trim diffText) then
    timestamp ← Date_now;
    mret (bubbles ++ [{| cb_type := ai;
                         cb_text := "**Tool Action:**" +:+ diffText;
                         cb_timestamp := timestamp |}])
  else mret bubbles.

(** The object built for a turn of the answer. *)
Definition outputBubble (bubble : ChatBubble) : M ChatBubble :=
  timestamp ← (if truthyZ (cb_timestamp bubble)
               then mret (cb_timestamp bubble) else Date_now);
  mret {| cb_type := cb_type bubble;
          cb_text := (if truthy (cb_text bubble) then cb_text bubble else "");
          cb_timestamp := timestamp |}.

(** The conversation assembled for a composer that belongs to the
    project, or nothing. *)
Definition assembleConversation (composerId : string) (composerData : ComposerData)
  : M (option ChatTab) :=
  (* Get the conversation headers to understand the structure *)
  let conversationHeaders := default [] (cd_fullConversationHeadersOnly composerData) in
  (* Build the conversation from the headers and bubble content *)
  bubbles ← forM conversationHeaders [] (headerStep composerId);
  match bubbles with
  | _ :: _ =>
      (* Generate a title from the composer name or first message *)
      let title := resolveTitle (cd_name composerData) composerId bubbles in
      (* Get codeBlockDiffs for this conversation and add them as separate bubbles *)
      let codeBlockDiffs := default [] (codeBlockDiffMap !! composerId) in
      bubbles ← forM codeBlockDiffs bubbles diffStep;
      (* Sort bubbles by timestamp to ensure proper order *)
      let bubbles := sort byTimestamp bubbles in
      bubbles ← mapM_ outputBubble bubbles;
      mret (Some {| tab_id := composerId;
                    tab_title := title;
                    tab_timestamp :=
                      getTime (if present truthyZ (cd_lastUpdatedAt composerData)
                               then cd_lastUpdatedAt composerData
                               else cd_createdAt composerData);
                    tab_bubbles := bubbles;
                    tab_codeBlockDiffs := codeBlockDiffs |})
  | [] => mret None
  end.

End Assembler.

(** One iteration of the loop over the [composerData] rows. *)
Definition composerStep (params_id : string)
    (projectLayoutsMap : gmap string (list string))
    (projectNameToWorkspaceId : gmap string string)
    (workspaceEntries : list WorkspaceEntry)
    (bubbleMap : gmap string Bubble)
    (codeBlockDiffMap : gmap string (list Action))
    (messageRequestContextMap : gmap string (list RequestContext))
    (tabs : list ChatTab) (row : string * JsonText ComposerData) : M (list ChatTab) :=
  let composerId := show (split ":" row.1 !! 1%nat) in
  try_catchM
    (composerData ← lift (JSON_parse row.2);
     (* Determine which project this conversation belongs to *)
     projectId ← lift (Attribution.determineProjectForConversation
                         projectLayoutsMap projectNameToWorkspaceId workspaceEntries
                         bubbleMap composerData composerId);
     (* Only process conversations that belong to this specific workspace *)
     if bool_decide (projectId = Some (Stored params_id)) then
       tab ← assembleConversation bubbleMap codeBlockDiffMap messageRequestContextMap
               composerId composerData;
       match tab with
       | Some tab => mret (tabs ++ [tab])
       | None => mret tabs
       end
     else mret tabs)
    (fun parseError => mret tabs).

(** The rows that the query of the route selects: the key is like
    [composerData:%] and the value mentions the conversation headers, and
    not an empty list of them. *)
Definition composerRows (globalDb : GlobalDb) : list (string * JsonText ComposerData) :=
  (fun row => (cr_key row, cr_value row))
    <$> List.filter (fun row => cr_likeHeaders row && negb (cr_likeEmptyHeaders row))
                    (composerDataRows globalDb).

Definition GET (fs : Storage) (params_id : string) : M (Response (list ChatTab)) :=
  try_catchM
    ((* Get all workspace entries for project mapping *)
     entries ← lift (readdir fs);
     let workspaceEntries := collectWorkspaceEntries entries in
     (* Create project name to workspace ID mapping *)
     let projectNameToWorkspaceId :=
       Attribution.createProjectNameToWorkspaceIdMap workspaceEntries in
     match fs_globalDb fs with
     | Some globalDb =>
         globalDb ← lift (openDatabase globalDb);
         let bubbleMap := buildBubbleMap (bubbleRows globalDb) in
         let codeBlockDiffMap := buildCodeBlockDiffMap (codeBlockDiffRows globalDb) in
         let messageRequestContextMap :=
           buildMessageRequestContextMap (messageRequestContextRows globalDb) in
         let projectLayoutsMap :=
           buildProjectLayoutsMap (messageRequestContextRows globalDb) in
         tabs ← forM (composerRows globalDb) []
                  (composerStep params_id projectLayoutsMap projectNameToWorkspaceId
                     workspaceEntries bubbleMap codeBlockDiffMap
                     messageRequestContextMap);
         mret (Json tabs)
     | None => mret (Failure 404 "Global storage not found")
     end)
    (fun error => mret (Failure 500 "Failed to get workspace tabs")).

End Tabs.

(** [fs.stat(path.join(workspacePath, name, 'state.vscdb'))]: the time of last
    modification of the store file of the directory [name]; it throws when
    the file is missing. *)
Definition stat_stateDb (entries : list DirEntry) (name : string) : Res Z :=
  match List.find (fun entry => bool_decide (de_name entry = name)) entries with
  | Some entry =>
      match de_stateDb entry with
      | Some store => Ok (st_mtime store)
      | None => Thrown IOError
      end
  | None => Thrown IOError
  end.

(** ** The workspace listing route ([GET /api/workspaces], legacy stores) *)

Module Workspaces.
Import JS.

Record Workspace := {
  ws_id : string;
  ws_folder : option string;
  ws_lastModified : Z;
  ws_chatCount : nat }.

(** The body of the inner [try] for a directory whose store file exists. *)
Definition describe (entry : DirEntry) (store : StoreFile) : Res Workspace :=
  let stats := st_mtime store in
  result ← openDatabase (st_chatdata store);
  (* Parse the chat data and count tabs *)
  let chatCount :=
    match result with
    | Some value =>
        match JSON_parse value with
        | Ok chatData => length (items (chat_tabs chatData))
        | Thrown error => 0%nat
        end
    | None => 0%nat
    end in
  (* Try to read workspace.json *)
  let folder :=
    match de_workspaceJson entry with
    | Some workspaceJson =>
        match JSON_parse workspaceJson with
        | Ok workspaceData => wd_folder workspaceData
        | Thrown error => None
        end
    | None => None
    end in
  Ok {| ws_id := de_name entry;
        ws_folder := folder;
        ws_lastModified := stats;
        ws_chatCount := chatCount |}.

(** One iteration of the loop over the directory entries. *)
Definition step (workspaces : list Workspace) (entry : DirEntry) : Res (list Workspace) :=
  if de_isDirectory entry then
    match de_stateDb entry with
    | None =>
        (* Skip if state.vscdb doesn't exist *)
        Ok workspaces
    | Some store =>
        try_catch
          (workspace ← describe entry store;
           Ok (workspaces ++ [workspace]))
          (fun error => Ok workspaces)
    end
  else Ok workspaces.

Fixpoint loop (entries : list DirEntry) (workspaces : list Workspace)
  : Res (list Workspace) :=
  match entries with
  | [] => Ok workspaces
  | entry :: rest => workspaces ← step workspaces entry; loop rest workspaces
  end.

Definition GET (fs : Storage) : Response (list Workspace) :=
  respond
    (entries ← readdir fs;
     workspaces ← loop entries [];
     Ok (Json workspaces))
    (fun error => Failure 500 "Failed to get workspaces").

End Workspaces.

(** ** The project listing route ([GET /api/workspaces], global store) *)

Module Projects.
Import JS.

Record Project := {
  p_id : string;
  p_name : string;
  p_conversationCount : nat;
  p_lastModified : Z }.

Record ConversationData := {
  c_composerId : string;
  c_name : string;
  c_newlyCreatedFiles : list NewFile;
  c_lastUpdatedAt : option Z;
  c_createdAt : option Z }.

(** One iteration of the loop over the [composerData] rows. *)
Definition composerStep
    (projectLayoutsMap : gmap string (list string))
    (projectNameToWorkspaceId : gmap string string)
    (workspaceEntries : list WorkspaceEntry)
    (bubbleMap : gmap string Bubble)
    (conversationMap : gmap string (list ConversationData))
    (row : string * JsonText ComposerData) : Res (gmap string (list ConversationData)) :=
  let composerId := show (split ":" row.1 !! 1%nat) in
  try_catch
    (composerData ← JSON_parse row.2;
     projectId ← Attribution.determineProjectForConversation
                   projectLayoutsMap projectNameToWorkspaceId workspaceEntries
                   bubbleMap composerData composerId;
     (* If no project found, skip this conversation *)
     if present truthyFound projectId then
       (* the value found is used as a property name *)
       let projectId := default "undefined" (keyOf <$> projectId) in
       Ok (<[projectId :=
               default [] (conversationMap !! projectId) ++
               [{| c_composerId := composerId;
                   c_name := show_or (cd_name composerData)
                               ("Conversation " +:+ take 8 composerId);
                   c_newlyCreatedFiles := items (cd_newlyCreatedFiles composerData);
                   c_lastUpdatedAt :=
                     (if present truthyZ (cd_lastUpdatedAt composerData)
                      then cd_lastUpdatedAt composerData
                      else cd_createdAt composerData);
                   c_createdAt := cd_createdAt composerData |}]]> conversationMap)
     else Ok conversationMap)
    (fun parseError => Ok conversationMap).

Fixpoint composerLoop
    (projectLayoutsMap : gmap string (list string))
    (projectNameToWorkspaceId : gmap string string)
    (workspaceEntries : list WorkspaceEntry)
    (bubbleMap : gmap string Bubble)
    (rows : list (string * JsonText ComposerData))
    (conversationMap : gmap string (list ConversationData))
  : Res (gmap string (list ConversationData)) :=
  match rows with
  | [] => Ok conversationMap
  | row :: rest =>
      conversationMap ← composerStep projectLayoutsMap projectNameToWorkspaceId
                          workspaceEntries bubbleMap conversationMap row;
      composerLoop projectLayoutsMap projectNameToWorkspaceId workspaceEntries
        bubbleMap rest conversationMap
  end.

(** The rows that the query of the listing selects: the key is like
    [composerData:%] and the value is longer than ten characters. *)
Definition composerRows (globalDb : GlobalDb) : list (string * JsonText ComposerData) :=
  (fun row => (cr_key row, cr_value row))
    <$> List.filter cr_long (composerDataRows globalDb).

(** The conversations of the global store, grouped by project. *)
Definition readGlobalStorage (fs : Storage)
    (projectNameToWorkspaceId : gmap string string)
    (workspaceEntries : list WorkspaceEntry) : gmap string (list ConversationData) :=
  match fs_globalDb fs with
  | Some globalDb =>
      match
        (globalDb ← openDatabase globalDb;
         let projectLayoutsMap :=
           buildProjectLayoutsMap (messageRequestContextRows globalDb) in
         let bubbleMap := buildBubbleMap (bubbleRows globalDb) in
         composerLoop projectLayoutsMap projectNameToWorkspaceId workspaceEntries
           bubbleMap (composerRows globalDb) ∅)
      with
      | Ok conversationMap => conversationMap
      | Thrown error =>
          (* console.error('Error reading global storage:', error) *)
          ∅
      end
  | None => ∅
  end.

(** The display name of a project. *)
Definition workspaceNameOf (entry : WorkspaceEntry) : string :=
  let workspaceName := "Project " +:+ take 8 (we_name entry) in
  match JSON_parse (we_workspaceJson entry) with
  | Ok workspaceData =>
      if present truthy (wd_folder workspaceData) then
        let folder := show (wd_folder workspaceData) in
        show_or (or_else (pop (split "/" folder)) (pop (split "\" folder))) workspaceName
      else workspaceName
  | Thrown error => workspaceName
  end.

(** One iteration of the loop that creates the projects. *)
Definition projectStep (entries : list DirEntry)
    (conversationMap : gmap string (list ConversationData))
    (projects : list Project) (entry : WorkspaceEntry) : Res (list Project) :=
  stats ← stat_stateDb entries (we_name entry);
  (* Get workspace name *)
  let workspaceName := workspaceNameOf entry in
  (* Count conversations for this project from the unified map only *)
  let conversations := default [] (conversationMap !! we_name entry) in
  let conversationCount := length conversations in
  (* Show all projects, even those with 0 conversations *)
  Ok (projects ++ [{| p_id := we_name entry;
                      p_name := workspaceName;
                      p_conversationCount := conversationCount;
                      p_lastModified := stats |}]).

Fixpoint projectLoop (entries : list DirEntry)
    (conversationMap : gmap string (list ConversationData))
    (workspaceEntries : list WorkspaceEntry) (projects : list Project)
  : Res (list Project) :=
  match workspaceEntries with
  | [] => Ok projects
  | entry :: rest =>
      projects ← projectStep entries conversationMap projects entry;
      projectLoop entries conversationMap rest projects
  end.

(** The comparison function handed to [projects.sort]: newest first. *)
Definition newestFirst (a b : Project) : Z := p_lastModified b - p_lastModified a.

Definition GET (fs : Storage) : Response (list Project) :=
  respond
      ((* Get all workspace entries first *)
       entries ← readdir fs;
       let workspaceEntries := collectWorkspaceEntries entries in
       (* Create project name to workspace ID mapping *)
       let projectNameToWorkspaceId :=
         Attribution.createProjectNameToWorkspaceIdMap workspaceEntries in
       (* Get conversations from global storage only *)
       let conversationMap :=
         readGlobalStorage fs projectNameToWorkspaceId workspaceEntries in
       (* Create projects with their conversation counts *)
       projects ← projectLoop entries conversationMap workspaceEntries [];
       (* Sort by last modified, newest first *)
       Ok (Json (sort newestFirst projects)))
      (fun error => Failure 500 "Failed to get workspaces").

End Projects.

(** * Properties *)

(** ** Strings *)

Module JSFacts.
Import JS.

Lemma app_nil_l (s : string) : "" +:+ s = s.
Proof. reflexivity. Qed.

Lemma app_cons (c : ascii) (s t : string) : String c s +:+ t = String c (s +:+ t).
Proof. reflexivity. Qed.

Lemma app_nil_r (s : string) : s +:+ "" = s.
Proof. induction s as [|c s IH]; [done|]. by rewrite app_cons, IH. Qed.

Lemma app_assoc (s t u : string) : (s +:+ t) +:+ u = s +:+ (t +:+ u).
Proof. induction s as [|c s IH]; [done|]. by rewrite !app_cons, IH. Qed.

(** A string is blank when it holds white space only. *)
Fixpoint blank (s : string) : bool :=
  match s with
  | EmptyString => true
  | String c s' => is_ws c && blank s'
  end.

Lemma trimEnd_empty (s : string) : truthy (trimEnd s) = negb (blank s).
Proof.
  induction s as [|c s IH]; [done|]. simpl.
  destruct (trimEnd s) eqn:E; simpl in *.
  - apply (f_equal negb) in IH. rewrite negb_involutive in IH. simpl in IH.
    rewrite <- IH. by destruct (is_ws c).
  - apply (f_equal negb) in IH. rewrite negb_involutive in IH. simpl in IH.
    rewrite <- IH. by rewrite andb_false_r.
Qed.

Lemma blank_trimStart (s : string) : blank (trimStart s) = blank s.
Proof.
  induction s as [|c s IH]; [done|]. simpl.
  destruct (is_ws c) eqn:E; simpl; [done|]. by rewrite E.
Qed.

(** [s.trim()] is truthy exactly when [s] holds a character that is not
    white space. *)
Lemma truthy_trim (s : string) : truthy (trim s) = negb (blank s).
Proof. unfold trim. by rewrite trimEnd_empty, blank_trimStart. Qed.

Lemma truthy_trim_truthy (s : string) : truthy (trim s) = true → truthy s = true.
Proof. rewrite truthy_trim. by destruct s. Qed.

Lemma truthy_true_iff (s : string) : truthy s = true ↔ s ≠ "".
Proof. destruct s; simpl; split; congruence. Qed.

Lemma or_empty (s : string) : (if truthy s then s else "") = s.
Proof. by destruct s. Qed.

Lemma length_take (n : nat) (s : string) :
  String.length (take n s) = Nat.min n (String.length s).
Proof.
  revert s. induction n as [|n IH]; intros [|c s]; simpl; try done.
  by rewrite IH.
Qed.

Lemma take_app_drop (n : nat) (s : string) : take n s +:+ drop n s = s.
Proof.
  revert s. induction n as [|n IH]; intros [|c s]; simpl; try done.
  by rewrite app_cons, IH.
Qed.

Lemma startsWith_app (s p : string) :
  startsWith s p = true ↔ ∃ t, s = p +:+ t.
Proof.
  revert s. induction p as [|c p IH]; intros s; simpl.
  - split; [intros _; by exists s|done].
  - destruct s as [|d s].
    + split; [done|]. intros [t Ht]. by rewrite app_cons in Ht.
    + destruct (Ascii.eqb_spec c d) as [->|Hne].
      * rewrite IH. split; intros [t Ht]; exists t.
        -- by rewrite app_cons, Ht.
        -- rewrite app_cons in Ht. congruence.
      * split; [done|]. intros [t Ht]. rewrite app_cons in Ht. congruence.
Qed.

Lemma drop_length_app (p t : string) : drop (String.length p) (p +:+ t) = t.
Proof. induction p as [|c p IH]; [done|]. by rewrite app_cons. Qed.

(** [replace(/^pat/, '')] removes the prefix when it is there and leaves
    the string alone otherwise. *)
Lemma stripPrefix_app (pat t : string) : stripPrefix pat (pat +:+ t) = t.
Proof.
  unfold stripPrefix.
  destruct (startsWith (pat +:+ t) pat) eqn:E.
  - apply drop_length_app.
  - assert (startsWith (pat +:+ t) pat = true) by (apply startsWith_app; eauto).
    congruence.
Qed.

Lemma stripPrefix_other (pat s : string) :
  startsWith s pat = false → stripPrefix pat s = s.
Proof. unfold stripPrefix. by intros ->. Qed.

Lemma removeFirst_prefix (pat t : string) : removeFirst pat (pat +:+ t) = t.
Proof.
  assert (startsWith (pat +:+ t) pat = true) as H by (apply startsWith_app; eauto).
  destruct (pat +:+ t) eqn:E; simpl; simpl in H; rewrite H, <- E;
    apply drop_length_app.
Qed.

End JSFacts.

(** ** Runs of the clock monad *)

Section RunFacts.
Context {A B : Type}.

Lemma run_ret (a : A) clock n : (mret a : M A) clock n = (Ok a, n).
Proof. reflexivity. Qed.

Lemma run_lift (r : Res A) clock n : lift r clock n = (r, n).
Proof. reflexivity. Qed.

Lemma run_bind (m : M A) (f : A → M B) clock n :
  (m ≫= f) clock n =
  match m clock n with
  | (Ok a, n') => f a clock n'
  | (Thrown e, n') => (Thrown e, n')
  end.
Proof. reflexivity. Qed.

Lemma run_bind_Ok (m : M A) (f : A → M B) clock n b n' :
  (m ≫= f) clock n = (Ok b, n') →
  ∃ a n1, m clock n = (Ok a, n1) ∧ f a clock n1 = (Ok b, n').
Proof.
  rewrite run_bind. destruct (m clock n) as [[a|e] n1]; [eauto|done].
Qed.

End RunFacts.

Section LoopFacts.
Context {A B : Type}.

(** An invariant of the loop variable holds when the loop ends. *)
Lemma forM_invariant (I : B → Prop) (body : B → A → M B) clock :
  (∀ b x n b' n', I b → body b x clock n = (Ok b', n') → I b') →
  ∀ xs b n r n', I b → forM xs b body clock n = (Ok r, n') → I r.
Proof.
  intros Hbody xs. induction xs as [|x xs IH]; intros b n r n' Hb Hrun.
  - injection Hrun as <- _. done.
  - cbn [forM] in Hrun. apply run_bind_Ok in Hrun as (b' & n1 & Hx & Hrest).
    eapply IH; [|exact Hrest]. eauto.
Qed.

End LoopFacts.

(** ** The sort *)

Section SortFacts.
Context {A : Type} (compareFn : A → A → Z) (key : A → Z).
Hypothesis compare_key : ∀ a b, compareFn a b = key a - key b.

Let le_key (a b : A) : Prop := key a ≤ key b.

Lemma insert_sorted_perm (x : A) (l : list A) : insert_sorted compareFn x l ≡ₚ x :: l.
Proof.
  induction l as [|y l IH]; simpl; [done|].
  destruct (compareFn x y <=? 0); [done|].
  rewrite IH. apply Permutation_swap.
Qed.

Lemma sort_perm (l : list A) : sort compareFn l ≡ₚ l.
Proof.
  induction l as [|x l IH]; simpl; [done|].
  fold (sort compareFn l). by rewrite insert_sorted_perm, IH.
Qed.

Lemma insert_sorted_HdRel (a x : A) (l : list A) :
  le_key a x → HdRel le_key a l → HdRel le_key a (insert_sorted compareFn x l).
Proof.
  intros Hax Hl. destruct l as [|y l]; simpl; [by constructor|].
  destruct (compareFn x y <=? 0); constructor; [done|].
  by inversion Hl.
Qed.

Lemma insert_sorted_Sorted (x : A) (l : list A) :
  Sorted le_key l → Sorted le_key (insert_sorted compareFn x l).
Proof.
  induction 1 as [|y l Hl IH Hhd]; simpl; [by repeat constructor|].
  destruct (Z.leb_spec (compareFn x y) 0) as [Hle|Hgt].
  - constructor; [by constructor|]. constructor. unfold le_key.
    rewrite compare_key in Hle. lia.
  - constructor; [done|]. apply insert_sorted_HdRel; [|done].
    unfold le_key. rewrite compare_key in Hgt. lia.
Qed.

(** The sorted array is in non-decreasing order of the key. *)
Lemma sort_Sorted (l : list A) : Sorted le_key (sort compareFn l).
Proof.
  induction l as [|x l IH]; simpl; [constructor|].
  by apply insert_sorted_Sorted.
Qed.

Lemma sort_Sorted_keys (l : list A) : Sorted Z.le (key <$> sort compareFn l).
Proof. eapply Sorted_fmap; [|apply sort_Sorted]. done. Qed.

(** The sort is stable: the elements of one key keep their order. *)
Lemma insert_sorted_filter (k : Z) (x : A) (l : list A) :
  Sorted le_key l →
  List.filter (λ a, key a =? k) (insert_sorted compareFn x l)
  = List.filter (λ a, key a =? k) (x :: l).
Proof.
  induction 1 as [|y l Hl IH Hhd]; [done|].
  cbn [insert_sorted].
  destruct (Z.leb_spec (compareFn x y) 0) as [Hle|Hgt]; [done|].
  rewrite compare_key in Hgt.
  cbn [List.filter] in *. rewrite IH.
  destruct (Z.eqb_spec (key x) k), (Z.eqb_spec (key y) k); try done. lia.
Qed.

Lemma sort_stable (k : Z) (l : list A) :
  List.filter (λ a, key a =? k) (sort compareFn l) = List.filter (λ a, key a =? k) l.
Proof.
  induction l as [|x l IH]; [done|].
  cbn [sort foldr]. fold (sort compareFn l).
  rewrite insert_sorted_filter by apply sort_Sorted.
  cbn [List.filter]. by rewrite IH.
Qed.

End SortFacts.

(** ** Loops that only append *)

(** A loop body is an appender when it extends its accumulator on the right
    by a text that does not depend on the accumulator. *)
Definition appender {X} (body : string → X → string) : Prop :=
  ∀ r x, body r x = r +:+ body "" x.

Lemma foldl_appender {X} (body : string → X → string) :
  appender body → ∀ l r, foldl body r l = r +:+ foldl body "" l.
Proof.
  intros Hbody l. induction l as [|x l IH]; intros r; simpl.
  - by rewrite JSFacts.app_nil_r.
  - rewrite IH, (IH (body "" x)), (Hbody r x). by rewrite JSFacts.app_assoc.
Qed.

(** Brings a left-nested chain of appends to the right-nested form. *)
Ltac assoc_norm :=
  repeat first [ rewrite JSFacts.app_nil_l
               | rewrite JSFacts.app_nil_r
               | rewrite JSFacts.app_assoc ].

Ltac appender_tac :=
  let r := fresh "r" in let x := fresh "x" in
  intros r x; cbv beta;
  repeat match goal with
         | |- context [if ?c then _ else _] => destruct c
         end;
  assoc_norm; reflexivity.

(** ** Text extraction *)

Module ExtractFacts.
Import JS Extract.

(** The base text of a bubble: the direct text when it holds more than
    white space, else the flattened rich text, else nothing. *)
Definition baseText (bubble : Bubble) : string :=
  if present (λ t, truthy t && truthy (trim t)) (b_text bubble) then
    show (b_text bubble)
  else
    match b_richText bubble with
    | Some (Encodes richTextData) =>
        match rt_root richTextData with
        | Some root =>
            match root_children root with
            | Some children => extractTextFromRichText children
            | None => ""
            end
        | None => ""
        end
    | Some Malformed => ""
    | None => ""
    end.

(** The fenced sections of the attached code blocks, in their order. *)
Definition codeBlocksText (bubble : Bubble) : string :=
  foldl (λ text codeBlock, text +:+ codeBlockSection codeBlock) ""
        (items (b_codeBlocks bubble)).

Lemma extractTextFromBubble_ok (bubble : Bubble) :
  extractTextFromBubble bubble = Ok (baseText bubble +:+ codeBlocksText bubble).
Proof.
  unfold extractTextFromBubble, baseText, codeBlocksText.
  assert (∀ text, match b_codeBlocks bubble with
                  | Some codeBlocks =>
                      foldl (λ text codeBlock, text +:+ codeBlockSection codeBlock)
                            text codeBlocks
                  | None => text
                  end
                  = text +:+ foldl (λ text codeBlock, text +:+ codeBlockSection codeBlock)
                               "" (items (b_codeBlocks bubble))) as Hblocks.
  { intros text. destruct (b_codeBlocks bubble) as [blocks|]; simpl.
    - apply foldl_appender. by intros r x.
    - by rewrite JSFacts.app_nil_r. }
  destruct (b_text bubble) as [t|] eqn:Ht; simpl.
  - destruct (truthy t && truthy (trim t)) eqn:Hdirect.
    + apply andb_true_iff in Hdirect as [Htruthy _].
      destruct (b_richText bubble) as [rich|]; simpl; rewrite ?Htruthy; simpl;
        by rewrite Hblocks.
    + destruct (b_richText bubble) as [[|data]|]; simpl;
        [| destruct (rt_root data) as [[[children|]]|]; simpl |]; by rewrite Hblocks.
  - destruct (b_richText bubble) as [[|data]|]; simpl;
      [| destruct (rt_root data) as [[[children|]]|]; simpl |]; by rewrite Hblocks.
Qed.

(** The fenced sections, one after the other. *)
Lemma codeBlocksText_eq (bubble : Bubble) :
  codeBlocksText bubble
  = foldr (λ codeBlock rest, codeBlockSection codeBlock +:+ rest) ""
          (items (b_codeBlocks bubble)).
Proof.
  unfold codeBlocksText. induction (items (b_codeBlocks bubble)) as [|block blocks IH].
  - done.
  - cbn [foldl foldr]. rewrite <- IH.
    rewrite (foldl_appender (λ text codeBlock, text +:+ codeBlockSection codeBlock))
      by (by intros r x).
    by rewrite JSFacts.app_nil_l.
Qed.

(** On the payloads of the embedding the extraction of the route is the
    extraction of the embedding. *)
Lemma appendCodeBlocks_typed (codeBlocks : list CodeBlock) (text : string) :
  Loose.appendCodeBlocks text (List.map Some codeBlocks)
  = Ok (foldl (λ text codeBlock, text +:+ codeBlockSection codeBlock) text codeBlocks).
Proof.
  revert text. induction codeBlocks as [|block blocks IH]; intros text; [done|].
  cbn [List.map Loose.appendCodeBlocks foldl]. apply IH.
Qed.

Lemma extractTextFromBubble_typed (bubble : Bubble) :
  Loose.extractTextFromBubble (Loose.typed bubble) = extractTextFromBubble bubble.
Proof.
  unfold Loose.extractTextFromBubble, extractTextFromBubble, Loose.typed.
  cbn [Loose.lb_text Loose.lb_richText Loose.lb_codeBlocks].
  assert (∀ text,
             match option_map (List.map Some) (b_codeBlocks bubble) with
             | Some codeBlocks => Loose.appendCodeBlocks text codeBlocks
             | None => Ok text
             end
             = Ok match b_codeBlocks bubble with
                  | Some codeBlocks =>
                      foldl (λ text codeBlock, text +:+ codeBlockSection codeBlock)
                            text codeBlocks
                  | None => text
                  end) as Hblocks.
  { intros text. destruct (b_codeBlocks bubble) as [blocks|]; [|done].
    apply appendCodeBlocks_typed. }
  destruct (b_text bubble) as [t|]; cbn [option_map present mbind Res_bind].
  - destruct (truthy t && truthy (trim t)); cbn [mbind Res_bind];
      destruct (b_richText bubble) as [rich|]; cbn [mbind Res_bind];
      try (destruct (negb (truthy _)));
      try (destruct (try_catch _ _) as [text|e]); cbn [mbind Res_bind];
      by rewrite ?Hblocks.
  - destruct (b_richText bubble) as [rich|]; cbn [mbind Res_bind];
      try (destruct (negb (truthy _)));
      try (destruct (try_catch _ _) as [text|e]); cbn [mbind Res_bind];
      by rewrite ?Hblocks.
Qed.

(** The flattening, node by node: a text leaf gives its text, a code node
    gives its flattened children between fences, any other node gives its
    flattened children. *)
Lemma appended_eq type text children :
  appended (mkRichNode type text children)
  = if bool_decide (type = Some "text") && present truthy text then show text
    else match children with
         | Some cs =>
             if bool_decide (type = Some "code")
             then (LF +:+ fence +:+ LF) +:+ extractTextFromRichText cs
                    +:+ (LF +:+ fence +:+ LF)
             else extractTextFromRichText cs
         | None => ""
         end.
Proof.
  assert (∀ cs acc,
             (fix loop (text0 : string) (children0 : list RichNode) {struct children0}
                : string :=
                match children0 with
                | [] => text0
                | c :: cs0 => loop (text0 +:+ appended c) cs0
                end) acc cs
             = foldl (λ text0 child, text0 +:+ appended child) acc cs) as Hloop.
  { induction cs as [|c cs IH]; intros acc; [done|].
    exact (IH (acc +:+ appended c)). }
  cbn [appended]. unfold extractTextFromRichText.
  destruct (bool_decide (type = Some "text") && present truthy text); [done|].
  destruct children as [cs|]; [|done].
  by rewrite Hloop.
Qed.

Lemma extractTextFromRichText_cons child rest :
  extractTextFromRichText (child :: rest)
  = appended child +:+ extractTextFromRichText rest.
Proof.
  unfold extractTextFromRichText. cbn [foldl].
  rewrite foldl_appender by (by intros r x). by rewrite JSFacts.app_nil_l.
Qed.

End ExtractFacts.

(** ** The sections of a formatted tool action *)

Module FormatFacts.
Import JS Format.

(** Each section is a function of the one property (for the tool section:
    the three properties) it reports. *)

Definition codeChangesSection (newModelDiffWrtV0 : option (list ModelDiff)) : string :=
  foldl (λ result diff,
           if nonEmpty (md_modified diff)
           then result +:+ LF +:+ LF +:+ "**Code Changes:**" +:+ LF +:+ fence +:+ LF
                       +:+ join LF (items (md_modified diff)) +:+ LF +:+ fence
           else result)
        "" (items newModelDiffWrtV0).

Definition filePathSection (filePath : option string) : string :=
  if present truthy filePath
  then LF +:+ LF +:+ "**File:** " +:+ show filePath else "".

Definition commandSection (command : option string) : string :=
  if present truthy command
  then LF +:+ LF +:+ "**Command:** `" +:+ show command +:+ "`" else "".

Definition searchResultsSection (searchResults : option string) : string :=
  if present truthy searchResults
  then LF +:+ LF +:+ "**Search Results:**" +:+ LF +:+ show searchResults else "".

Definition webResultsSection (webResults : option string) : string :=
  if present truthy webResults
  then LF +:+ LF +:+ "**Web Search:**" +:+ LF +:+ show webResults else "".

(** The tool section: the tool name, then what the parameters give, then
    what the result gives; a part that cannot be decoded gives nothing. *)
Definition parametersPart (parameters : option (StringOr ToolParams)) : string :=
  match parameters with
  | Some parameters =>
      match parse_if_string parameters with
      | Ok params => appendParameters "" params
      | Thrown _ => ""
      end
  | None => ""
  end.

Definition resultPart (result : option (StringOr ToolResult)) : string :=
  match result with
  | Some result =>
      match parse_if_string result with
      | Ok resultData => appendResult "" resultData
      | Thrown _ => ""
      end
  | None => ""
  end.

Definition toolSection (toolName : option string)
    (parameters : option (StringOr ToolParams))
    (result : option (StringOr ToolResult)) : string :=
  if present truthy toolName
  then (LF +:+ LF +:+ "**Tool Action:** " +:+ show toolName)
         +:+ parametersPart parameters +:+ resultPart result
  else "".

Definition actionsTakenSection (actionsTaken : option (list string)) : string :=
  if nonEmpty actionsTaken
  then LF +:+ LF +:+ "**Actions Taken:** " +:+ join ", " (items actionsTaken) else "".

Definition filesModifiedSection (filesModified : option (list string)) : string :=
  if nonEmpty filesModified
  then (LF +:+ LF +:+ "**Files Modified:**")
         +:+ foldl (λ result file, result +:+ LF +:+ "- " +:+ file) ""
               (items filesModified)
  else "".

Definition gitStatusSection (gitStatus : option string) : string :=
  if present truthy gitStatus
  then LF +:+ LF +:+ "**Git Status:**" +:+ LF +:+ fence +:+ LF
          +:+ show gitStatus +:+ LF +:+ fence
  else "".

Definition directoryListedSection (directoryListed : option string) : string :=
  if present truthy directoryListed
  then LF +:+ LF +:+ "**Directory Listed:** " +:+ show directoryListed else "".

Definition webSearchResultsSection (webSearchResults : option (list WebSearchResult))
  : string :=
  match webSearchResults with
  | Some webSearchResults =>
      (LF +:+ LF +:+ "**Web Search Results:**")
        +:+ foldl (λ result searchResult,
                     if present truthy (ws_title searchResult)
                     then result +:+ LF +:+ "- " +:+ show (ws_title searchResult)
                     else result)
              "" webSearchResults
  | None => ""
  end.

(** The sections of an action, in the order in which the formatter emits
    them. *)
Definition sections (action : Action) : list string :=
  [ codeChangesSection (act_newModelDiffWrtV0 action);
    filePathSection (act_filePath action);
    commandSection (act_command action);
    searchResultsSection (act_searchResults action);
    webResultsSection (act_webResults action);
    toolSection (act_toolName action) (act_parameters action) (act_result action);
    actionsTakenSection (act_actionsTaken action);
    filesModifiedSection (act_filesModified action);
    gitStatusSection (act_gitStatus action);
    directoryListedSection (act_directoryListed action);
    webSearchResultsSection (act_webSearchResults action) ].

Definition formatted (action : Action) : string := join "" (sections action).

Lemma appendParameters_app (result : string) (params : ToolParams) :
  appendParameters result params = result +:+ appendParameters "" params.
Proof.
  unfold appendParameters.
  repeat match goal with
         | |- context [if ?c then _ else _] => destruct c
         end; assoc_norm; reflexivity.
Qed.

Lemma appendResult_app (result : string) (resultData : ToolResult) :
  appendResult result resultData = result +:+ appendResult "" resultData.
Proof.
  unfold appendResult.
  set (files := foldl _). set (results := foldl _).
  assert (∀ r l, files r l = r +:+ files "" l) as Hfiles.
  { intros r l. apply foldl_appender. appender_tac. }
  assert (∀ r l, results r l = r +:+ results "" l) as Hresults.
  { intros r l. apply foldl_appender. appender_tac. }
  destruct (present truthy (tr_output resultData)),
           (present truthy (tr_contents resultData)),
           (tr_exitCodeV2 resultData),
           (nonEmpty (tr_files resultData)),
           (nonEmpty (tr_results resultData));
    cbv zeta;
    repeat (rewrite (Hfiles (_ +:+ _)) || rewrite (Hresults (_ +:+ _)));
    assoc_norm; reflexivity.
Qed.

(** Each block extends [result] by its section. *)

Lemma handleCodeChanges_app action result :
  handleCodeChanges action result
  = result +:+ codeChangesSection (act_newModelDiffWrtV0 action).
Proof.
  unfold handleCodeChanges, codeChangesSection.
  destruct (act_newModelDiffWrtV0 action) as [[|diff diffs]|]; cbn [nonEmpty items default].
  - by rewrite JSFacts.app_nil_r.
  - apply foldl_appender. appender_tac.
  - by rewrite JSFacts.app_nil_r.
Qed.

Lemma handleFilePath_app action result :
  handleFilePath action result = result +:+ filePathSection (act_filePath action).
Proof.
  unfold handleFilePath, filePathSection.
  destruct (present truthy _); by assoc_norm.
Qed.

Lemma handleCommand_app action result :
  handleCommand action result = result +:+ commandSection (act_command action).
Proof.
  unfold handleCommand, commandSection.
  destruct (present truthy _); by assoc_norm.
Qed.

Lemma handleSearchResults_app action result :
  handleSearchResults action result
  = result +:+ searchResultsSection (act_searchResults action).
Proof.
  unfold handleSearchResults, searchResultsSection.
  destruct (present truthy _); by assoc_norm.
Qed.

Lemma handleWebResults_app action result :
  handleWebResults action result = result +:+ webResultsSection (act_webResults action).
Proof.
  unfold handleWebResults, webResultsSection.
  destruct (present truthy _); by assoc_norm.
Qed.

(** The tool block never throws: what [JSON.parse] throws on the parameters
    or on the result is caught, and the block goes on. *)
Lemma handleTool_app action result :
  handleTool action result
  = Ok (result +:+ toolSection (act_toolName action) (act_parameters action)
                     (act_result action)).
Proof.
  unfold handleTool, toolSection, parametersPart, resultPart.
  destruct (present truthy (act_toolName action)); [|by rewrite JSFacts.app_nil_r].
  cbv zeta.
  destruct (act_parameters action) as [parameters|];
    [destruct (parse_if_string parameters) as [params|e]|];
    (destruct (act_result action) as [result'|];
     [destruct (parse_if_string result') as [resultData|e']|]);
    cbn [try_catch mbind Res_bind];
    try rewrite (appendParameters_app (_ +:+ _));
    try rewrite (appendResult_app (_ +:+ _));
    assoc_norm; reflexivity.
Qed.

Lemma handleActionsTaken_app action result :
  handleActionsTaken action result
  = result +:+ actionsTakenSection (act_actionsTaken action).
Proof.
  unfold handleActionsTaken, actionsTakenSection.
  destruct (nonEmpty _); by assoc_norm.
Qed.

Lemma handleFilesModified_app action result :
  handleFilesModified action result
  = result +:+ filesModifiedSection (act_filesModified action).
Proof.
  unfold handleFilesModified, filesModifiedSection.
  destruct (nonEmpty _); [|by assoc_norm].
  rewrite foldl_appender by appender_tac. by assoc_norm.
Qed.

Lemma handleGitStatus_app action result :
  handleGitStatus action result = result +:+ gitStatusSection (act_gitStatus action).
Proof.
  unfold handleGitStatus, gitStatusSection.
  destruct (present truthy _); by assoc_norm.
Qed.

Lemma handleDirectoryListed_app action result :
  handleDirectoryListed action result
  = result +:+ directoryListedSection (act_directoryListed action).
Proof.
  unfold handleDirectoryListed, directoryListedSection.
  destruct (present truthy _); by assoc_norm.
Qed.

Lemma handleWebSearchResults_app action result :
  handleWebSearchResults action result
  = result +:+ webSearchResultsSection (act_webSearchResults action).
Proof.
  unfold handleWebSearchResults, webSearchResultsSection.
  destruct (act_webSearchResults action) as [l|]; [|by assoc_norm].
  rewrite foldl_appender by appender_tac. by assoc_norm.
Qed.

(** The formatter never throws, and its output is the concatenation of the
    sections in their fixed order. *)
Lemma formatToolAction_ok (action : Action) :
  formatToolAction (Some action) = Ok (formatted action).
Proof.
  unfold formatToolAction. cbv zeta.
  rewrite handleTool_app. cbn [mbind Res_bind].
  rewrite handleWebSearchResults_app, handleDirectoryListed_app,
    handleGitStatus_app, handleFilesModified_app, handleActionsTaken_app,
    handleWebResults_app, handleSearchResults_app, handleCommand_app,
    handleFilePath_app, handleCodeChanges_app.
  unfold formatted, sections. cbn [join].
  by assoc_norm.
Qed.

End FormatFacts.

(** ** The conversation assembler, run by run *)

Module TabsFacts.
Import JS Tabs.

(** The turns a loop pushes: each element gives at most one turn and may
    take a reading of the clock. *)
Fixpoint collect {X} (turn : nat → X → option ChatBubble * nat) (n : nat) (xs : list X)
  : list ChatBubble * nat :=
  match xs with
  | [] => ([], n)
  | x :: rest =>
      let '(o, n1) := turn n x in
      let '(l, n2) := collect turn n1 rest in
      (option_list o ++ l, n2)
  end.

Lemma forM_collect {X} (body : list ChatBubble → X → M (list ChatBubble))
    (turn : nat → X → option ChatBubble * nat) clock :
  (∀ acc x n, body acc x clock n = (Ok (acc ++ option_list (turn n x).1), (turn n x).2)) →
  ∀ xs acc n,
    forM xs acc body clock n
    = (Ok (acc ++ (collect turn n xs).1), (collect turn n xs).2).
Proof.
  intros Hbody xs. induction xs as [|x xs IH]; intros acc n.
  - cbn. by rewrite app_nil_r.
  - cbn [forM collect]. rewrite run_bind, Hbody, IH.
    destruct (turn n x) as [o n1]. cbn [fst snd].
    destruct (collect turn n1 xs) as [l n2].
    cbn [fst snd]. by rewrite <- app_assoc.
Qed.

Lemma collect_Forall {X} (P : ChatBubble → Prop)
    (turn : nat → X → option ChatBubble * nat) :
  (∀ n x b, (turn n x).1 = Some b → P b) →
  ∀ xs n, Forall P (collect turn n xs).1.
Proof.
  intros Hturn xs. induction xs as [|x xs IH]; intros n; cbn [collect].
  - constructor.
  - destruct (turn n x) as [o n1] eqn:E. specialize (IH n1).
    destruct (collect turn n1 xs) as [l n2]. cbn in *.
    apply Forall_app. split; [|done].
    destruct o as [b|]; cbn; [|constructor].
    constructor; [|constructor]. apply (Hturn n x). by rewrite E.
Qed.

(** The first line of a text that holds more than white space. *)
Definition firstNonEmptyLine (text : string) : option string :=
  head (List.filter (λ line, truthy (trim line)) (split "010" text)).

(** The title made of a line: its first 100 characters, and the ellipsis
    when these are 100. *)
Definition titleOfLine (line : string) : string :=
  if bool_decide (String.length (take 100 line) = 100%nat)
  then take 100 line +:+ "..." else take 100 line.

Lemma resolveTitle_named name composerId bubbles :
  present truthy name = true → resolveTitle name composerId bubbles = show name.
Proof.
  unfold resolveTitle. intros Hname. rewrite Hname. cbn [negb].
  by destruct name as [[|c s]|].
Qed.

Lemma resolveTitle_first name composerId first others line :
  present truthy name = false →
  firstNonEmptyLine (cb_text first) = Some line →
  resolveTitle name composerId (first :: others) = titleOfLine line.
Proof.
  unfold resolveTitle, firstNonEmptyLine, titleOfLine. intros -> Hline. cbn [negb].
  destruct (cb_text first) as [|c text] eqn:Htext; [done|].
  cbn [truthy].
  destruct (List.filter _ _) as [|firstLine lines]; [done|].
  by injection Hline as ->.
Qed.

Lemma resolveTitle_placeholder name composerId bubbles :
  present truthy name = false →
  (bubbles = [] ∨ ∃ first others, bubbles = first :: others
                                  ∧ firstNonEmptyLine (cb_text first) = None) →
  resolveTitle name composerId bubbles = "Conversation " +:+ take 8 composerId.
Proof.
  unfold resolveTitle, firstNonEmptyLine. intros Hname Hno. rewrite Hname. cbn [negb].
  assert (show_or name ("Conversation " +:+ take 8 composerId)
          = "Conversation " +:+ take 8 composerId) as ->.
  { by destruct name as [[|c s]|]. }
  destruct Hno as [->|(first & others & -> & Hline)]; [done|].
  destruct (truthy (cb_text first)); [|done].
  by destruct (List.filter _ _).
Qed.

Lemma take_all (n : nat) (s : string) : (String.length s ≤ n)%nat → take n s = s.
Proof.
  revert s. induction n as [|n IH]; intros [|c s] Hlen; cbn in *; try done; [lia|].
  rewrite IH; [done|lia].
Qed.

Lemma titleOfLine_short line : (String.length line < 100)%nat → titleOfLine line = line.
Proof.
  intros Hlen. unfold titleOfLine. rewrite take_all by lia.
  rewrite bool_decide_eq_false_2; [done|lia].
Qed.

Lemma titleOfLine_long line :
  (100 ≤ String.length line)%nat → titleOfLine line = take 100 line +:+ "...".
Proof.
  intros Hlen. unfold titleOfLine.
  rewrite bool_decide_eq_true_2; [done|]. rewrite JSFacts.length_take. lia.
Qed.

(** A text that is not blank has a line that is not blank. *)
Lemma blank_split text :
  forallb JSFacts.blank (split "010" text) = JSFacts.blank text.
Proof.
  induction text as [|c text IH]; [done|].
  cbn [split]. destruct (Ascii.eqb_spec c "010") as [->|Hc].
  - cbn [forallb JSFacts.blank]. by rewrite IH.
  - destruct (split "010" text) as [|w ws]; cbn [forallb JSFacts.blank] in *.
    + by rewrite andb_true_r, <- IH.
    + by rewrite <- IH, andb_assoc.
Qed.

Lemma firstNonEmptyLine_Some text :
  truthy (trim text) = true → ∃ line, firstNonEmptyLine text = Some line.
Proof.
  rewrite JSFacts.truthy_trim, <- blank_split. unfold firstNonEmptyLine.
  induction (split "010" text) as [|w ws IH]; [done|].
  cbn [forallb List.filter]. rewrite JSFacts.truthy_trim.
  destruct (JSFacts.blank w); cbn [negb andb]; [exact IH|]. eauto.
Qed.

Section Assembler.
Variable bubbleMap : gmap string Bubble.
Variable codeBlockDiffMap : gmap string (list Action).
Variable messageRequestContextMap : gmap string (list RequestContext).
Variable clock : nat → Z.

(** The sections the request contexts of a bubble add to its text. *)
Definition contextTextOf (composerId bubbleId : string) : string :=
  foldl (λ contextText context,
           if bool_decide (rc_bubbleId context = Some bubbleId)
           then appendContext contextText context
           else contextText)
        "" (default [] (messageRequestContextMap !! composerId)).

(** The final text of the turn of a bubble. *)
Definition turnText (composerId bubbleId : string) (bubble : Bubble) : string :=
  (ExtractFacts.baseText bubble +:+ ExtractFacts.codeBlocksText bubble)
    +:+ contextTextOf composerId bubbleId.

Lemma fullTextOf_ok composerId bubbleId bubble :
  fullTextOf messageRequestContextMap composerId bubbleId bubble
  = Ok (turnText composerId bubbleId bubble).
Proof.
  unfold fullTextOf. by rewrite ExtractFacts.extractTextFromBubble_ok.
Qed.

(** The time stamp given to the turn of a bubble at the [n]-th reading. *)
Definition stampOf (bubble : Bubble) (n : nat) : Z * nat :=
  match b_timestamp bubble with
  | Some t => if truthyZ t then (t, n) else (clock n, S n)
  | None => (clock n, S n)
  end.

(** The turn a header gives, if any. *)
Definition headerTurn (composerId : string) (n : nat) (header : Header)
  : option ChatBubble * nat :=
  match bubbleMap !! h_bubbleId header with
  | Some bubble =>
      let fullText := turnText composerId (h_bubbleId header) bubble in
      if truthy (trim fullText) then
        (Some {| cb_type := (if bool_decide (h_type header = Some 1) then user else ai);
                 cb_text := fullText;
                 cb_timestamp := (stampOf bubble n).1 |},
         (stampOf bubble n).2)
      else (None, n)
  | None => (None, n)
  end.

Lemma headerStep_run composerId bubbles header n :
  headerStep bubbleMap messageRequestContextMap composerId bubbles header clock n
  = (Ok (bubbles ++ option_list (headerTurn composerId n header).1),
     (headerTurn composerId n header).2).
Proof.
  unfold headerStep, headerTurn.
  destruct (bubbleMap !! h_bubbleId header) as [bubble|]; cbn [fst snd option_list].
  - rewrite run_bind, run_lift, fullTextOf_ok.
    destruct (truthy (trim _)); cbn [fst snd option_list].
    + rewrite run_bind. unfold stampOf.
      destruct (b_timestamp bubble) as [t|]; [destruct (truthyZ t)|]; reflexivity.
    + by rewrite run_ret, app_nil_r.
  - by rewrite run_ret, app_nil_r.
Qed.

(** The turn a code-block diff gives, if any. *)
Definition diffTurn (n : nat) (diff : Action) : option ChatBubble * nat :=
  let diffText := FormatFacts.formatted diff in
  if truthy (trim diffText) then
    (Some {| cb_type := ai;
             cb_text := "**Tool Action:**" +:+ diffText;
             cb_timestamp := clock n |}, S n)
  else (None, n).

Lemma diffStep_run bubbles diff n :
  diffStep bubbles diff clock n
  = (Ok (bubbles ++ option_list (diffTurn n diff).1), (diffTurn n diff).2).
Proof.
  unfold diffStep, diffTurn.
  rewrite run_bind, run_lift, FormatFacts.formatToolAction_ok.
  destruct (truthy (trim _)); cbn [fst snd option_list].
  - reflexivity.
  - by rewrite run_ret, app_nil_r.
Qed.

(** The turns of the answer: the text and the role of each sorted turn are
    kept; a time stamp of zero is replaced by a reading of the clock. *)
Fixpoint outputOf (n : nat) (bubbles : list ChatBubble) : list ChatBubble * nat :=
  match bubbles with
  | [] => ([], n)
  | bubble :: rest =>
      let '(t, n1) := if truthyZ (cb_timestamp bubble)
                      then (cb_timestamp bubble, n) else (clock n, S n) in
      let '(l, n2) := outputOf n1 rest in
      ({| cb_type := cb_type bubble; cb_text := cb_text bubble; cb_timestamp := t |}
         :: l, n2)
  end.

Lemma outputBubble_one bubble n :
  outputBubble bubble clock n
  = (Ok {| cb_type := cb_type bubble; cb_text := cb_text bubble;
           cb_timestamp := (if truthyZ (cb_timestamp bubble)
                            then cb_timestamp bubble else clock n) |},
     if truthyZ (cb_timestamp bubble) then n else S n).
Proof.
  unfold outputBubble. rewrite run_bind, JSFacts.or_empty.
  by destruct (truthyZ (cb_timestamp bubble)).
Qed.

Lemma outputBubble_run bubbles n :
  mapM_ outputBubble bubbles clock n
  = (Ok (outputOf n bubbles).1, (outputOf n bubbles).2).
Proof.
  revert n. induction bubbles as [|bubble rest IH]; intros n; [done|].
  cbn [mapM_ outputOf]. rewrite run_bind, outputBubble_one, run_bind, IH.
  destruct (truthyZ (cb_timestamp bubble)).
  - by destruct (outputOf n rest) as [l n2].
  - by destruct (outputOf (S n) rest) as [l n2].
Qed.

Lemma outputOf_texts bubbles n :
  cb_text <$> (outputOf n bubbles).1 = cb_text <$> bubbles.
Proof.
  revert n. induction bubbles as [|bubble rest IH]; intros n; [done|].
  cbn [outputOf].
  destruct (if truthyZ (cb_timestamp bubble) then _ else _) as [t n1].
  specialize (IH n1). destruct (outputOf n1 rest) as [l n2].
  cbn in *. by rewrite IH.
Qed.

(** Turns that carry a time stamp other than zero go out unchanged, and no
    reading is taken. *)
Lemma outputOf_stamped bubbles n :
  Forall (λ bubble, cb_timestamp bubble ≠ 0) bubbles →
  outputOf n bubbles = (bubbles, n).
Proof.
  induction 1 as [|bubble rest Hb _ IH]; [done|].
  cbn [outputOf]. unfold truthyZ.
  destruct (Z.eqb_spec (cb_timestamp bubble) 0) as [|_]; [done|].
  cbn [negb]. rewrite IH. by destruct bubble.
Qed.

(** The assembler, in one equation. *)
Definition headersOf (composerData : ComposerData) : list Header :=
  default [] (cd_fullConversationHeadersOnly composerData).

Definition diffsOf (composerId : string) : list Action :=
  default [] (codeBlockDiffMap !! composerId).

Definition tabOf (composerId : string) (composerData : ComposerData)
    (headerTurns : list ChatBubble) (n1 : nat) : ChatTab * nat :=
  let '(diffTurns, n2) := collect diffTurn n1 (diffsOf composerId) in
  let '(bubbles, n3) := outputOf n2 (sort byTimestamp (headerTurns ++ diffTurns)) in
  ({| tab_id := composerId;
      tab_title := resolveTitle (cd_name composerData) composerId headerTurns;
      tab_timestamp :=
        getTime (if present truthyZ (cd_lastUpdatedAt composerData)
                 then cd_lastUpdatedAt composerData
                 else cd_createdAt composerData);
      tab_bubbles := bubbles;
      tab_codeBlockDiffs := diffsOf composerId |}, n3).

Lemma assembleConversation_run composerId composerData n :
  assembleConversation bubbleMap codeBlockDiffMap messageRequestContextMap
    composerId composerData clock n
  = match collect (headerTurn composerId) n (headersOf composerData) with
    | ([], n1) => (Ok None, n1)
    | (headerTurns, n1) =>
        (Ok (Some (tabOf composerId composerData headerTurns n1).1),
         (tabOf composerId composerData headerTurns n1).2)
    end.
Proof.
  unfold assembleConversation. rewrite run_bind.
  rewrite (forM_collect _ (headerTurn composerId))
    by (intros; apply headerStep_run).
  fold (headersOf composerData). cbn [app].
  destruct (collect (headerTurn composerId) n (headersOf composerData))
    as [[|first others] n1]; cbn [fst snd]; [done|].
  cbv zeta. rewrite run_bind.
  rewrite (forM_collect _ diffTurn) by (intros; apply diffStep_run).
  rewrite run_bind, outputBubble_run. unfold tabOf. fold (diffsOf composerId).
  destruct (collect diffTurn n1 (diffsOf composerId)) as [diffTurns n2].
  cbn [fst snd].
  by destruct (outputOf n2 _) as [bubbles n3].
Qed.

(** The turns pushed by the two loops. *)
Definition nonblank (bubble : ChatBubble) : Prop :=
  truthy (trim (cb_text bubble)) = true.

Lemma headerTurn_nonblank composerId n header bubble :
  (headerTurn composerId n header).1 = Some bubble → nonblank bubble.
Proof.
  unfold headerTurn, nonblank.
  destruct (bubbleMap !! h_bubbleId header) as [b|]; [|done].
  destruct (truthy (trim (turnText _ _ _))) eqn:E; [|done].
  cbn. intros [= <-]. exact E.
Qed.

Lemma diffTurn_nonblank n diff bubble :
  (diffTurn n diff).1 = Some bubble → nonblank bubble.
Proof.
  unfold diffTurn, nonblank.
  destruct (truthy (trim (FormatFacts.formatted diff))); [|done].
  cbn. intros [= <-]. cbn [cb_text].
  rewrite JSFacts.truthy_trim. reflexivity.
Qed.

Lemma headerTurn_stamped composerId n header bubble :
  (∀ k, clock k ≠ 0) →
  (headerTurn composerId n header).1 = Some bubble → cb_timestamp bubble ≠ 0.
Proof.
  intros Hclock. unfold headerTurn, stampOf.
  destruct (bubbleMap !! h_bubbleId header) as [b|]; [|done].
  destruct (truthy (trim _)); [|done].
  cbn. intros [= <-]. cbn [cb_timestamp].
  destruct (b_timestamp b) as [t|]; [|by cbn].
  unfold truthyZ. destruct (Z.eqb_spec t 0); cbn; [done|done].
Qed.

Lemma diffTurn_stamped n diff bubble :
  (∀ k, clock k ≠ 0) → (diffTurn n diff).1 = Some bubble → cb_timestamp bubble ≠ 0.
Proof.
  intros Hclock. unfold diffTurn.
  destruct (truthy (trim _)); [|done].
  cbn. intros [= <-]. by cbn.
Qed.

Lemma byTimestamp_key (a b : ChatBubble) :
  byTimestamp a b = cb_timestamp a - cb_timestamp b.
Proof.
  unfold byTimestamp, or0, truthyZ.
  destruct (Z.eqb_spec (cb_timestamp a) 0) as [->|];
    destruct (Z.eqb_spec (cb_timestamp b) 0) as [->|]; cbn; lia.
Qed.

(** What the assembler answers, and which turns it holds: the turns of
    the headers, then the turns of the diffs, sorted, and sent through
    [outputOf]. *)
Lemma assembleConversation_Some composerId composerData n tab :
  (assembleConversation bubbleMap codeBlockDiffMap messageRequestContextMap
     composerId composerData clock n).1 = Ok (Some tab) →
  ∃ headerTurns n1 diffTurns n2,
    collect (headerTurn composerId) n (headersOf composerData) = (headerTurns, n1)
    ∧ headerTurns ≠ []
    ∧ collect diffTurn n1 (diffsOf composerId) = (diffTurns, n2)
    ∧ tab_bubbles tab
      = (outputOf n2 (sort byTimestamp (headerTurns ++ diffTurns))).1
    ∧ tab_title tab = resolveTitle (cd_name composerData) composerId headerTurns.
Proof.
  rewrite assembleConversation_run.
  destruct (collect (headerTurn composerId) n (headersOf composerData))
    as [[|first others] n1] eqn:Hh; [done|].
  cbn [fst]. intros [= <-]. unfold tabOf.
  destruct (collect diffTurn n1 (diffsOf composerId)) as [diffTurns n2] eqn:Hd.
  exists (first :: others), n1, diffTurns, n2.
  destruct (outputOf n2 _) as [bubbles n3] eqn:Ho. by cbn.
Qed.

Lemma assembled_nonblank composerId composerData n tab :
  (assembleConversation bubbleMap codeBlockDiffMap messageRequestContextMap
     composerId composerData clock n).1 = Ok (Some tab) →
  Forall nonblank (tab_bubbles tab).
Proof.
  intros (hs & n1 & ds & n2 & Hh & _ & Hd & -> & _)%assembleConversation_Some.
  assert (Forall nonblank (sort byTimestamp (hs ++ ds))) as Hsorted.
  { rewrite (sort_perm byTimestamp). apply Forall_app. split.
    - replace hs with (collect (headerTurn composerId) n (headersOf composerData)).1
        by (by rewrite Hh).
      apply collect_Forall. intros. by eapply headerTurn_nonblank.
    - replace ds with (collect diffTurn n1 (diffsOf composerId)).1 by (by rewrite Hd).
      apply collect_Forall. intros. by eapply diffTurn_nonblank. }
  apply (Forall_fmap cb_text (λ text, truthy (trim text) = true)).
  rewrite outputOf_texts.
  by apply (Forall_fmap cb_text (λ text, truthy (trim text) = true)).
Qed.

Lemma assembled_sorted composerId composerData n tab :
  (∀ k, clock k ≠ 0) →
  (assembleConversation bubbleMap codeBlockDiffMap messageRequestContextMap
     composerId composerData clock n).1 = Ok (Some tab) →
  Sorted Z.le (cb_timestamp <$> tab_bubbles tab).
Proof.
  intros Hclock (hs & n1 & ds & n2 & Hh & _ & Hd & -> & _)%assembleConversation_Some.
  rewrite outputOf_stamped.
  - cbn [fst]. apply sort_Sorted_keys, byTimestamp_key.
  - rewrite (sort_perm byTimestamp). apply Forall_app. split.
    + replace hs with (collect (headerTurn composerId) n (headersOf composerData)).1
        by (by rewrite Hh).
      apply collect_Forall. intros. by eapply headerTurn_stamped.
    + replace ds with (collect diffTurn n1 (diffsOf composerId)).1 by (by rewrite Hd).
      apply collect_Forall. intros. by eapply diffTurn_stamped.
Qed.

(** The texts of the turns, whatever the clock reads: the final text of each
    header whose bubble exists and whose final text is not blank, and the
    labelled text of each diff whose formatted text is not blank. *)
Definition keptText (composerId : string) (header : Header) : option string :=
  match bubbleMap !! h_bubbleId header with
  | Some bubble =>
      let fullText := turnText composerId (h_bubbleId header) bubble in
      if truthy (trim fullText) then Some fullText else None
  | None => None
  end.

Definition diffText (diff : Action) : option string :=
  let diffText := FormatFacts.formatted diff in
  if truthy (trim diffText) then Some ("**Tool Action:**" +:+ diffText) else None.

Lemma headerTurn_texts composerId n headers :
  cb_text <$> (collect (headerTurn composerId) n headers).1
  = omap (keptText composerId) headers.
Proof.
  revert n. induction headers as [|header headers IH]; intros n; [done|].
  cbn [collect omap list_omap].
  destruct (headerTurn composerId n header) as [o n1] eqn:Ho.
  specialize (IH n1). destruct (collect _ n1 headers) as [l n2].
  cbn [fst] in *. rewrite fmap_app, IH. fold (omap (keptText composerId) headers).
  unfold headerTurn, keptText in *.
  destruct (bubbleMap !! h_bubbleId header) as [bubble|].
  - cbv zeta in *. destruct (truthy (trim _)); by injection Ho as <- _.
  - by injection Ho as <- _.
Qed.

Lemma diffTurn_texts n diffs :
  cb_text <$> (collect diffTurn n diffs).1 = omap diffText diffs.
Proof.
  revert n. induction diffs as [|diff diffs IH]; intros n; [done|].
  cbn [collect omap list_omap].
  destruct (diffTurn n diff) as [o n1] eqn:Ho.
  specialize (IH n1). destruct (collect _ n1 diffs) as [l n2].
  cbn [fst] in *. rewrite fmap_app, IH. fold (omap diffText diffs).
  unfold diffTurn, diffText in *. cbv zeta in *.
  destruct (truthy (trim _)); by injection Ho as <- _.
Qed.

Lemma assembled_texts composerId composerData n tab :
  (assembleConversation bubbleMap codeBlockDiffMap messageRequestContextMap
     composerId composerData clock n).1 = Ok (Some tab) →
  cb_text <$> tab_bubbles tab
  ≡ₚ omap (keptText composerId) (headersOf composerData)
     ++ omap diffText (diffsOf composerId).
Proof.
  intros (hs & n1 & ds & n2 & Hh & _ & Hd & -> & _)%assembleConversation_Some.
  rewrite outputOf_texts, (sort_perm byTimestamp), fmap_app.
  rewrite <- (headerTurn_texts composerId n), <- (diffTurn_texts n1).
  by rewrite Hh, Hd.
Qed.

(** The title is computed from the turns of the headers, in the order of
    the headers. *)
Lemma assembled_title composerId composerData n tab :
  (assembleConversation bubbleMap codeBlockDiffMap messageRequestContextMap
     composerId composerData clock n).1 = Ok (Some tab) →
  tab_title tab
  = resolveTitle (cd_name composerData) composerId
      (collect (headerTurn composerId) n (headersOf composerData)).1.
Proof.
  intros (hs & n1 & ds & n2 & Hh & _ & Hd & _ & ->)%assembleConversation_Some.
  by rewrite Hh.
Qed.

(** No conversation comes out when no header gives a turn, whatever diffs
    are recorded; no reading of the clock is taken. *)
Lemma assembled_None composerId composerData n :
  omap (keptText composerId) (headersOf composerData) = [] →
  assembleConversation bubbleMap codeBlockDiffMap messageRequestContextMap
    composerId composerData clock n = (Ok None, n).
Proof.
  intros Hkept. rewrite assembleConversation_run.
  assert (∀ headers, omap (keptText composerId) headers = [] →
                     collect (headerTurn composerId) n headers = ([], n)) as Hnone.
  { clear. induction headers as [|header headers IH]; [done|].
    cbn [omap list_omap collect]. fold (omap (keptText composerId) headers).
    unfold keptText at 1, headerTurn at 1.
    destruct (bubbleMap !! h_bubbleId header) as [bubble|].
    - cbv zeta. destruct (truthy (trim _)); [done|].
      intros H. by rewrite (IH H).
    - intros H. by rewrite (IH H). }
  by rewrite Hnone.
Qed.

End Assembler.

(** The route answers whatever the storage holds: what is thrown inside the
    handler is caught. *)
Lemma GET_never_throws fs params_id clock n :
  ∃ response n', GET fs params_id clock n = (Ok response, n').
Proof.
  unfold GET, try_catchM.
  match goal with
  | |- context [match ?body clock n with _ => _ end] =>
      destruct (body clock n) as [[response|e] n1]
  end; eauto.
Qed.

(** Every conversation of an answer of the route comes out of the
    assembler. *)
Lemma GET_tabs_from_assembler (Q : ChatTab → Prop) (clock : nat → Z) :
  (∀ bubbleMap codeBlockDiffMap messageRequestContextMap composerId composerData n tab,
      (assembleConversation bubbleMap codeBlockDiffMap messageRequestContextMap
         composerId composerData clock n).1 = Ok (Some tab) → Q tab) →
  ∀ fs params_id n tabs n',
    GET fs params_id clock n = (Ok (Json tabs), n') → Forall Q tabs.
Proof.
  intros HQ fs params_id n tabs n'. unfold GET, try_catchM.
  rewrite run_bind, run_lift.
  destruct (readdir fs) as [entries|e]; [|done].
  destruct (fs_globalDb fs) as [globalDb|]; [|done].
  rewrite run_bind, run_lift.
  destruct (openDatabase globalDb) as [db|e]; [|done].
  rewrite run_bind.
  match goal with
  | |- context [forM ?rows [] ?body clock n] =>
      destruct (forM rows [] body clock n) as [[r|e] n1] eqn:Hloop
  end; [|done].
  rewrite run_ret. intros [= <- <-].
  revert Hloop. apply forM_invariant; [|constructor].
  clear -HQ. intros tabs row n tabs' n' Htabs.
  unfold composerStep, try_catchM.
  rewrite run_bind, run_lift.
  destruct (JSON_parse row.2) as [composerData|e]; [|by intros [= <- <-]].
  rewrite run_bind, run_lift.
  destruct (Attribution.determineProjectForConversation _ _ _ _ _ _) as [projectId|e];
    [|by intros [= <- <-]].
  destruct (bool_decide _); [|by intros [= <- <-]].
  rewrite run_bind.
  destruct (assembleConversation _ _ _ _ _ clock n) as [[[tab|]|e] n1] eqn:Ha.
  - rewrite run_ret. intros [= <- <-]. apply Forall_app. split; [done|].
    constructor; [|constructor]. eapply HQ. by rewrite Ha.
  - rewrite run_ret. by intros [= <- <-].
  - rewrite run_ret. by intros [= <- <-].
Qed.

End TabsFacts.

(** ** Project attribution, tier by tier *)

Module AttributionFacts.
Import JS Attribution.

(** The first element whose answer is a truthy id. *)
Fixpoint firstTruthy {A} (answer : A → option string) (xs : list A) : option string :=
  match xs with
  | [] => None
  | x :: rest => if present truthy (answer x) then answer x else firstTruthy answer rest
  end.

Lemma firstHit_ok {A} (f : A → Res (option string)) (answer : A → option string) xs :
  (∀ x, f x = Ok (answer x)) → firstHit f xs = Ok (firstTruthy answer xs).
Proof.
  intros Hf. induction xs as [|x xs IH]; [done|].
  cbn [firstHit firstTruthy]. unfold or_next. rewrite Hf. cbn [mbind Res_bind].
  by destruct (present truthy (answer x)).
Qed.

Lemma firstTruthy_truthy {A} (answer : A → option string) xs projectId :
  firstTruthy answer xs = Some projectId → projectId ≠ "".
Proof.
  induction xs as [|x xs IH]; [done|]. cbn [firstTruthy].
  destruct (present truthy (answer x)) eqn:E; [|done].
  intros H. rewrite H in E. by destruct projectId.
Qed.

Lemma firstTruthy_app_hit {A} (answer : A → option string) pre x post projectId :
  Forall (λ y, present truthy (answer y) = false) pre →
  answer x = Some projectId → projectId ≠ "" →
  firstTruthy answer (pre ++ x :: post) = Some projectId.
Proof.
  intros Hpre Hx Hne. induction Hpre as [|y pre Hy _ IH]; cbn [app firstTruthy].
  - rewrite Hx. by destruct projectId.
  - by rewrite Hy.
Qed.

(** The folder of a workspace entry, when its [workspace.json] decodes and
    names one. *)
Definition folderOf (entry : WorkspaceEntry) : option string :=
  match we_workspaceJson entry with
  | Encodes workspaceData =>
      if present truthy (wd_folder workspaceData) then wd_folder workspaceData else None
  | Malformed => None
  end.

(** The folder as it is compared: without the first ["file://"] in it, then
    without the home prefix. *)
Definition normalizedFolder (folder : string) : string :=
  stripPrefix home (removeFirst scheme folder).

(** The normalized path starts with the normalized folder of the entry. *)
Definition holds (normalizedPath : string) (entry : WorkspaceEntry) : bool :=
  match folderOf entry with
  | Some folder => startsWith normalizedPath (normalizedFolder folder)
  | None => false
  end.

(** The project of a normalized path: the first entry that holds it. *)
Definition projectOfPath (workspaceEntries : list WorkspaceEntry)
    (normalizedPath : string) : option string :=
  we_name <$> List.find (holds normalizedPath) workspaceEntries.

Lemma entryMatch_ok normalizedPath entry :
  entryMatch normalizedPath entry
  = Ok (if holds normalizedPath entry then Some (we_name entry) else None).
Proof.
  unfold entryMatch, holds, folderOf, normalizedFolder.
  destruct (we_workspaceJson entry) as [|workspaceData]; [done|].
  cbn [JSON_parse mbind Res_bind try_catch].
  destruct (wd_folder workspaceData) as [folder|]; [|done].
  cbn [present show]. destruct (truthy folder); [|done].
  by destruct (startsWith _ _).
Qed.

Lemma firstEntry_ok normalizedPath workspaceEntries :
  firstEntry normalizedPath workspaceEntries
  = Ok (projectOfPath workspaceEntries normalizedPath).
Proof.
  unfold projectOfPath.
  induction workspaceEntries as [|entry rest IH]; [done|].
  cbn [firstEntry List.find]. rewrite entryMatch_ok. cbn [mbind Res_bind].
  by destruct (holds normalizedPath entry).
Qed.

(** The path of a file reference is compared without the home prefix; a
    ["file://"] in it stays. *)
Lemma getProjectFromFilePath_ok filePath workspaceEntries :
  getProjectFromFilePath filePath workspaceEntries
  = Ok (projectOfPath workspaceEntries (stripPrefix home filePath)).
Proof. apply firstEntry_ok. Qed.

Section Tiers.
Variable projectLayoutsMap : gmap string (list string).
Variable projectNameToWorkspaceId : gmap string string.
Variable workspaceEntries : list WorkspaceEntry.
Variable bubbleMap : gmap string Bubble.

(** The project of a path of the conversation: the path goes through
    [normalize], loses the home prefix, and is compared with the folders. *)
Definition tested (normalize : string → string) (path : string) : option string :=
  projectOfPath workspaceEntries (stripPrefix home (normalize path)).

(** The project of a file reference: nothing for a missing or empty path. *)
Definition reference (path : option string) : option string :=
  if present truthy path then tested id (show path) else None.

Definition pathOfUri (uri : option Uri) : option string :=
  match uri with Some uri => uri_path uri | None => None end.

Definition pathOfSelection (fileSelection : option FileSelection) : option string :=
  match fileSelection with
  | Some fileSelection => pathOfUri (fs_uri fileSelection)
  | None => None
  end.

Definition fileSelectionsOf (bubble : Bubble) : list (option FileSelection) :=
  match b_context bubble with
  | Some context => items (ctx_fileSelections context)
  | None => []
  end.

Definition layoutAnswer (composerId : string) : option Found :=
  firstWorkspaceId projectNameToWorkspaceId (default [] (projectLayoutsMap !! composerId)).

Definition newFilesAnswer (composerData : ComposerData) : option string :=
  firstTruthy (λ file, reference (pathOfUri (nf_uri file)))
              (items (cd_newlyCreatedFiles composerData)).

Definition codeBlockAnswer (composerData : ComposerData) : option string :=
  firstTruthy (tested (removeFirst scheme)) (items (cd_codeBlockData composerData)).

Definition bubbleFilesAnswer (bubble : Bubble) : option string :=
  firstTruthy id
    [ firstTruthy reference (items (b_relevantFiles bubble));
      firstTruthy (λ uri, reference (pathOfUri uri))
                  (items (b_attachedFileCodeChunksUris bubble));
      firstTruthy (λ fileSelection, reference (pathOfSelection fileSelection))
                  (fileSelectionsOf bubble) ].

Definition bubbleAnswer (composerData : ComposerData) : option string :=
  firstTruthy (λ header,
                 match bubbleMap !! h_bubbleId header with
                 | Some bubble => bubbleFilesAnswer bubble
                 | None => None
                 end)
              (default [] (cd_fullConversationHeadersOnly composerData)).

Lemma layoutTier_ok composerId :
  layoutTier projectLayoutsMap projectNameToWorkspaceId composerId
  = if bool_decide (composerId ∈ prototypeMembers) then Thrown TypeError
    else Ok (layoutAnswer composerId).
Proof. reflexivity. Qed.

Lemma firstWorkspaceId_truthy projectLayouts workspaceId :
  firstWorkspaceId projectNameToWorkspaceId projectLayouts = Some workspaceId →
  truthyFound workspaceId = true.
Proof.
  induction projectLayouts as [|projectName rest IH]; [done|]. cbn [firstWorkspaceId].
  destruct (read projectNameToWorkspaceId projectName) as [found|]; [|done].
  destruct (truthyFound found) eqn:E; [|done]. by intros [= <-].
Qed.


Lemma reference_ok (path : option string) :
  (if present truthy path
   then getProjectFromFilePath (show path) workspaceEntries else Ok None)
  = Ok (reference path).
Proof.
  unfold reference, tested. destruct (present truthy path); [|done].
  apply getProjectFromFilePath_ok.
Qed.

Lemma newFilesTier_ok composerData :
  newFilesTier workspaceEntries composerData = Ok (newFilesAnswer composerData).
Proof.
  unfold newFilesTier, newFilesAnswer.
  destruct (cd_newlyCreatedFiles composerData) as [[|file files]|]; [done| |done].
  cbn [nonEmpty items default]. apply firstHit_ok. intros x.
  destruct (nf_uri x) as [uri|]; [|done]. apply reference_ok.
Qed.

Lemma codeBlockTier_ok composerData :
  codeBlockTier workspaceEntries composerData = Ok (codeBlockAnswer composerData).
Proof.
  unfold codeBlockTier, codeBlockAnswer.
  destruct (cd_codeBlockData composerData) as [keys|]; [|done].
  cbn [items default]. apply firstHit_ok. intros filePath.
  apply getProjectFromFilePath_ok.
Qed.

Lemma firstTruthy_idem {A} (answer : A → option string) xs :
  present truthy (firstTruthy answer xs) = false → firstTruthy answer xs = None.
Proof.
  destruct (firstTruthy answer xs) as [projectId|] eqn:E; [|done].
  apply firstTruthy_truthy in E. by destruct projectId.
Qed.

Lemma bubbleFiles_ok bubble :
  bubbleFiles workspaceEntries bubble = Ok (bubbleFilesAnswer bubble).
Proof.
  unfold bubbleFiles, bubbleFilesAnswer, fileSelectionsOf.
  assert ((if nonEmpty (b_relevantFiles bubble)
           then firstHit (λ filePath, if present truthy filePath
                                      then getProjectFromFilePath (show filePath)
                                             workspaceEntries
                                      else Ok None)
                         (items (b_relevantFiles bubble))
           else Ok None)
          = Ok (firstTruthy reference (items (b_relevantFiles bubble)))) as ->.
  { destruct (b_relevantFiles bubble) as [[|x xs]|]; [done| |done].
    cbn [nonEmpty items default]. apply firstHit_ok. intros y. apply reference_ok. }
  assert ((if nonEmpty (b_attachedFileCodeChunksUris bubble)
           then firstHit (λ uri, match uri with
                                 | Some uri =>
                                     if present truthy (uri_path uri)
                                     then getProjectFromFilePath (show (uri_path uri))
                                            workspaceEntries
                                     else Ok None
                                 | None => Ok None
                                 end)
                         (items (b_attachedFileCodeChunksUris bubble))
           else Ok None)
          = Ok (firstTruthy (λ uri, reference (pathOfUri uri))
                            (items (b_attachedFileCodeChunksUris bubble)))) as ->.
  { destruct (b_attachedFileCodeChunksUris bubble) as [[|x xs]|]; [done| |done].
    cbn [nonEmpty items default]. apply firstHit_ok. intros [uri|]; [|done].
    apply reference_ok. }
  assert (match b_context bubble with
          | Some context =>
              if nonEmpty (ctx_fileSelections context)
              then firstHit (λ fileSelection,
                               match fileSelection with
                               | Some fileSelection =>
                                   match fs_uri fileSelection with
                                   | Some uri =>
                                       if present truthy (uri_path uri)
                                       then getProjectFromFilePath (show (uri_path uri))
                                              workspaceEntries
                                       else Ok None
                                   | None => Ok None
                                   end
                               | None => Ok None
                               end)
                            (items (ctx_fileSelections context))
              else Ok None
          | None => Ok None
          end
          = Ok (firstTruthy (λ fileSelection, reference (pathOfSelection fileSelection))
                  match b_context bubble with
                  | Some context => items (ctx_fileSelections context)
                  | None => []
                  end)) as ->.
  { destruct (b_context bubble) as [context|]; [|done].
    destruct (ctx_fileSelections context) as [[|x xs]|]; [done| |done].
    cbn [nonEmpty items default]. apply firstHit_ok. intros [[[uri|]]|]; [|done..].
    apply reference_ok. }
  unfold or_next. cbn [mbind Res_bind firstTruthy id].
  repeat match goal with
         | |- context [present truthy ?o] => destruct (present truthy o) eqn:?
         end; try done.
  by rewrite firstTruthy_idem.
Qed.

Lemma bubbleTier_ok composerData :
  bubbleTier workspaceEntries bubbleMap composerData = Ok (bubbleAnswer composerData).
Proof.
  unfold bubbleTier, bubbleAnswer. apply firstHit_ok. intros header.
  destruct (bubbleMap !! h_bubbleId header) as [bubble|]; [|done].
  apply bubbleFiles_ok.
Qed.

(** The resolver answers with the first tier that names a project. *)
Lemma determineProjectForConversation_ok composerData composerId :
  determineProjectForConversation projectLayoutsMap projectNameToWorkspaceId
    workspaceEntries bubbleMap composerData composerId
  = if bool_decide (composerId ∈ prototypeMembers) then Thrown TypeError
    else Ok match layoutAnswer composerId with
            | Some workspaceId => Some workspaceId
            | None => Stored <$> firstTruthy id [ newFilesAnswer composerData;
                                                  codeBlockAnswer composerData;
                                                  bubbleAnswer composerData ]
            end.
Proof.
  unfold determineProjectForConversation, or_next.
  rewrite layoutTier_ok, newFilesTier_ok, codeBlockTier_ok, bubbleTier_ok.
  destruct (bool_decide (composerId ∈ prototypeMembers)); [done|].
  cbn [mbind Res_bind firstTruthy id].
  destruct (layoutAnswer composerId) as [workspaceId|]; [done|].
  repeat match goal with
         | |- context [present truthy ?o] => destruct (present truthy o) eqn:?
         end; try done.
  unfold bubbleAnswer in *. by rewrite firstTruthy_idem.
Qed.

End Tiers.

End AttributionFacts.

(** * Stores used in the examples *)

Module Examples.

(** A bubble that holds a text and a time stamp only. *)
Definition textBubble (text : string) (timestamp : option Z) : Bubble :=
  {| b_text := Some text; b_richText := None; b_codeBlocks := None;
     b_timestamp := timestamp; b_relevantFiles := None;
     b_attachedFileCodeChunksUris := None; b_context := None |}.

Definition userHeader (bubbleId : string) : Header :=
  {| h_bubbleId := bubbleId; h_type := Some 1 |}.

(** A conversation without a name that lists the given bubbles. *)
Definition unnamed (bubbleIds : list string) : ComposerData :=
  {| cd_name := None; cd_newlyCreatedFiles := None; cd_codeBlockData := None;
     cd_fullConversationHeadersOnly := Some (userHeader <$> bubbleIds);
     cd_lastUpdatedAt := None; cd_createdAt := Some 1700000000000 |}.

(** A diff that reports an edited file. *)
Definition fileDiff (filePath : string) : Action :=
  {| act_newModelDiffWrtV0 := None; act_filePath := Some filePath; act_command := None;
     act_searchResults := None; act_webResults := None; act_toolName := None;
     act_parameters := None; act_result := None; act_actionsTaken := None;
     act_filesModified := None; act_gitStatus := None; act_directoryListed := None;
     act_webSearchResults := None; act_diffId := None |}.

(** A request context that carries layout hints only. *)
Definition layoutContext (rootPaths : list string) : RequestContext :=
  {| rc_bubbleId := None; rc_gitStatusRaw := None; rc_terminalFiles := None;
     rc_attachedFoldersListDirResults := None; rc_cursorRules := None;
     rc_summarizedComposers := None;
     rc_projectLayouts :=
       Some ((λ rootPath, Encodes {| lay_rootPath := Some rootPath |}) <$> rootPaths);
     rc_contextId := None |}.

(** A workspace directory with both of its files. *)
Definition workspaceDir (name folder : string) (mtime : Z) : DirEntry :=
  {| de_name := name; de_isDirectory := true;
     de_workspaceJson := Some (Encodes {| wd_folder := Some folder |});
     de_stateDb := Some {| st_mtime := mtime; st_chatdata := Some None |} |}.

(** A workspace directory whose [state.vscdb] is missing. *)
Definition workspaceDirWithoutStore (name folder : string) : DirEntry :=
  {| de_name := name; de_isDirectory := true;
     de_workspaceJson := Some (Encodes {| wd_folder := Some folder |});
     de_stateDb := None |}.

(** The store of the end-to-end example: conversation [c1] of the project
    [ws1] with the bubbles [b1] (time stamp 100, "hello") and [b2] (time
    stamp 50, "world"), and the header list given. *)
Definition twoBubbleRows : list (string * JsonText Bubble) :=
  [ ("bubbleId:c1:b1", Encodes (textBubble "hello" (Some 100)));
    ("bubbleId:c1:b2", Encodes (textBubble "world" (Some 50))) ].

(** A storage with the one project [ws1] (folder [proj]) and a global store
    with the rows given; every conversation carries a layout hint for
    [proj]. *)
Definition storeOf (bubbles : list (string * JsonText Bubble))
    (diffs : list (string * JsonText Action))
    (conversations : list (string * ComposerData)) : Storage :=
  {| fs_entries := Some [ workspaceDir "ws1" "file:///home/dev/proj" 1 ];
     fs_globalDb :=
       Some (Some {| bubbleRows := bubbles;
                     codeBlockDiffRows := diffs;
                     messageRequestContextRows :=
                       (λ conversation,
                          ("messageRequestContext:" +:+ conversation.1 +:+ ":ctx",
                           Encodes (layoutContext ["proj"]))) <$> conversations;
                     composerDataRows :=
                       (λ conversation,
                          {| cr_key := "composerData:" +:+ conversation.1;
                             cr_value := Encodes conversation.2;
                             cr_long := true;
                             cr_likeHeaders := true;
                             cr_likeEmptyHeaders :=
                               match cd_fullConversationHeadersOnly conversation.2
                               with
                               | Some [] => true
                               | _ => false
                               end |})
                         <$> conversations |}) |}.

Definition twoBubbleStore (bubbleIds : list string) : Storage :=
  storeOf twoBubbleRows [] [("c1", unnamed bubbleIds)].

(** A store in which the first header of conversation [c1] leads to a bubble
    of white space, and a diff is recorded for the conversation. *)
Definition blankFirstStore (bubbleIds : list string) : Storage :=
  storeOf [ ("bubbleId:c1:b1", Encodes (textBubble "hello" (Some 100)));
            ("bubbleId:c1:b3", Encodes (textBubble "   " (Some 10))) ]
          [ ("codeBlockDiff:c1:d1", Encodes (fileDiff "/home/dev/proj/a.ts")) ]
          [ ("c1", unnamed bubbleIds) ].

(** A store in which the header order and the time stamps of conversation
    [c1] disagree: the first header leads to "Other" (time stamp 100), the
    second to a text that begins "Fix the bug" (time stamp 50). *)
Definition outOfOrderStore : Storage :=
  storeOf [ ("bubbleId:c1:b1", Encodes (textBubble "Other" (Some 100)));
            ("bubbleId:c1:b2",
             Encodes (textBubble ("Fix the bug" +:+ LF +:+ "more text") (Some 50))) ]
          []
          [ ("c1", unnamed ["b1"; "b2"]) ].

(** A line of 105 characters. *)
Definition longLine : string :=
  "Please refactor the parser so that every error message carries the line and the column of the token ahead".

(** The texts of the turns of each conversation of an answer. *)
Definition turnTexts (answer : Res (Response (list ChatTab))) : list (list string) :=
  match answer with
  | Ok (Json tabs) => (λ tab, cb_text <$> tab_bubbles tab) <$> tabs
  | _ => []
  end.

Definition titles (answer : Res (Response (list ChatTab))) : list string :=
  match answer with
  | Ok (Json tabs) => tab_title <$> tabs
  | _ => []
  end.

End Examples.

(** * The claims *)

(** C1. The turns of every assembled conversation are in non-decreasing order
    of time stamp, whatever the order of the headers: the store of the
    end-to-end example (b1 at 100 "hello", b2 at 50 "world", headers b2, b1)
    gives the turns "world", "hello", and so does the header list b1, b2;
    in general the time stamps of the turns of every conversation the route
    answers with, and of every conversation the assembler builds, are sorted.
    The readings of the clock are taken to be other than zero. *)
Theorem turns_sorted_by_timestamp (clock : nat → Z) (Hclock : ∀ k, clock k ≠ 0) :
  (∀ n, Examples.turnTexts (Tabs.GET (Examples.twoBubbleStore ["b2"; "b1"]) "ws1" clock n).1
        = [["world"; "hello"]])
  ∧ (∀ n, Examples.turnTexts
            (Tabs.GET (Examples.twoBubbleStore ["b1"; "b2"]) "ws1" clock n).1
          = [["world"; "hello"]])
  ∧ (∀ fs params_id n tabs n',
        Tabs.GET fs params_id clock n = (Ok (Json tabs), n') →
        Forall (λ tab, Sorted Z.le (cb_timestamp <$> tab_bubbles tab)) tabs)
  ∧ (∀ bubbleMap codeBlockDiffMap messageRequestContextMap composerId composerData n tab,
        (Tabs.assembleConversation bubbleMap codeBlockDiffMap messageRequestContextMap
           composerId composerData clock n).1 = Ok (Some tab) →
        Sorted Z.le (cb_timestamp <$> tab_bubbles tab)).
Proof.
  split; [|split; [|split]].
  - intros n. vm_compute. reflexivity.
  - intros n. vm_compute. reflexivity.
  - apply TabsFacts.GET_tabs_from_assembler. intros. by eapply TabsFacts.assembled_sorted.
  - intros. by eapply TabsFacts.assembled_sorted.
Qed.

Lemma turns_sorted_by_timestamp_witness :
  ∃ tabs n',
    Tabs.GET (Examples.blankFirstStore ["b1"; "b3"]) "ws1" (λ _, 1700000000000) 0%nat
    = (Ok (Json tabs), n')
    ∧ (λ tab, cb_timestamp <$> tab_bubbles tab) <$> tabs = [[100; 1700000000000]]
    ∧ Forall (λ tab, Sorted Z.le (cb_timestamp <$> tab_bubbles tab)) tabs.
Proof.
  assert (∀ k : nat, (λ _ : nat, 1700000000000) k ≠ 0) as Hclock by (intros k; lia).
  eexists _, _. split; [vm_compute; reflexivity|]. split; [vm_compute; reflexivity|].
  eapply (proj1 (proj2 (proj2 (turns_sorted_by_timestamp _ Hclock)))
            (Examples.blankFirstStore ["b1"; "b3"]) "ws1" 0%nat).
  vm_compute. reflexivity.
Defined.

(** C5. No turn of an assembled conversation has a text that is empty or
    white space once trimmed: this holds for every conversation the route
    answers with and for every conversation the assembler builds, whose turn
    texts are exactly the final texts (bubble text and context sections) of
    the headers that are not blank and the labelled texts of the diffs; a
    header whose final text trims to the empty string pushes no turn. *)
Theorem blank_turns_are_excluded (clock : nat → Z) :
  (∀ fs params_id n tabs n',
      Tabs.GET fs params_id clock n = (Ok (Json tabs), n') →
      Forall (λ tab, Forall (λ bubble, JS.trim (cb_text bubble) ≠ "") (tab_bubbles tab))
             tabs)
  ∧ (∀ bubbleMap codeBlockDiffMap messageRequestContextMap composerId composerData n tab,
        (Tabs.assembleConversation bubbleMap codeBlockDiffMap messageRequestContextMap
           composerId composerData clock n).1 = Ok (Some tab) →
        Forall (λ bubble, JS.trim (cb_text bubble) ≠ "") (tab_bubbles tab)
        ∧ cb_text <$> tab_bubbles tab
          ≡ₚ omap (TabsFacts.keptText bubbleMap messageRequestContextMap composerId)
                  (TabsFacts.headersOf composerData)
             ++ omap TabsFacts.diffText (TabsFacts.diffsOf codeBlockDiffMap composerId))
  ∧ (∀ bubbleMap messageRequestContextMap composerId bubbles header bubble text n,
        bubbleMap !! h_bubbleId header = Some bubble →
        Tabs.fullTextOf messageRequestContextMap composerId (h_bubbleId header) bubble
        = Ok text →
        JS.trim text = "" →
        Tabs.headerStep bubbleMap messageRequestContextMap composerId bubbles header
          clock n = (Ok bubbles, n)).
Proof.
  assert (∀ bubbles, Forall TabsFacts.nonblank bubbles →
                     Forall (λ bubble, JS.trim (cb_text bubble) ≠ "") bubbles) as Hnb.
  { intros bubbles Hbubbles. eapply Forall_impl; [exact Hbubbles|].
    intros bubble. unfold TabsFacts.nonblank. apply JSFacts.truthy_true_iff. }
  split; [|split].
  - apply TabsFacts.GET_tabs_from_assembler. intros.
    by eapply Hnb, TabsFacts.assembled_nonblank.
  - intros * Hrun. split.
    + by eapply Hnb, TabsFacts.assembled_nonblank.
    + by eapply TabsFacts.assembled_texts.
  - intros * Hbubble Htext Hblank.
    rewrite TabsFacts.headerStep_run. unfold TabsFacts.headerTurn.
    rewrite Hbubble. rewrite TabsFacts.fullTextOf_ok in Htext.
    injection Htext as ->. rewrite Hblank. cbn. by rewrite app_nil_r.
Qed.

Lemma blank_turns_are_excluded_witness :
  ∃ tabs n',
    Tabs.GET (Examples.blankFirstStore ["b3"; "b1"]) "ws1" (λ _, 1700000000000) 0%nat
    = (Ok (Json tabs), n')
    ∧ Examples.turnTexts (Ok (Json tabs))
      = [["hello"; "**Tool Action:**" +:+ LF +:+ LF +:+ "**File:** /home/dev/proj/a.ts"]]
    ∧ Forall (λ tab, Forall (λ bubble, JS.trim (cb_text bubble) ≠ "") (tab_bubbles tab))
             tabs.
Proof.
  eexists _, _. split; [vm_compute; reflexivity|]. split; [vm_compute; reflexivity|].
  eapply (proj1 (blank_turns_are_excluded (λ _, 1700000000000))
            (Examples.blankFirstStore ["b3"; "b1"]) "ws1" 0%nat).
  vm_compute. reflexivity.
Defined.

(** C10. A conversation none of whose headers gives a turn with a text that
    is not blank produces no conversation: the assembler answers nothing and
    takes no reading of the clock, whatever code-block diffs are recorded for
    the conversation, and the loop over the rows leaves the list of
    conversations as it was. *)
Theorem conversation_without_text_turns_is_omitted
    (bubbleMap : gmap string Bubble) (codeBlockDiffMap : gmap string (list Action))
    (messageRequestContextMap : gmap string (list RequestContext))
    (composerId : string) (composerData : ComposerData) (clock : nat → Z) (n : nat)
    (Hblank : ∀ header bubble text,
        header ∈ default [] (cd_fullConversationHeadersOnly composerData) →
        bubbleMap !! h_bubbleId header = Some bubble →
        Tabs.fullTextOf messageRequestContextMap composerId (h_bubbleId header) bubble
        = Ok text →
        JS.trim text = "") :
  Tabs.assembleConversation bubbleMap codeBlockDiffMap messageRequestContextMap
    composerId composerData clock n = (Ok None, n)
  ∧ ∀ params_id projectLayoutsMap projectNameToWorkspaceId workspaceEntries tabs key,
      JS.show (JS.split ":" key !! 1%nat) = composerId →
      Tabs.composerStep params_id projectLayoutsMap projectNameToWorkspaceId
        workspaceEntries bubbleMap codeBlockDiffMap messageRequestContextMap
        tabs (key, Encodes composerData) clock n = (Ok tabs, n).
Proof.
  assert (Tabs.assembleConversation bubbleMap codeBlockDiffMap messageRequestContextMap
            composerId composerData clock n = (Ok None, n)) as Hnone.
  { apply TabsFacts.assembled_None. unfold TabsFacts.headersOf.
    induction (default [] (cd_fullConversationHeadersOnly composerData))
      as [|header headers IH]; [done|].
    cbn [omap list_omap].
    fold (omap (TabsFacts.keptText bubbleMap messageRequestContextMap composerId) headers).
    rewrite IH by (intros; eapply Hblank; [by right|done..]).
    unfold TabsFacts.keptText.
    destruct (bubbleMap !! h_bubbleId header) as [bubble|] eqn:Hbubble; [|done].
    cbv zeta.
    rewrite (Hblank header bubble _ ltac:(by left) Hbubble
               (TabsFacts.fullTextOf_ok _ _ _ _)).
    done. }
  split; [exact Hnone|].
  intros * Hkey. unfold Tabs.composerStep, try_catchM. cbn [fst snd].
  rewrite Hkey, run_bind, run_lift. cbn [JSON_parse].
  rewrite run_bind, run_lift.
  destruct (Attribution.determineProjectForConversation _ _ _ _ _ _) as [projectId|e];
    [|done].
  destruct (bool_decide _); [|done].
  by rewrite run_bind, Hnone.
Qed.

Lemma conversation_without_text_turns_is_omitted_witness :
  Tabs.assembleConversation
    {[ "b3" := Examples.textBubble "   " (Some 10) ]}
    {[ "c1" := [Examples.fileDiff "/home/dev/proj/a.ts"] ]}
    ∅ "c1" (Examples.unnamed ["b3"]) (λ _, 1700000000000) 0%nat
  = (Ok None, 0%nat).
Proof.
  apply conversation_without_text_turns_is_omitted.
  intros header bubble text Hheader Hbubble Htext.
  apply list_elem_of_singleton in Hheader as ->.
  apply lookup_singleton_Some in Hbubble as [_ <-].
  by injection Htext as <-.
Defined.

(** C7. When the title of a conversation is derived from a turn (the
    conversation has no stored name) and the first non-empty line of the text
    of that turn is longer than 100 characters, the title is the first 100
    characters of the line followed by "...". *)
Theorem long_first_line_is_cut_to_100
    (bubbleMap : gmap string Bubble) (codeBlockDiffMap : gmap string (list Action))
    (messageRequestContextMap : gmap string (list RequestContext))
    (composerId : string) (composerData : ComposerData) (clock : nat → Z) (n : nat)
    (tab : ChatTab) (text line : string)
    (Hrun : (Tabs.assembleConversation bubbleMap codeBlockDiffMap
               messageRequestContextMap composerId composerData clock n).1
            = Ok (Some tab))
    (Hname : JS.present JS.truthy (cd_name composerData) = false)
    (Hturn : head (omap (TabsFacts.keptText bubbleMap messageRequestContextMap composerId)
                        (TabsFacts.headersOf composerData)) = Some text)
    (Hline : TabsFacts.firstNonEmptyLine text = Some line)
    (Hlong : (100 < String.length line)%nat) :
  tab_title tab = JS.take 100 line +:+ "..."
  ∧ String.length (JS.take 100 line) = 100%nat
  ∧ line = JS.take 100 line +:+ JS.drop 100 line.
Proof.
  split; [|split].
  - rewrite (TabsFacts.assembled_title _ _ _ _ _ _ _ _ Hrun).
    rewrite <- TabsFacts.headerTurn_texts with (clock := clock) (n := n) in Hturn.
    destruct (TabsFacts.collect _ n _).1 as [|first others]; [done|].
    injection Hturn as Hturn.
    rewrite (TabsFacts.resolveTitle_first _ _ _ _ line Hname) by (by rewrite Hturn).
    apply TabsFacts.titleOfLine_long. lia.
  - rewrite JSFacts.length_take. lia.
  - by rewrite JSFacts.take_app_drop.
Qed.

Lemma long_first_line_is_cut_to_100_witness :
  ∃ tab,
    (Tabs.assembleConversation
       {[ "b1" := Examples.textBubble (Examples.longLine +:+ LF +:+ "more") (Some 5) ]}
       ∅ ∅ "c1" (Examples.unnamed ["b1"]) (λ _, 1700000000000) 0%nat).1 = Ok (Some tab)
    ∧ tab_title tab = JS.take 100 Examples.longLine +:+ "...".
Proof.
  eexists. split; [vm_compute; reflexivity|].
  eapply (long_first_line_is_cut_to_100
            {[ "b1" := Examples.textBubble (Examples.longLine +:+ LF +:+ "more") (Some 5) ]}
            ∅ ∅ "c1" (Examples.unnamed ["b1"]) (λ _, 1700000000000) 0%nat _
            (Examples.longLine +:+ LF +:+ "more") Examples.longLine).
  - vm_compute. reflexivity.
  - reflexivity.
  - vm_compute. reflexivity.
  - vm_compute. reflexivity.
  - vm_compute. lia.
Defined.

(** C6, as stated, fails: the title is computed from the turns in the order of
    the headers, before the sort by time stamp.  In the store below the
    conversation has no stored name and its first turn (the one with the
    lowest time stamp) has the text "Fix the bug", a line feed, "more text";
    yet its title is "Other", the first line of the turn of the first
    header. *)
Lemma title_is_not_taken_from_first_sorted_turn :
  Examples.turnTexts
    (Tabs.GET Examples.outOfOrderStore "ws1" (λ _, 1700000000000) 0%nat).1
  = [["Fix the bug" +:+ LF +:+ "more text"; "Other"]]
  ∧ Examples.titles
      (Tabs.GET Examples.outOfOrderStore "ws1" (λ _, 1700000000000) 0%nat).1
    = ["Other"]
  ∧ Examples.titles
      (Tabs.GET Examples.outOfOrderStore "ws1" (λ _, 1700000000000) 0%nat).1
    ≠ ["Fix the bug"].
Proof.
  split; [vm_compute; reflexivity|]. split; [vm_compute; reflexivity|].
  vm_compute. discriminate.
Qed.

(** C6, amended.  The title of an assembled conversation is the stored name
    when there is one; else it is made of the first non-empty line of the
    text of the first turn in header order (the first header whose bubble
    exists and whose final text is not blank, taken before the diff turns are
    added and before the sort by time stamp): the line itself when it is
    shorter than 100 characters, its first 100 characters and "..."
    otherwise; such a turn and such a line always exist for an assembled
    conversation.  The placeholder "Conversation " followed by the first 8
    characters of the id is the title only where there is neither a name nor
    a turn with a non-empty line.  In particular a conversation without a
    name whose first turn in header order has a text that begins
    "Fix the bug", a line feed, "more text" gets the title "Fix the bug". *)
Theorem title_resolution_precedence
    (bubbleMap : gmap string Bubble) (codeBlockDiffMap : gmap string (list Action))
    (messageRequestContextMap : gmap string (list RequestContext))
    (composerId : string) (composerData : ComposerData) (clock : nat → Z) (n : nat)
    (tab : ChatTab)
    (Hrun : (Tabs.assembleConversation bubbleMap codeBlockDiffMap
               messageRequestContextMap composerId composerData clock n).1
            = Ok (Some tab)) :
  (JS.present JS.truthy (cd_name composerData) = true →
   tab_title tab = JS.show (cd_name composerData))
  ∧ (JS.present JS.truthy (cd_name composerData) = false →
     ∃ text line,
       head (omap (TabsFacts.keptText bubbleMap messageRequestContextMap composerId)
                  (TabsFacts.headersOf composerData)) = Some text
       ∧ TabsFacts.firstNonEmptyLine text = Some line
       ∧ tab_title tab = TabsFacts.titleOfLine line
       ∧ ((String.length line < 100)%nat → tab_title tab = line)
       ∧ ((100 ≤ String.length line)%nat → tab_title tab = JS.take 100 line +:+ "..."))
  ∧ (∀ name id bubbles,
        JS.present JS.truthy name = false →
        (bubbles = [] ∨ ∃ first others, bubbles = first :: others
                          ∧ TabsFacts.firstNonEmptyLine (cb_text first) = None) →
        Tabs.resolveTitle name id bubbles = "Conversation " +:+ JS.take 8 id)
  ∧ (∀ rest,
        JS.present JS.truthy (cd_name composerData) = false →
        head (omap (TabsFacts.keptText bubbleMap messageRequestContextMap composerId)
                   (TabsFacts.headersOf composerData))
        = Some ("Fix the bug" +:+ LF +:+ "more text" +:+ rest) →
        tab_title tab = "Fix the bug").
Proof.
  pose proof (TabsFacts.assembled_title _ _ _ _ _ _ _ _ Hrun) as Htitle.
  pose proof (TabsFacts.assembled_nonblank _ _ _ _ _ _ _ _ Hrun) as _.
  destruct (TabsFacts.assembleConversation_Some _ _ _ _ _ _ _ _ Hrun)
    as (hs & n1 & ds & n2 & Hh & Hne & _ & _ & _).
  pose proof (TabsFacts.headerTurn_texts bubbleMap messageRequestContextMap clock
                composerId n (TabsFacts.headersOf composerData)) as Htexts.
  pose proof (TabsFacts.collect_Forall (TabsFacts.nonblank)
                (TabsFacts.headerTurn bubbleMap messageRequestContextMap clock composerId)
                (λ k x b, TabsFacts.headerTurn_nonblank _ _ _ _ k x b)
                (TabsFacts.headersOf composerData) n) as Hnb.
  rewrite Hh in Htitle, Htexts, Hnb. cbn [fst] in *.
  destruct hs as [|first others]; [done|].
  apply Forall_cons in Hnb as [Hfirst _].
  destruct (TabsFacts.firstNonEmptyLine_Some _ Hfirst) as [line Hline].
  split; [|split; [|split]].
  - intros Hname. rewrite Htitle. by apply TabsFacts.resolveTitle_named.
  - intros Hname. exists (cb_text first), line.
    rewrite <- Htexts. split; [done|]. split; [done|].
    rewrite Htitle, (TabsFacts.resolveTitle_first _ _ _ _ line Hname Hline).
    split; [done|]. split; intros Hlen.
    + by apply TabsFacts.titleOfLine_short.
    + by apply TabsFacts.titleOfLine_long.
  - intros name id bubbles. apply TabsFacts.resolveTitle_placeholder.
  - intros rest Hname Hhead. rewrite <- Htexts in Hhead. injection Hhead as Hhead.
    rewrite Htitle.
    rewrite (TabsFacts.resolveTitle_first _ _ _ _ "Fix the bug" Hname).
    + vm_compute. reflexivity.
    + rewrite Hhead. vm_compute. reflexivity.
Qed.

Lemma title_resolution_precedence_witness :
  ∃ tab,
    (Tabs.assembleConversation
       {[ "b1" := Examples.textBubble ("Fix the bug" +:+ LF +:+ "more text") (Some 5) ]}
       ∅ ∅ "c1" (Examples.unnamed ["b1"]) (λ _, 1700000000000) 0%nat).1 = Ok (Some tab)
    ∧ tab_title tab = "Fix the bug".
Proof.
  eexists. split; [vm_compute; reflexivity|].
  eapply (title_resolution_precedence
            {[ "b1" := Examples.textBubble ("Fix the bug" +:+ LF +:+ "more text") (Some 5) ]}
            ∅ ∅ "c1" (Examples.unnamed ["b1"]) (λ _, 1700000000000) 0%nat _ _).
  - reflexivity.
  - instantiate (1 := ""). vm_compute. reflexivity.
  Unshelve. vm_compute. reflexivity.
Defined.


Module ConflictingEvidence.

(** Two projects; the conversation carries a layout hint for the first and a
    newly created file that lies in the folder of the second. *)
Definition workspaceEntries : list WorkspaceEntry :=
  [ {| we_name := "ws1";
       we_workspaceJson := Encodes {| wd_folder := Some "file:///Users/evaran/proj" |} |};
    {| we_name := "ws2";
       we_workspaceJson := Encodes {| wd_folder := Some "file:///Users/evaran/other" |} |} ].

Definition composerData : ComposerData :=
  {| cd_name := None;
     cd_newlyCreatedFiles :=
       Some [ {| nf_uri := Some {| uri_path := Some "/Users/evaran/other/a.ts" |} |} ];
     cd_codeBlockData := None;
     cd_fullConversationHeadersOnly := None;
     cd_lastUpdatedAt := None; cd_createdAt := None |}.

End ConflictingEvidence.


(** The normalization rule in the words of the specification: strip a
    ["file://"] scheme prefix if present, then strip the home-directory
    prefix if present. *)
Definition normalize_as_specified (path : string) : string :=
  JS.stripPrefix Attribution.home (JS.stripPrefix Attribution.scheme path).

Module SchemeInReference.

(** A project, and a conversation whose newly created file is named by a
    URI with its scheme. *)
Definition workspaceEntries : list WorkspaceEntry :=
  [ {| we_name := "ws1";
       we_workspaceJson := Encodes {| wd_folder := Some "file:///Users/evaran/proj" |} |} ].

Definition filePath : string := "file:///Users/evaran/proj/a.ts".

Definition composerData : ComposerData :=
  {| cd_name := None;
     cd_newlyCreatedFiles := Some [ {| nf_uri := Some {| uri_path := Some filePath |} |} ];
     cd_codeBlockData := None;
     cd_fullConversationHeadersOnly := None;
     cd_lastUpdatedAt := None; cd_createdAt := None |}.

End SchemeInReference.

(** C4, as stated, fails for the paths of newly created files (and of the
    file references of bubbles).  The path below would be compared as
    "proj/a.ts" under the rule of the specification and would belong to the
    project; the code compares it as it is, scheme included, and finds no
    project. *)
Lemma scheme_is_not_stripped_from_file_references :
  normalize_as_specified SchemeInReference.filePath = "proj/a.ts"
  ∧ Attribution.firstEntry (normalize_as_specified SchemeInReference.filePath)
      SchemeInReference.workspaceEntries = Ok (Some "ws1")
  ∧ JS.stripPrefix Attribution.home SchemeInReference.filePath
    = SchemeInReference.filePath
  ∧ Attribution.getProjectFromFilePath SchemeInReference.filePath
      SchemeInReference.workspaceEntries = Ok None
  ∧ Attribution.determineProjectForConversation ∅ ∅ SchemeInReference.workspaceEntries ∅
      SchemeInReference.composerData "c1" = Ok None.
Proof. repeat split; vm_compute; reflexivity. Qed.

(** C4, amended.  Every path tested during project attribution loses the
    hardcoded home-directory prefix, if it has it, before it is compared with
    the folder of a project, and this holds in every tier.  A ["file://"] is
    removed beforehand (its first occurrence, wherever it is) only from the
    keys of the code-block data and from the folder of the project; the paths
    of newly created files and of the three shapes of file references of a
    bubble are compared with any scheme left in place.  The rule of the
    specification gives the same string for a key that starts with the
    scheme, and for a file reference that does not. *)
Theorem paths_lose_home_prefix_before_comparison
    (workspaceEntries : list WorkspaceEntry) :
  (∀ filePath,
      Attribution.getProjectFromFilePath filePath workspaceEntries
      = Ok (we_name <$>
              List.find
                (λ entry,
                   match AttributionFacts.folderOf entry with
                   | Some folder =>
                       JS.startsWith
                         (JS.stripPrefix Attribution.home filePath)
                         (JS.stripPrefix Attribution.home
                            (JS.removeFirst Attribution.scheme folder))
                   | None => false
                   end)
                workspaceEntries))
  ∧ (∀ composerData,
        Attribution.newFilesTier workspaceEntries composerData
        = Ok (AttributionFacts.firstTruthy
                (λ file, AttributionFacts.reference workspaceEntries
                           (AttributionFacts.pathOfUri (nf_uri file)))
                (items (cd_newlyCreatedFiles composerData))))
  ∧ (∀ composerData,
        Attribution.codeBlockTier workspaceEntries composerData
        = Ok (AttributionFacts.firstTruthy
                (λ key, AttributionFacts.projectOfPath workspaceEntries
                          (JS.stripPrefix Attribution.home
                             (JS.removeFirst Attribution.scheme key)))
                (items (cd_codeBlockData composerData))))
  ∧ (∀ bubble,
        Attribution.bubbleFiles workspaceEntries bubble
        = Ok (AttributionFacts.firstTruthy id
                [ AttributionFacts.firstTruthy
                    (AttributionFacts.reference workspaceEntries)
                    (items (b_relevantFiles bubble));
                  AttributionFacts.firstTruthy
                    (λ uri, AttributionFacts.reference workspaceEntries
                              (AttributionFacts.pathOfUri uri))
                    (items (b_attachedFileCodeChunksUris bubble));
                  AttributionFacts.firstTruthy
                    (λ fileSelection,
                       AttributionFacts.reference workspaceEntries
                         (AttributionFacts.pathOfSelection fileSelection))
                    (AttributionFacts.fileSelectionsOf bubble) ]))
  ∧ (∀ path,
        AttributionFacts.reference workspaceEntries path
        = if JS.present JS.truthy path
          then AttributionFacts.projectOfPath workspaceEntries
                 (JS.stripPrefix Attribution.home (JS.show path))
          else None)
  ∧ (∀ rest, JS.stripPrefix Attribution.home (Attribution.home +:+ rest) = rest)
  ∧ (∀ path, JS.startsWith path Attribution.home = false →
             JS.stripPrefix Attribution.home path = path)
  ∧ (∀ key, JS.startsWith key Attribution.scheme = true →
            JS.stripPrefix Attribution.home (JS.removeFirst Attribution.scheme key)
            = normalize_as_specified key)
  ∧ (∀ path, JS.startsWith path Attribution.scheme = false →
             JS.stripPrefix Attribution.home path = normalize_as_specified path).
Proof.
  repeat apply conj.
  - intros filePath. apply AttributionFacts.getProjectFromFilePath_ok.
  - apply AttributionFacts.newFilesTier_ok.
  - apply AttributionFacts.codeBlockTier_ok.
  - apply AttributionFacts.bubbleFiles_ok.
  - reflexivity.
  - apply JSFacts.stripPrefix_app.
  - apply JSFacts.stripPrefix_other.
  - intros key [rest ->]%JSFacts.startsWith_app. unfold normalize_as_specified.
    by rewrite JSFacts.removeFirst_prefix, JSFacts.stripPrefix_app.
  - intros path Hpath. unfold normalize_as_specified.
    by rewrite (JSFacts.stripPrefix_other Attribution.scheme).
Qed.

Lemma paths_lose_home_prefix_before_comparison_witness :
  JS.stripPrefix Attribution.home
    (JS.removeFirst Attribution.scheme "file:///Users/evaran/proj/src/a.ts")
  = normalize_as_specified "file:///Users/evaran/proj/src/a.ts"
  ∧ JS.stripPrefix Attribution.home "/Users/evaran/proj/src/a.ts"
    = normalize_as_specified "/Users/evaran/proj/src/a.ts"
  ∧ Attribution.getProjectFromFilePath "/Users/evaran/proj/src/a.ts"
      SchemeInReference.workspaceEntries = Ok (Some "ws1").
Proof.
  pose proof (paths_lose_home_prefix_before_comparison SchemeInReference.workspaceEntries)
    as (Hget & _ & _ & _ & _ & _ & _ & Hkey & Hpath).
  split; [|split].
  - apply Hkey. reflexivity.
  - apply Hpath. reflexivity.
  - rewrite Hget. vm_compute. reflexivity.
Defined.

(** ** The two listings and a missing store file *)

Module ListingFacts.

(** The workspace listing skips a directory without [state.vscdb] and goes
    on with the directories that follow. *)
Lemma Workspaces_step_missing workspaces entry :
  de_stateDb entry = None → Workspaces.step workspaces entry = Ok workspaces.
Proof. unfold Workspaces.step. intros ->. by destruct (de_isDirectory entry). Qed.

Lemma Workspaces_step_never_throws workspaces entry :
  ∃ workspaces', Workspaces.step workspaces entry = Ok workspaces'.
Proof.
  unfold Workspaces.step.
  destruct (de_isDirectory entry); [|eauto].
  destruct (de_stateDb entry) as [store|]; [|eauto].
  destruct (Workspaces.describe entry store) as [workspace|e]; cbn; eauto.
Qed.

Lemma Workspaces_loop_never_throws entries workspaces :
  ∃ workspaces', Workspaces.loop entries workspaces = Ok workspaces'.
Proof.
  revert workspaces. induction entries as [|entry rest IH]; intros workspaces.
  - by exists workspaces.
  - cbn [Workspaces.loop].
    destruct (Workspaces_step_never_throws workspaces entry) as [workspaces' ->].
    apply IH.
Qed.

(** The project listing reads the time of last modification of the store
    file of every kept directory outside any [try] of the loop: one missing
    file ends the loop with an exception. *)
Lemma projectLoop_throws entries conversationMap workspaceEntries projects entry :
  entry ∈ workspaceEntries →
  stat_stateDb entries (we_name entry) = Thrown IOError →
  ∃ e, Projects.projectLoop entries conversationMap workspaceEntries projects = Thrown e.
Proof.
  intros Hin Hstat. revert projects.
  induction workspaceEntries as [|first rest IH]; intros projects.
  - by apply elem_of_nil in Hin.
  - cbn [Projects.projectLoop]. unfold Projects.projectStep at 1.
    destruct (stat_stateDb entries (we_name first)) as [stats|e] eqn:Hfirst.
    + cbn [mbind Res_bind]. apply IH.
      apply elem_of_cons in Hin as [->|Hin]; [congruence|done].
    + cbn [mbind Res_bind]. eauto.
Qed.

Lemma collectWorkspaceEntries_elem entries entry workspaceJson :
  entry ∈ entries → de_isDirectory entry = true →
  de_workspaceJson entry = Some workspaceJson →
  {| we_name := de_name entry; we_workspaceJson := workspaceJson |}
    ∈ collectWorkspaceEntries entries.
Proof.
  unfold collectWorkspaceEntries. intros Hin Hdir Hjson.
  assert (∀ acc, (∀ x, x ∈ acc → x ∈
            foldl (λ workspaceEntries entry0,
                     if de_isDirectory entry0
                     then match de_workspaceJson entry0 with
                          | Some workspaceJson0 =>
                              workspaceEntries ++
                                [{| we_name := de_name entry0;
                                    we_workspaceJson := workspaceJson0 |}]
                          | None => workspaceEntries
                          end
                     else workspaceEntries) acc entries)
          ∧ {| we_name := de_name entry; we_workspaceJson := workspaceJson |} ∈
            foldl (λ workspaceEntries entry0,
                     if de_isDirectory entry0
                     then match de_workspaceJson entry0 with
                          | Some workspaceJson0 =>
                              workspaceEntries ++
                                [{| we_name := de_name entry0;
                                    we_workspaceJson := workspaceJson0 |}]
                          | None => workspaceEntries
                          end
                     else workspaceEntries) acc entries) as H; [|apply H].
  induction entries as [|first rest IH]; [by apply elem_of_nil in Hin|].
  intros acc. cbn [foldl].
  assert (∀ acc' : list WorkspaceEntry, ∀ x, x ∈ acc' → x ∈
            foldl (λ workspaceEntries entry0,
                     if de_isDirectory entry0
                     then match de_workspaceJson entry0 with
                          | Some workspaceJson0 =>
                              workspaceEntries ++
                                [{| we_name := de_name entry0;
                                    we_workspaceJson := workspaceJson0 |}]
                          | None => workspaceEntries
                          end
                     else workspaceEntries) acc' rest) as Hkeep.
  { clear. induction rest as [|e rest IH]; intros acc' x Hx; [done|].
    cbn [foldl]. apply IH.
    destruct (de_isDirectory e); [|done].
    destruct (de_workspaceJson e); [|done].
    apply elem_of_app. by left. }
  split.
  - intros x Hx. apply Hkeep.
    destruct (de_isDirectory first); [|done].
    destruct (de_workspaceJson first); [|done].
    apply elem_of_app. by left.
  - apply elem_of_cons in Hin as [<-|Hin].
    + apply Hkeep. rewrite Hdir, Hjson. apply elem_of_app. right. by left.
    + by apply IH.
Qed.

(** A directory that holds a [workspace.json] and no [state.vscdb] makes the
    whole project listing fail. *)
Lemma Projects_GET_fails fs entries entry workspaceJson :
  fs_entries fs = Some entries →
  entry ∈ entries → de_isDirectory entry = true →
  de_workspaceJson entry = Some workspaceJson →
  stat_stateDb entries (de_name entry) = Thrown IOError →
  Projects.GET fs = Failure 500 "Failed to get workspaces".
Proof.
  intros Hfs Hin Hdir Hjson Hstat. unfold Projects.GET, readdir. rewrite Hfs.
  cbn [mbind Res_bind].
  edestruct (projectLoop_throws entries) with
    (entry := {| we_name := de_name entry; we_workspaceJson := workspaceJson |})
    as [e ->]; [|exact Hstat|done].
  by apply collectWorkspaceEntries_elem.
Qed.

End ListingFacts.

Module MissingStore.

(** Two workspace directories; the first has its [workspace.json] and no
    [state.vscdb], the second has both files. *)
Definition storage : Storage :=
  {| fs_entries :=
       Some [ Examples.workspaceDirWithoutStore "ws1" "file:///home/dev/first";
              Examples.workspaceDir "ws2" "file:///home/dev/second" 1700000000000 ];
     fs_globalDb := None |}.

End MissingStore.

(** C3.  The claim holds for the workspace listing and is broken by the
    project listing.  On a storage with a directory [ws1] that has lost its
    [state.vscdb] and a complete directory [ws2], the workspace listing skips
    [ws1] and answers with [ws2]; the project listing fails as a whole,
    because it reads the time of last modification of every store file
    outside of any [try] of its loop. *)
Theorem missing_store_fails_project_listing :
  Workspaces.GET MissingStore.storage
  = Json [ {| Workspaces.ws_id := "ws2";
              Workspaces.ws_folder := Some "file:///home/dev/second";
              Workspaces.ws_lastModified := 1700000000000;
              Workspaces.ws_chatCount := 0 |} ]
  ∧ Projects.GET MissingStore.storage = Failure 500 "Failed to get workspaces".
Proof. split; vm_compute; reflexivity. Qed.

(** C8.  The formatter is a function of the payload alone: it never throws,
    and its output is the concatenation of eleven sections in one fixed order
    (code changes, file path, command, search results, web results, tool name
    with parameters and result, actions taken, files modified, git status,
    directory listing, web search results), each section being computed from
    the property it reports and from nothing else.  Two applications to the
    same payload give the same text, and a property the formatter does not
    read (the id the route adds to a diff) does not change the text. *)
Theorem formatter_output_is_fixed_by_the_payload :
  (∀ action, ∃ text, Format.formatToolAction action = Ok text)
  ∧ (∀ action first second,
        Format.formatToolAction action = first →
        Format.formatToolAction action = second → first = second)
  ∧ Format.formatToolAction None = Ok ""
  ∧ (∀ action,
        Format.formatToolAction (Some action)
        = Ok (JS.join ""
                [ FormatFacts.codeChangesSection (act_newModelDiffWrtV0 action);
                  FormatFacts.filePathSection (act_filePath action);
                  FormatFacts.commandSection (act_command action);
                  FormatFacts.searchResultsSection (act_searchResults action);
                  FormatFacts.webResultsSection (act_webResults action);
                  FormatFacts.toolSection (act_toolName action) (act_parameters action)
                    (act_result action);
                  FormatFacts.actionsTakenSection (act_actionsTaken action);
                  FormatFacts.filesModifiedSection (act_filesModified action);
                  FormatFacts.gitStatusSection (act_gitStatus action);
                  FormatFacts.directoryListedSection (act_directoryListed action);
                  FormatFacts.webSearchResultsSection (act_webSearchResults action) ]))
  ∧ (∀ action diffId,
        Format.formatToolAction (Some (Tabs.setDiffId action diffId))
        = Format.formatToolAction (Some action)).
Proof.
  repeat apply conj.
  - intros [action|]; [|by exists ""].
    rewrite FormatFacts.formatToolAction_ok. eauto.
  - by intros action first second <- <-.
  - reflexivity.
  - apply FormatFacts.formatToolAction_ok.
  - intros action diffId. by rewrite !FormatFacts.formatToolAction_ok.
Qed.

Lemma formatter_output_is_fixed_by_the_payload_witness :
  Format.formatToolAction (Some (Examples.fileDiff "/home/dev/proj/a.ts"))
  = Ok (LF +:+ LF +:+ "**File:** /home/dev/proj/a.ts").
Proof.
  apply (proj1 (proj2 formatter_output_is_fixed_by_the_payload)
           (Some (Examples.fileDiff "/home/dev/proj/a.ts"))).
  - reflexivity.
  - vm_compute. reflexivity.
Defined.

(** C9, as stated, fails for the payloads that the route takes for valid:
    a row enters the bubble map as soon as its value decodes to an object,
    and the extraction throws a [TypeError], outside of its [try], when the
    [text] of such a payload is truthy and not a string (a number, say), and
    when its [codeBlocks] hold [null]. *)
Lemma extraction_throws_on_ill_typed_payload :
  Loose.extractTextFromBubble
    {| Loose.lb_text := Some Loose.NotAString; Loose.lb_richText := None;
       Loose.lb_codeBlocks := None |}
  = Thrown TypeError
  ∧ Loose.extractTextFromBubble
      {| Loose.lb_text := Some (Loose.AString "hi"); Loose.lb_richText := None;
         Loose.lb_codeBlocks := Some [None] |}
    = Thrown TypeError.
Proof. split; reflexivity. Qed.

(** C9, amended.  For every bubble payload whose properties have the types
    of the embedding (the text a string, the code blocks objects), text
    extraction never throws: it returns the base text followed by the fenced
    sections of the attached code blocks, whichever branch gave the base
    text.  A code block with a content gives two line feeds, the fence and
    the language (nothing when there is none), a line feed, the content, a
    line feed and the fence; a code block without content gives nothing.
    The base text is the direct text when it holds more than white space;
    else the flattened rich text (depth first: a text leaf gives its text, a
    code node its children between fences, any other node its children)
    when the rich text decodes to a tree; else the empty string.  A payload
    with neither a direct text that is not blank nor a rich text yields the
    fenced code blocks alone, and the empty string when it has no code
    block: never an error. *)
Theorem text_extraction_is_total (bubble : Bubble) :
  let fenced := λ codeBlock : CodeBlock,
    if JS.present JS.truthy (cb_content codeBlock)
    then LF +:+ LF +:+ fence +:+ JS.show_or (cb_language codeBlock) "" +:+ LF
            +:+ JS.show (cb_content codeBlock) +:+ LF +:+ fence
    else "" in
  let attached :=
    foldr (λ codeBlock rest, fenced codeBlock +:+ rest) "" (items (b_codeBlocks bubble)) in
  (∃ text, Loose.extractTextFromBubble (Loose.typed bubble) = Ok text)
  ∧ Loose.extractTextFromBubble (Loose.typed bubble) = Extract.extractTextFromBubble bubble
  ∧ Extract.extractTextFromBubble bubble = Ok (ExtractFacts.baseText bubble +:+ attached)
  ∧ (∃ text, Extract.extractTextFromBubble bubble = Ok text)
  ∧ Extract.extractTextFromBubble bubble
    = Ok (ExtractFacts.baseText bubble +:+ ExtractFacts.codeBlocksText bubble)
  ∧ (∀ text, b_text bubble = Some text → JS.trim text ≠ "" →
             ExtractFacts.baseText bubble = text
             ∧ Extract.extractTextFromBubble bubble = Ok (text +:+ attached))
  ∧ (JS.present (λ text, JS.truthy (JS.trim text)) (b_text bubble) = false →
     ∀ richTextData root children,
       b_richText bubble = Some (Encodes richTextData) →
       rt_root richTextData = Some root → root_children root = Some children →
       ExtractFacts.baseText bubble = Extract.extractTextFromRichText children
       ∧ Extract.extractTextFromBubble bubble
         = Ok (Extract.extractTextFromRichText children +:+ attached))
  ∧ (JS.present (λ text, JS.truthy (JS.trim text)) (b_text bubble) = false →
     b_richText bubble = None ∨ b_richText bubble = Some Malformed →
     ExtractFacts.baseText bubble = ""
     ∧ Extract.extractTextFromBubble bubble = Ok (ExtractFacts.codeBlocksText bubble)
     ∧ Extract.extractTextFromBubble bubble = Ok attached
     ∧ (nonEmpty (b_codeBlocks bubble) = false
        → Extract.extractTextFromBubble bubble = Ok ""))
  ∧ (∀ type text children,
        Extract.appended (mkRichNode type text children)
        = if bool_decide (type = Some "text") && JS.present JS.truthy text
          then JS.show text
          else match children with
               | Some cs =>
                   if bool_decide (type = Some "code")
                   then (LF +:+ fence +:+ LF) +:+ Extract.extractTextFromRichText cs
                          +:+ (LF +:+ fence +:+ LF)
                   else Extract.extractTextFromRichText cs
               | None => ""
               end)
  ∧ Extract.extractTextFromRichText [] = ""
  ∧ (∀ child rest,
        Extract.extractTextFromRichText (child :: rest)
        = Extract.appended child +:+ Extract.extractTextFromRichText rest).
Proof.
  cbv zeta.
  assert (∀ text, JS.truthy text && JS.truthy (JS.trim text) = JS.truthy (JS.trim text))
    as Hdirect.
  { intros text. destruct (JS.truthy (JS.trim text)) eqn:E; [|by rewrite andb_false_r].
    by rewrite (JSFacts.truthy_trim_truthy _ E). }
  assert (JS.present (λ text, JS.truthy text && JS.truthy (JS.trim text)) (b_text bubble)
          = JS.present (λ text, JS.truthy (JS.trim text)) (b_text bubble)) as Hpresent.
  { destruct (b_text bubble) as [text|]; [apply Hdirect|done]. }
  assert (Extract.extractTextFromBubble bubble
          = Ok (ExtractFacts.baseText bubble
                +:+ foldr (λ codeBlock rest,
                             (if JS.present JS.truthy (cb_content codeBlock)
                              then LF +:+ LF +:+ fence
                                      +:+ JS.show_or (cb_language codeBlock) "" +:+ LF
                                      +:+ JS.show (cb_content codeBlock) +:+ LF +:+ fence
                              else "") +:+ rest)
                          "" (items (b_codeBlocks bubble)))) as Hattached.
  { rewrite ExtractFacts.extractTextFromBubble_ok, ExtractFacts.codeBlocksText_eq.
    reflexivity. }
  assert (JS.present (λ text, JS.truthy (JS.trim text)) (b_text bubble) = false →
          b_richText bubble = None ∨ b_richText bubble = Some Malformed →
          ExtractFacts.baseText bubble = "") as Hnone.
  { intros Hblank Hrich. unfold ExtractFacts.baseText. rewrite Hpresent, Hblank.
    by destruct Hrich as [-> | ->]. }
  repeat apply conj.
  - rewrite ExtractFacts.extractTextFromBubble_typed,
      ExtractFacts.extractTextFromBubble_ok. eauto.
  - apply ExtractFacts.extractTextFromBubble_typed.
  - exact Hattached.
  - rewrite ExtractFacts.extractTextFromBubble_ok. eauto.
  - apply ExtractFacts.extractTextFromBubble_ok.
  - intros text Htext Hnonblank.
    assert (ExtractFacts.baseText bubble = text) as Hbase; [|by rewrite Hattached, Hbase].
    unfold ExtractFacts.baseText.
    rewrite Hpresent, Htext. cbn [JS.present JS.show].
    apply JSFacts.truthy_true_iff in Hnonblank. by rewrite Hnonblank.
  - intros Hblank richTextData root children Hrich Hroot Hchildren.
    assert (ExtractFacts.baseText bubble = Extract.extractTextFromRichText children)
      as Hbase; [|by rewrite Hattached, Hbase].
    unfold ExtractFacts.baseText. by rewrite Hpresent, Hblank, Hrich, Hroot, Hchildren.
  - intros Hblank Hrich. specialize (Hnone Hblank Hrich).
    split; [exact Hnone|].
    split; [by rewrite ExtractFacts.extractTextFromBubble_ok, Hnone|].
    split; [by rewrite Hattached, Hnone|].
    intros Hempty. rewrite ExtractFacts.extractTextFromBubble_ok, Hnone.
    unfold ExtractFacts.codeBlocksText.
    by destruct (b_codeBlocks bubble) as [[|block blocks]|].
  - apply ExtractFacts.appended_eq.
  - reflexivity.
  - apply ExtractFacts.extractTextFromRichText_cons.
Qed.

Lemma text_extraction_is_total_witness :
  Extract.extractTextFromBubble
    {| b_text := Some "hi"; b_richText := None;
       b_codeBlocks := Some [ {| cb_content := Some "x"; cb_language := Some "ts" |};
                              {| cb_content := None; cb_language := Some "js" |} ];
       b_timestamp := None; b_relevantFiles := None;
       b_attachedFileCodeChunksUris := None; b_context := None |}
  = Ok ("hi" +:+ LF +:+ LF +:+ fence +:+ "ts" +:+ LF +:+ "x" +:+ LF +:+ fence)
  ∧ Extract.extractTextFromBubble
      {| b_text := Some "  "; b_richText := Some Malformed; b_codeBlocks := None;
         b_timestamp := None; b_relevantFiles := None;
         b_attachedFileCodeChunksUris := None; b_context := None |}
    = Ok "".
Proof.
  split.
  - pose proof (text_extraction_is_total
                  {| b_text := Some "hi"; b_richText := None;
                     b_codeBlocks :=
                       Some [ {| cb_content := Some "x"; cb_language := Some "ts" |};
                              {| cb_content := None; cb_language := Some "js" |} ];
                     b_timestamp := None; b_relevantFiles := None;
                     b_attachedFileCodeChunksUris := None; b_context := None |})
      as (_ & _ & _ & _ & _ & Hdirect & _).
    destruct (Hdirect "hi") as [_ Hresult]; [reflexivity|discriminate|].
    exact Hresult.
  - pose proof (text_extraction_is_total
                  {| b_text := Some "  "; b_richText := Some Malformed;
                     b_codeBlocks := None;
                     b_timestamp := None; b_relevantFiles := None;
                     b_attachedFileCodeChunksUris := None; b_context := None |})
      as (_ & _ & _ & _ & _ & _ & _ & Hblank & _).
    destruct Hblank as (_ & _ & _ & Hempty); [reflexivity|by right|].
    apply Hempty. reflexivity.
Defined.

(** * Further properties of the routes *)

(** ** Keys of the global store *)

Module KeyFacts.
Import JS.

(** The character [c] occurs in [s]. *)
Fixpoint occurs (c : ascii) (s : string) : bool :=
  match s with
  | EmptyString => false
  | String d s' => Ascii.eqb d c || occurs c s'
  end.

Definition sep_string (sep : ascii) : string := String sep EmptyString.

Lemma split_nonempty sep s : split sep s ≠ [].
Proof.
  destruct s as [|c s]; [done|]. cbn [split].
  destruct (Ascii.eqb c sep); [done|]. by destruct (split sep s).
Qed.

Lemma join_cons sep x y l : join sep (x :: y :: l) = x +:+ sep +:+ join sep (y :: l).
Proof. reflexivity. Qed.

(** Joining the segments gives the string back. *)
Lemma join_split sep s : join (sep_string sep) (split sep s) = s.
Proof.
  induction s as [|c s IH]; [done|]. cbn [split].
  pose proof (split_nonempty sep s) as Hne.
  destruct (split sep s) as [|w ws] eqn:E; [done|].
  destruct (Ascii.eqb_spec c sep) as [->|Hc].
  - by rewrite join_cons, IH.
  - destruct ws as [|w' ws'].
    + cbn [join] in *. by rewrite IH.
    + rewrite join_cons in *. by rewrite <- IH.
Qed.

(** No segment holds the separator. *)
Lemma split_no_sep sep s : Forall (λ w, occurs sep w = false) (split sep s).
Proof.
  induction s as [|c s IH]; [by repeat constructor|]. cbn [split].
  destruct (Ascii.eqb_spec c sep) as [->|Hc]; [by constructor|].
  pose proof (split_nonempty sep s) as Hne.
  destruct (split sep s) as [|w ws]; [done|].
  apply Forall_cons in IH as [Hw Hws]. constructor; [|done].
  cbn [occurs]. rewrite Hw. by destruct (Ascii.eqb_spec c sep).
Qed.

(** A first segment without separator, then a separator: the split cuts
    there. *)
Lemma split_app sep a b :
  occurs sep a = false →
  split sep (a +:+ sep_string sep +:+ b) = a :: split sep b.
Proof.
  induction a as [|c a IH]; intros Ha.
  - rewrite JSFacts.app_nil_l. unfold sep_string. rewrite JSFacts.app_cons.
    cbn [split]. by rewrite Ascii.eqb_refl, JSFacts.app_nil_l.
  - cbn [occurs] in Ha. apply orb_false_iff in Ha as [Hc Ha].
    rewrite JSFacts.app_cons. cbn [split]. rewrite Hc. by rewrite (IH Ha).
Qed.

Lemma split_whole sep a : occurs sep a = false → split sep a = [a].
Proof.
  induction a as [|c a IH]; intros Ha; [done|].
  cbn [occurs] in Ha. apply orb_false_iff in Ha as [Hc Ha].
  cbn [split]. rewrite Hc. by rewrite (IH Ha).
Qed.

End KeyFacts.

(** ** Maps that group the rows of the global store *)

Section GroupingFacts.
Context {Row V : Type}.
Variable keyOf : Row → option string.
Variable valuesOf : Row → option (list V).

(** A builder step: the values of a row go to the end of the list kept
    under the key of the row. *)
Definition groupStep (m : gmap string (list V)) (row : Row) : gmap string (list V) :=
  match keyOf row with
  | Some k =>
      match valuesOf row with
      | Some vs => <[k := default [] (m !! k) ++ vs]> m
      | None => m
      end
  | None => m
  end.

(** The values that the rows give to the key [c], in the order of the rows. *)
Fixpoint grouped (c : string) (rows : list Row) : list V :=
  match rows with
  | [] => []
  | row :: rest =>
      (if bool_decide (keyOf row = Some c) then default [] (valuesOf row) else [])
        ++ grouped c rest
  end.

Lemma groupStep_lookup m row c :
  default [] (groupStep m row !! c)
  = default [] (m !! c)
    ++ (if bool_decide (keyOf row = Some c) then default [] (valuesOf row) else []).
Proof.
  unfold groupStep.
  destruct (keyOf row) as [k|]; [|by rewrite bool_decide_eq_false_2, app_nil_r].
  destruct (valuesOf row) as [vs|]; cbn [default].
  - destruct (decide (k = c)) as [->|Hne].
    + by rewrite lookup_insert_eq, bool_decide_eq_true_2.
    + rewrite lookup_insert_ne by done.
      rewrite bool_decide_eq_false_2 by congruence. by rewrite app_nil_r.
  - by destruct (bool_decide _); rewrite app_nil_r.
Qed.

Lemma foldl_groupStep_lookup rows m c :
  default [] (foldl groupStep m rows !! c) = default [] (m !! c) ++ grouped c rows.
Proof.
  revert m. induction rows as [|row rest IH]; intros m; cbn [foldl grouped].
  - by rewrite app_nil_r.
  - by rewrite IH, groupStep_lookup, <- app_assoc.
Qed.

Lemma group_lookup rows c :
  default [] (foldl groupStep ∅ rows !! c) = grouped c rows.
Proof. by rewrite foldl_groupStep_lookup, lookup_empty. Qed.

End GroupingFacts.

Lemma foldl_pointwise {A B} (f g : B → A → B) (l : list A) (b : B) :
  (∀ b x, f b x = g b x) → foldl f b l = foldl g b l.
Proof.
  intros Hfg. revert b. induction l as [|x l IH]; intros b; [done|].
  cbn [foldl]. by rewrite Hfg, IH.
Qed.

Module StoreFacts.
Import JS.

(** The diff a [codeBlockDiff] row gives to the conversation [c]. *)
Definition diffOfRow (c : string) (row : string * JsonText Action) : option Action :=
  if bool_decide (Tabs.extractChatIdFromCodeBlockDiffKey row.1 = Some c) then
    match row.2 with
    | Encodes codeBlockDiff => Some (Tabs.setDiffId codeBlockDiff (split ":" row.1 !! 2%nat))
    | Malformed => None
    end
  else None.

(** The request context a [messageRequestContext] row gives to the
    conversation [c]. *)
Definition contextOfRow (c : string) (row : string * JsonText RequestContext)
  : option RequestContext :=
  match split ":" row.1 with
  | _ :: chatId :: contextId :: _ =>
      if bool_decide (chatId = c) then
        match row.2 with
        | Encodes context => Some (Tabs.setContextId context contextId)
        | Malformed => None
        end
      else None
  | _ => None
  end.

(** The root paths a list of layout hints gives: those of the hints that
    decode and name a root path. *)
Definition rootPaths (layouts : list (JsonText Layout)) : list string :=
  omap (λ layout,
          match layout with
          | Encodes layoutObj =>
              if present truthy (lay_rootPath layoutObj)
              then Some (show (lay_rootPath layoutObj)) else None
          | Malformed => None
          end) layouts.

(** The layout hints a [messageRequestContext] row gives to the
    conversation [c]. *)
Definition hintsOfRow (c : string) (row : string * JsonText RequestContext) : list string :=
  if bool_decide (split ":" row.1 !! 1%nat = Some c) then
    match row.2 with
    | Encodes context => rootPaths (default [] (rc_projectLayouts context))
    | Malformed => []
    end
  else [].

Lemma grouped_singletons {Row V} (keyOf : Row → option string) (valueOf : Row → option V)
    (pick : string → Row → option V) c rows :
  (∀ row, pick c row = if bool_decide (keyOf row = Some c) then valueOf row else None) →
  grouped keyOf (λ row, (λ v, [v]) <$> valueOf row) c rows = omap (pick c) rows.
Proof.
  intros Hpick. induction rows as [|row rest IH]; [done|].
  cbn [grouped omap list_omap]. fold (omap (pick c) rest). rewrite IH, Hpick.
  destruct (bool_decide _); [|done]. by destruct (valueOf row).
Qed.

Lemma buildCodeBlockDiffMap_lookup rows c :
  default [] (Tabs.buildCodeBlockDiffMap rows !! c) = omap (diffOfRow c) rows.
Proof.
  unfold Tabs.buildCodeBlockDiffMap.
  rewrite (foldl_pointwise _
             (groupStep (λ row, Tabs.extractChatIdFromCodeBlockDiffKey row.1)
                        (λ row, (λ v, [v]) <$>
                                  match row.2 with
                                  | Encodes d =>
                                      Some (Tabs.setDiffId d (split ":" row.1 !! 2%nat))
                                  | Malformed => None
                                  end))).
  - rewrite group_lookup. apply grouped_singletons. intros row. reflexivity.
  - intros m row. unfold groupStep.
    destruct (Tabs.extractChatIdFromCodeBlockDiffKey row.1); [|done].
    by destruct row.2.
Qed.

Lemma buildMessageRequestContextMap_lookup rows c :
  default [] (Tabs.buildMessageRequestContextMap rows !! c) = omap (contextOfRow c) rows.
Proof.
  unfold Tabs.buildMessageRequestContextMap.
  rewrite (foldl_pointwise _
             (groupStep (λ row, match split ":" row.1 with
                                | _ :: chatId :: _ :: _ => Some chatId
                                | _ => None
                                end)
                        (λ row, (λ v, [v]) <$>
                                  match split ":" row.1, row.2 with
                                  | _ :: _ :: contextId :: _, Encodes context =>
                                      Some (Tabs.setContextId context contextId)
                                  | _, _ => None
                                  end))).
  - rewrite group_lookup. apply grouped_singletons. intros row.
    unfold contextOfRow.
    destruct (split ":" row.1) as [|s0 [|chatId [|contextId l]]];
      try by rewrite bool_decide_eq_false_2.
    destruct (decide (chatId = c)) as [->|Hne].
    + by rewrite !bool_decide_eq_true_2.
    + rewrite !bool_decide_eq_false_2; [done|congruence|done].
  - intros m row. unfold groupStep.
    destruct (split ":" row.1) as [|s0 [|chatId [|contextId l]]]; try done.
    by destruct row.2.
Qed.

Lemma push_rootPaths layouts known :
  foldl (λ paths layout,
           match JSON_parse layout with
           | Ok layoutObj =>
               if present truthy (lay_rootPath layoutObj)
               then paths ++ [show (lay_rootPath layoutObj)]
               else paths
           | Thrown parseError => paths
           end) known layouts
  = known ++ rootPaths layouts.
Proof.
  revert known. induction layouts as [|layout rest IH]; intros known.
  - by rewrite app_nil_r.
  - cbn [foldl]. rewrite IH. unfold rootPaths. cbn [omap list_omap].
    destruct layout as [|layoutObj]; cbn [JSON_parse]; [done|].
    destruct (present truthy (lay_rootPath layoutObj)); [|done].
    by rewrite <- app_assoc.
Qed.

Lemma grouped_hints rows c :
  grouped (λ row : string * JsonText RequestContext, split ":" row.1 !! 1%nat)
          (λ row, match row.2 with
                  | Encodes context => rootPaths <$> rc_projectLayouts context
                  | Malformed => None
                  end) c rows
  = concat (hintsOfRow c <$> rows).
Proof.
  induction rows as [|row rest IH]; [done|].
  cbn [grouped fmap list_fmap concat]. rewrite IH. f_equal.
  unfold hintsOfRow. destruct (bool_decide _); [|done].
  destruct row.2 as [|context]; [done|]. by destruct (rc_projectLayouts context).
Qed.

Lemma buildProjectLayoutsMap_lookup rows c :
  default [] (buildProjectLayoutsMap rows !! c) = concat (hintsOfRow c <$> rows).
Proof.
  unfold buildProjectLayoutsMap.
  rewrite (foldl_pointwise _
             (groupStep (λ row, split ":" row.1 !! 1%nat)
                        (λ row, match row.2 with
                                | Encodes context => rootPaths <$> rc_projectLayouts context
                                | Malformed => None
                                end))).
  - by rewrite group_lookup, grouped_hints.
  - intros m row. unfold groupStep.
    destruct (split ":" row.1 !! 1%nat) as [composerId|]; [|done].
    destruct row.2 as [|context]; cbn [JSON_parse]; [done|].
    destruct (rc_projectLayouts context) as [layouts|]; cbn [fmap option_fmap option_map];
      [|done].
    by rewrite push_rootPaths.
Qed.

End StoreFacts.

(** ** Maps in which a later row replaces an earlier one *)

Section OverwriteFacts.
Context {X V : Type}.
Variable entryOf : X → option (string * V).

Definition overwriteStep (m : gmap string V) (x : X) : gmap string V :=
  match entryOf x with
  | Some (k, v) => <[k := v]> m
  | None => m
  end.

(** The value [x] writes under the key [k], if it writes there. *)
Definition written (k : string) (x : X) : option V :=
  match entryOf x with
  | Some (k', v) => if bool_decide (k' = k) then Some v else None
  | None => None
  end.

Lemma foldl_overwriteStep_lookup xs m k :
  foldl overwriteStep m xs !! k
  = match last (omap (written k) xs) with
    | Some v => Some v
    | None => m !! k
    end.
Proof.
  revert m. induction xs as [|x xs IH]; intros m; [done|].
  cbn [foldl omap list_omap]. fold (omap (written k) xs). rewrite IH.
  unfold overwriteStep, written at 2.
  destruct (entryOf x) as [[k' v]|]; [|done].
  destruct (decide (k' = k)) as [->|Hne].
  - rewrite bool_decide_eq_true_2 by done. rewrite last_cons, lookup_insert_eq.
    by destruct (last (omap (written k) xs)).
  - rewrite bool_decide_eq_false_2 by done. by rewrite lookup_insert_ne.
Qed.

Lemma overwrite_lookup xs k :
  foldl overwriteStep ∅ xs !! k = last (omap (written k) xs).
Proof.
  rewrite foldl_overwriteStep_lookup, lookup_empty.
  by destruct (last (omap (written k) xs)).
Qed.

End OverwriteFacts.

Module IndexFacts.
Import JS.

(** The id under which a [bubbleId] row is stored: the third segment of its
    key, whatever the second segment (the conversation) is. *)
Definition bubbleIdOfKey (key : string) : string := show (split ":" key !! 2%nat).

(** The bubble a row stores under the id [bubbleId]. *)
Definition bubbleOfRow (bubbleId : string) (row : string * JsonText Bubble)
  : option Bubble :=
  match row.2 with
  | Encodes bubble =>
      if bool_decide (bubbleIdOfKey row.1 = bubbleId) then Some bubble else None
  | Malformed => None
  end.

Lemma buildBubbleMap_lookup rows bubbleId :
  buildBubbleMap rows !! bubbleId = last (omap (bubbleOfRow bubbleId) rows).
Proof.
  unfold buildBubbleMap.
  rewrite (foldl_pointwise _
             (overwriteStep (λ row : string * JsonText Bubble,
                               match row.2 with
                               | Encodes bubble => Some (bubbleIdOfKey row.1, bubble)
                               | Malformed => None
                               end))).
  - rewrite overwrite_lookup. f_equal.
    induction rows as [|row rest IH]; [done|].
    cbn [omap list_omap]. fold (omap (bubbleOfRow bubbleId) rest). rewrite <- IH.
    unfold written, bubbleOfRow. by destruct row.2.
  - intros m row. unfold overwriteStep. by destruct row.2.
Qed.

(** The key of the bubble [bubbleId] of the conversation [chatId]. *)
Definition bubbleKey (chatId bubbleId : string) : string :=
  "bubbleId:" +:+ chatId +:+ ":" +:+ bubbleId.

Lemma bubbleIdOfKey_bubbleKey chatId bubbleId :
  KeyFacts.occurs ":" chatId = false → KeyFacts.occurs ":" bubbleId = false →
  bubbleIdOfKey (bubbleKey chatId bubbleId) = bubbleId.
Proof.
  intros Hchat Hbubble. unfold bubbleIdOfKey, bubbleKey.
  change ("bubbleId:" +:+ chatId +:+ ":" +:+ bubbleId)
    with ("bubbleId" +:+ KeyFacts.sep_string ":" +:+
          (chatId +:+ KeyFacts.sep_string ":" +:+ bubbleId)).
  rewrite KeyFacts.split_app by done.
  rewrite KeyFacts.split_app by done.
  by rewrite KeyFacts.split_whole.
Qed.

(** The name under which a workspace entry is indexed: the last segment of
    its folder. *)
Definition projectNameOf (entry : WorkspaceEntry) : option string :=
  match we_workspaceJson entry with
  | Encodes workspaceData =>
      if present truthy (wd_folder workspaceData) then
        let folderName :=
          Attribution.folderNameOf
            (removeFirst Attribution.scheme (show (wd_folder workspaceData))) in
        if present truthy folderName then Some (show folderName) else None
      else None
  | Malformed => None
  end.

Lemma createProjectNameToWorkspaceIdMap_lookup workspaceEntries projectName :
  Attribution.createProjectNameToWorkspaceIdMap workspaceEntries !! projectName
  = we_name <$>
      last (List.filter (λ entry, bool_decide (projectNameOf entry = Some projectName))
                        workspaceEntries).
Proof.
  unfold Attribution.createProjectNameToWorkspaceIdMap.
  rewrite (foldl_pointwise _
             (overwriteStep (λ entry, (λ name, (name, we_name entry))
                                        <$> projectNameOf entry))).
  - rewrite overwrite_lookup.
    induction workspaceEntries as [|entry rest IH]; [done|].
    cbn [omap list_omap List.filter].
    fold (omap (written (λ entry0, (λ name, (name, we_name entry0))
                                     <$> projectNameOf entry0) projectName) rest).
    unfold written at 1.
    destruct (projectNameOf entry) as [name|]; cbn [fmap option_fmap option_map].
    + destruct (decide (name = projectName)) as [->|Hne].
      * rewrite !bool_decide_eq_true_2 by done. rewrite !last_cons, IH.
        by destruct (last (List.filter _ rest)).
      * rewrite !bool_decide_eq_false_2 by congruence. exact IH.
    + rewrite bool_decide_eq_false_2 by done. exact IH.
  - intros m entry. unfold overwriteStep, projectNameOf.
    destruct (we_workspaceJson entry) as [|workspaceData]; cbn [JSON_parse]; [done|].
    destruct (present truthy (wd_folder workspaceData)); [|done].
    cbv zeta. by destruct (present truthy (Attribution.folderNameOf _)).
Qed.

(** Every id of the index is the name of a workspace entry whose folder
    gives the name it is indexed under. *)
Lemma createProjectNameToWorkspaceIdMap_sound workspaceEntries projectName workspaceId :
  Attribution.createProjectNameToWorkspaceIdMap workspaceEntries !! projectName
  = Some workspaceId →
  ∃ entry, entry ∈ workspaceEntries ∧ we_name entry = workspaceId
           ∧ projectNameOf entry = Some projectName.
Proof.
  rewrite createProjectNameToWorkspaceIdMap_lookup.
  destruct (last _) as [entry|] eqn:Hlast; [|done].
  intros [= <-]. exists entry.
  apply last_Some_elem_of in Hlast.
  apply list_elem_of_In, filter_In in Hlast as [Hin Hname].
  apply bool_decide_eq_true_1 in Hname.
  split; [by apply list_elem_of_In|done].
Qed.

End IndexFacts.

(** ** What the resolver can answer *)

Module ResolverFacts.
Import JS Attribution AttributionFacts.

Lemma firstTruthy_elem {A} (answer : A → option string) xs projectId :
  firstTruthy answer xs = Some projectId → ∃ x, x ∈ xs ∧ answer x = Some projectId.
Proof.
  induction xs as [|x xs IH]; [done|]. cbn [firstTruthy].
  destruct (present truthy (answer x)).
  - intros H. exists x. split; [by left|done].
  - intros (y & Hy & Hanswer)%IH. exists y. split; [by right|done].
Qed.

Lemma projectOfPath_sound workspaceEntries normalizedPath projectId :
  projectOfPath workspaceEntries normalizedPath = Some projectId →
  ∃ entry, entry ∈ workspaceEntries ∧ we_name entry = projectId
           ∧ holds normalizedPath entry = true.
Proof.
  unfold projectOfPath.
  destruct (List.find _ _) as [entry|] eqn:Hfind; [|done].
  intros [= <-]. apply find_some in Hfind as [Hin Hholds].
  exists entry. split; [by apply list_elem_of_In|done].
Qed.

Lemma holds_folder normalizedPath entry :
  holds normalizedPath entry = true → is_Some (folderOf entry).
Proof. unfold holds. by destruct (folderOf entry). Qed.

Lemma projectNameOf_folder entry projectName :
  IndexFacts.projectNameOf entry = Some projectName → is_Some (folderOf entry).
Proof.
  unfold IndexFacts.projectNameOf, folderOf.
  destruct (we_workspaceJson entry) as [|workspaceData]; [done|].
  destruct (wd_folder workspaceData) as [folder|]; [|done].
  cbn [present]. by destruct (truthy folder).
Qed.

(** A project found through a path is a workspace entry with a folder. *)
Definition known (workspaceEntries : list WorkspaceEntry) (projectId : string) : Prop :=
  ∃ entry, entry ∈ workspaceEntries ∧ we_name entry = projectId
           ∧ is_Some (folderOf entry).

Lemma reference_known workspaceEntries path projectId :
  reference workspaceEntries path = Some projectId → known workspaceEntries projectId.
Proof.
  unfold reference, tested. destruct (present truthy path); [|done].
  intros (entry & Hin & Hname & Hholds)%projectOfPath_sound.
  exists entry. eauto using holds_folder.
Qed.

Lemma firstWorkspaceId_elem projectNameToWorkspaceId projectLayouts workspaceId :
  firstWorkspaceId projectNameToWorkspaceId projectLayouts = Some workspaceId →
  ∃ hint, hint ∈ projectLayouts
          ∧ read projectNameToWorkspaceId hint = Some workspaceId
          ∧ truthyFound workspaceId = true.
Proof.
  induction projectLayouts as [|projectName rest IH]; [done|]. cbn [firstWorkspaceId].
  destruct (read projectNameToWorkspaceId projectName) as [found|] eqn:Hread.
  - destruct (truthyFound found) eqn:Htruthy.
    + intros [= <-]. exists projectName. split; [by left|done].
    + intros (hint & Hin & H)%IH. exists hint. split; [by right|done].
  - intros (hint & Hin & H)%IH. exists hint. split; [by right|done].
Qed.

Lemma read_Stored (obj : gmap string string) key value :
  read obj key = Some (Stored value) → obj !! key = Some value.
Proof.
  unfold read. destruct (bool_decide (key = "__proto__")); [done|].
  destruct (obj !! key) as [v|]; [by intros [= <-]|].
  by destruct (bool_decide (key ∈ prototypeMembers)).
Qed.

Lemma read_Inherited (obj : gmap string string) key member :
  read obj key = Some (Inherited member) →
  member = key ∧ key ∈ prototypeMembers ∧ (key = "__proto__" ∨ obj !! key = None).
Proof.
  unfold read. destruct (decide (key = "__proto__")) as [->|Hne].
  - rewrite bool_decide_eq_true_2 by done. intros [= <-].
    split; [done|]. split; [|by left]. apply list_elem_of_In. cbn. tauto.
  - rewrite bool_decide_eq_false_2 by done.
    destruct (obj !! key) as [v|]; [done|].
    destruct (decide (key ∈ prototypeMembers)) as [Hin|Hout].
    + rewrite bool_decide_eq_true_2 by done. intros [= <-]. eauto.
    + by rewrite bool_decide_eq_false_2.
Qed.

(** The resolver answers with truthy values only. *)
Lemma determineProjectForConversation_truthy
    projectLayoutsMap projectNameToWorkspaceId workspaceEntries bubbleMap
    composerData composerId value :
  determineProjectForConversation projectLayoutsMap projectNameToWorkspaceId
    workspaceEntries bubbleMap composerData composerId = Ok (Some value) →
  truthyFound value = true.
Proof.
  rewrite determineProjectForConversation_ok.
  destruct (bool_decide (composerId ∈ prototypeMembers)); [done|]. intros Heq.
  destruct (layoutAnswer projectLayoutsMap projectNameToWorkspaceId composerId)
    as [workspaceId|] eqn:Hlayout.
  - assert (workspaceId = value) as -> by congruence.
    by eapply firstWorkspaceId_truthy.
  - destruct (firstTruthy id _) as [projectId|] eqn:Hfirst; [|done].
    assert (value = Stored projectId) as -> by (cbn in Heq; congruence).
    apply firstTruthy_truthy in Hfirst. by destruct projectId.
Qed.

(** What the resolver can answer with: the id of a workspace entry that has
    a folder, or the member inherited for a layout hint of the conversation
    that names a member of [Object.prototype]. *)
Definition answerable (projectLayoutsMap : gmap string (list string))
    (workspaceEntries : list WorkspaceEntry) (composerId : string) (value : Found) : Prop :=
  match value with
  | Stored projectId => projectId ≠ "" ∧ known workspaceEntries projectId
  | Inherited member =>
      member ∈ prototypeMembers
      ∧ member ∈ default [] (projectLayoutsMap !! composerId)
  end.

Lemma determineProjectForConversation_known
    projectLayoutsMap workspaceEntries bubbleMap composerData composerId value :
  determineProjectForConversation projectLayoutsMap
    (createProjectNameToWorkspaceIdMap workspaceEntries) workspaceEntries bubbleMap
    composerData composerId = Ok (Some value) →
  answerable projectLayoutsMap workspaceEntries composerId value.
Proof.
  rewrite determineProjectForConversation_ok.
  destruct (bool_decide (composerId ∈ prototypeMembers)); [done|]. intros Heq.
  destruct (layoutAnswer projectLayoutsMap
              (createProjectNameToWorkspaceIdMap workspaceEntries) composerId)
    as [workspaceId|] eqn:Hlayout.
  - assert (workspaceId = value) as -> by congruence. clear Heq.
    apply firstWorkspaceId_elem in Hlayout as (hint & Hin & Hread & Htruthy).
    destruct value as [projectId|member]; cbn [answerable].
    + split; [by destruct projectId|].
      apply read_Stored in Hread.
      apply IndexFacts.createProjectNameToWorkspaceIdMap_sound in Hread
        as (entry & Hentry & Hname & Hproject).
      exists entry. eauto using projectNameOf_folder.
    + apply read_Inherited in Hread as (-> & Hmember & _). done.
  - destruct (firstTruthy id
                [ newFilesAnswer workspaceEntries composerData;
                  codeBlockAnswer workspaceEntries composerData;
                  bubbleAnswer workspaceEntries bubbleMap composerData ])
      as [projectId|] eqn:Hfirst; [|done].
    assert (value = Stored projectId) as -> by (cbn in Heq; congruence). clear Heq.
    cbn [answerable].
    split; [by eapply firstTruthy_truthy|].
    apply firstTruthy_elem in Hfirst as (tier & Htier & Hanswer). unfold id in Hanswer.
    subst tier.
    repeat (apply elem_of_cons in Htier as [Htier|Htier]); [| | |by apply elem_of_nil in Htier].
    + symmetry in Htier. apply firstTruthy_elem in Htier as (file & _ & Hfile).
      by eapply reference_known.
    + symmetry in Htier. apply firstTruthy_elem in Htier as (key & _ & Hkey).
      apply projectOfPath_sound in Hkey as (entry & Hin & Hname & Hholds).
      exists entry. eauto using holds_folder.
    + symmetry in Htier. apply firstTruthy_elem in Htier as (header & _ & Hheader).
      destruct (bubbleMap !! h_bubbleId header) as [bubble|]; [|done].
      apply firstTruthy_elem in Hheader as (shape & Hshape & Hanswer). unfold id in Hanswer.
      subst shape.
      repeat (apply elem_of_cons in Hshape as [Hshape|Hshape]);
        [| | |by apply elem_of_nil in Hshape];
        symmetry in Hshape; apply firstTruthy_elem in Hshape as (x & _ & Hx);
        by eapply reference_known.
Qed.

(** A path that extends the folder of the first entry is given to that
    entry, provided the home prefix is cut from both or from neither. *)
Lemma startsWith_app_same (s t : string) : startsWith (s +:+ t) s = true.
Proof. apply JSFacts.startsWith_app. by exists t. Qed.

Lemma inside_first_folder entry rest folder path suffix :
  folderOf entry = Some folder →
  path = removeFirst scheme folder +:+ suffix →
  (startsWith (removeFirst scheme folder) home = true
   ∨ startsWith path home = false) →
  getProjectFromFilePath path (entry :: rest) = Ok (Some (we_name entry)).
Proof.
  intros Hfolder -> Hhome. rewrite getProjectFromFilePath_ok.
  unfold projectOfPath. cbn [List.find]. unfold holds, normalizedFolder.
  rewrite Hfolder.
  assert (startsWith (stripPrefix home (removeFirst scheme folder +:+ suffix))
                     (stripPrefix home (removeFirst scheme folder)) = true) as ->; [|done].
  destruct Hhome as [Hin|Hout].
  - apply JSFacts.startsWith_app in Hin as [t Ht]. rewrite Ht.
    rewrite JSFacts.app_assoc, !JSFacts.stripPrefix_app. apply startsWith_app_same.
  - rewrite (JSFacts.stripPrefix_other _ _ Hout).
    assert (startsWith (removeFirst scheme folder) home = false) as Hfolder_out.
    { destruct (startsWith (removeFirst scheme folder) home) eqn:E; [|done].
      apply JSFacts.startsWith_app in E as [t Ht]. rewrite Ht, JSFacts.app_assoc in Hout.
      by rewrite startsWith_app_same in Hout. }
    rewrite (JSFacts.stripPrefix_other _ _ Hfolder_out). apply startsWith_app_same.
Qed.

Lemma find_app_skip {A} (f : A → bool) (before rest : list A) :
  Forall (λ x, f x = false) before → List.find f (before ++ rest) = List.find f rest.
Proof.
  intros Hbefore. induction Hbefore as [|x before Hx _ IH]; [done|].
  cbn [app List.find]. by rewrite Hx.
Qed.

(** The entries before the first folder that the path extends are passed
    over. *)
Lemma first_folder_extended before entry rest folder path suffix :
  Forall (λ earlier,
            ∀ earlierFolder,
              folderOf earlier = Some earlierFolder →
              startsWith (stripPrefix home path)
                         (stripPrefix home (removeFirst scheme earlierFolder)) = false)
         before →
  folderOf entry = Some folder →
  path = removeFirst scheme folder +:+ suffix →
  (startsWith (removeFirst scheme folder) home = true
   ∨ startsWith path home = false) →
  getProjectFromFilePath path (before ++ entry :: rest) = Ok (Some (we_name entry)).
Proof.
  intros Hbefore Hfolder Hpath Hhome.
  pose proof (inside_first_folder entry rest folder path suffix Hfolder Hpath Hhome)
    as Hfirst.
  rewrite getProjectFromFilePath_ok in *. unfold projectOfPath in *.
  rewrite find_app_skip; [exact Hfirst|].
  eapply Forall_impl; [exact Hbefore|]. intros earlier Hearlier. unfold holds.
  cbv beta in Hearlier.
  destruct (folderOf earlier) as [earlierFolder|] eqn:Hearly; [|done].
  by apply Hearlier.
Qed.

End ResolverFacts.

(** ** The listings, entry by entry *)

Module ListingMore.
Import JS.

Lemma foldl_push {A B} (f : A → option B) (xs : list A) (acc : list B) :
  foldl (λ acc x, match f x with Some y => acc ++ [y] | None => acc end) acc xs
  = acc ++ omap f xs.
Proof.
  revert acc. induction xs as [|x xs IH]; intros acc; cbn [foldl omap list_omap].
  - by rewrite app_nil_r.
  - rewrite IH. fold (omap f xs). destruct (f x); [|done]. by rewrite <- app_assoc.
Qed.

(** The workspace entry kept for a directory entry: the entry is a directory
    and holds a [workspace.json]. *)
Definition kept (entry : DirEntry) : option WorkspaceEntry :=
  if de_isDirectory entry then
    (λ workspaceJson, {| we_name := de_name entry; we_workspaceJson := workspaceJson |})
      <$> de_workspaceJson entry
  else None.

Lemma collectWorkspaceEntries_eq entries :
  collectWorkspaceEntries entries = omap kept entries.
Proof.
  unfold collectWorkspaceEntries.
  rewrite (foldl_pointwise _
             (λ acc x, match kept x with Some y => acc ++ [y] | None => acc end)).
  - exact (foldl_push kept entries []).
  - intros acc entry. unfold kept. destruct (de_isDirectory entry); [|done].
    by destruct (de_workspaceJson entry).
Qed.

(** The workspace the legacy listing answers with for a directory entry: the
    entry is a directory whose store file exists and opens. *)
Definition listed (entry : DirEntry) : option Workspaces.Workspace :=
  if de_isDirectory entry then
    match de_stateDb entry with
    | Some store =>
        match Workspaces.describe entry store with
        | Ok workspace => Some workspace
        | Thrown _ => None
        end
    | None => None
    end
  else None.

Lemma Workspaces_loop_eq entries workspaces :
  Workspaces.loop entries workspaces = Ok (workspaces ++ omap listed entries).
Proof.
  revert workspaces. induction entries as [|entry rest IH]; intros workspaces.
  - cbn. by rewrite app_nil_r.
  - cbn [Workspaces.loop omap list_omap]. fold (omap listed rest).
    unfold Workspaces.step, listed at 1.
    destruct (de_isDirectory entry); cbn [mbind Res_bind]; [|apply IH].
    destruct (de_stateDb entry) as [store|]; cbn [mbind Res_bind]; [|apply IH].
    destruct (Workspaces.describe entry store) as [workspace|e];
      cbn [mbind Res_bind try_catch]; rewrite IH; [|done].
    by rewrite <- app_assoc.
Qed.

Lemma listed_id entry workspace :
  listed entry = Some workspace → Workspaces.ws_id workspace = de_name entry.
Proof.
  unfold listed, Workspaces.describe.
  destruct (de_isDirectory entry); [|done].
  destruct (de_stateDb entry) as [store|]; [|done].
  destruct (openDatabase (st_chatdata store)); cbn [mbind Res_bind]; [|done].
  by intros [= <-].
Qed.

(** The project the listing builds for a kept workspace entry when its
    store file is there. *)
Definition projectFor (entries : list DirEntry)
    (conversationMap : gmap string (list Projects.ConversationData))
    (entry : WorkspaceEntry) : option Projects.Project :=
  match stat_stateDb entries (we_name entry) with
  | Ok stats =>
      Some {| Projects.p_id := we_name entry;
              Projects.p_name := Projects.workspaceNameOf entry;
              Projects.p_conversationCount :=
                length (default [] (conversationMap !! we_name entry));
              Projects.p_lastModified := stats |}
  | Thrown _ => None
  end.

Lemma stat_stateDb_error entries name e :
  stat_stateDb entries name = Thrown e → e = IOError.
Proof.
  unfold stat_stateDb. destruct (List.find _ entries) as [dir|]; [|congruence].
  destruct (de_stateDb dir); congruence.
Qed.

Lemma projectLoop_eq entries conversationMap workspaceEntries projects :
  Projects.projectLoop entries conversationMap workspaceEntries projects
  = if forallb (λ entry, bool_decide (is_Some (projectFor entries conversationMap entry)))
               workspaceEntries
    then Ok (projects ++ omap (projectFor entries conversationMap) workspaceEntries)
    else Thrown IOError.
Proof.
  revert projects. induction workspaceEntries as [|entry rest IH]; intros projects.
  - cbn. by rewrite app_nil_r.
  - cbn [Projects.projectLoop forallb omap list_omap].
    fold (omap (projectFor entries conversationMap) rest).
    pose proof (eq_refl (projectFor entries conversationMap entry)) as Hfor.
    unfold projectFor at 2 in Hfor. unfold Projects.projectStep.
    destruct (stat_stateDb entries (we_name entry)) as [stats|e] eqn:Hstat;
      rewrite Hfor; cbn [mbind Res_bind].
    + rewrite IH, bool_decide_eq_true_2 by eauto.
      cbn [andb]. destruct (forallb _ rest); [|done]. by rewrite <- app_assoc.
    + apply stat_stateDb_error in Hstat as ->.
      rewrite bool_decide_eq_false_2; [done|]. by intros [? ?].
Qed.

Lemma omap_all_Some {A B} (f : A → option B) (xs : list A) :
  forallb (λ x, bool_decide (is_Some (f x))) xs = true →
  ∀ g : B → string, ∀ h : A → string,
    (∀ x y, f x = Some y → g y = h x) → g <$> omap f xs = h <$> xs.
Proof.
  intros Hall g h Hgh. induction xs as [|x xs IH]; [done|].
  cbn [forallb] in Hall. apply andb_true_iff in Hall as [Hx Hxs].
  apply bool_decide_eq_true_1 in Hx as [y Hy].
  cbn [omap list_omap fmap list_fmap]. rewrite Hy. cbn [fmap list_fmap].
  f_equal; [by apply Hgh|]. by apply IH.
Qed.

(** The conversation the project listing records for a [composerData] row,
    and the key it records it under: the value the resolver answers with,
    used as a property name. *)
Definition conversationOfRow
    (projectLayoutsMap : gmap string (list string))
    (projectNameToWorkspaceId : gmap string string)
    (workspaceEntries : list WorkspaceEntry) (bubbleMap : gmap string Bubble)
    (row : string * JsonText ComposerData) : option (string * Projects.ConversationData) :=
  let composerId := show (split ":" row.1 !! 1%nat) in
  match row.2 with
  | Encodes composerData =>
      match Attribution.determineProjectForConversation projectLayoutsMap
              projectNameToWorkspaceId workspaceEntries bubbleMap composerData composerId
      with
      | Ok (Some value) =>
          if truthyFound value then
          Some (keyOf value,
                {| Projects.c_composerId := composerId;
                   Projects.c_name :=
                     show_or (cd_name composerData)
                             ("Conversation " +:+ take 8 composerId);
                   Projects.c_newlyCreatedFiles :=
                     items (cd_newlyCreatedFiles composerData);
                   Projects.c_lastUpdatedAt :=
                     (if present truthyZ (cd_lastUpdatedAt composerData)
                      then cd_lastUpdatedAt composerData
                      else cd_createdAt composerData);
                   Projects.c_createdAt := cd_createdAt composerData |})
          else None
      | _ => None
      end
  | Malformed => None
  end.

Lemma Projects_composerStep_eq plm pnm wes bm conversationMap row :
  Projects.composerStep plm pnm wes bm conversationMap row
  = Ok (groupStep (λ row, fst <$> conversationOfRow plm pnm wes bm row)
                  (λ row, (λ v, [v]) <$> (snd <$> conversationOfRow plm pnm wes bm row))
                  conversationMap row).
Proof.
  unfold Projects.composerStep, groupStep, conversationOfRow.
  destruct row.2 as [|composerData]; cbn [JSON_parse mbind Res_bind try_catch]; [done|].
  destruct (Attribution.determineProjectForConversation _ _ _ _ _ _) as [[value|]|e];
    cbn [mbind Res_bind try_catch present fmap option_fmap option_map default]; [|done..].
  by destruct (truthyFound value).
Qed.

Lemma Projects_composerLoop_eq plm pnm wes bm rows conversationMap :
  Projects.composerLoop plm pnm wes bm rows conversationMap
  = Ok (foldl (groupStep (λ row, fst <$> conversationOfRow plm pnm wes bm row)
                         (λ row, (λ v, [v]) <$> (snd <$> conversationOfRow plm pnm wes bm row)))
              conversationMap rows).
Proof.
  revert conversationMap. induction rows as [|row rest IH]; intros conversationMap; [done|].
  cbn [Projects.composerLoop foldl]. rewrite Projects_composerStep_eq.
  cbn [mbind Res_bind]. apply IH.
Qed.

(** The key under which the project listing records a [composerData] row
    of the global store. *)
Definition attributionOf (entries : list DirEntry) (globalDb : GlobalDb)
    (row : ComposerRow) : option string :=
  let workspaceEntries := collectWorkspaceEntries entries in
  fst <$> conversationOfRow
            (buildProjectLayoutsMap (messageRequestContextRows globalDb))
            (Attribution.createProjectNameToWorkspaceIdMap workspaceEntries)
            workspaceEntries (buildBubbleMap (bubbleRows globalDb))
            (cr_key row, cr_value row).

Lemma omap_fmap_filter {A B C} (f : B → option C) (g : A → B) (Q : A → bool) (l : list A) :
  omap f (g <$> List.filter Q l) = omap (λ x, if Q x then f (g x) else None) l.
Proof.
  induction l as [|x l IH]; [done|]. cbn [List.filter omap list_omap].
  fold (omap (λ x, if Q x then f (g x) else None) l). rewrite <- IH.
  by destruct (Q x).
Qed.

Lemma filter_fmap_filter {A B} (f : A → B) (P : B → bool) (Q : A → bool) (l : list A) :
  length (List.filter P (f <$> List.filter Q l))
  = length (List.filter (λ x, Q x && P (f x)) l).
Proof.
  induction l as [|x l IH]; [done|]. cbn [List.filter].
  destruct (Q x); cbn [andb fmap list_fmap List.filter]; [|done].
  destruct (P (f x)); cbn [length]; by rewrite <- IH.
Qed.

Lemma grouped_length {Row V} (keyOf : Row → option string) (valueOf : Row → option V)
    c rows :
  length (grouped keyOf (λ row, (λ v, [v]) <$> valueOf row) c rows)
  = length (List.filter (λ row, bool_decide (keyOf row = Some c ∧ is_Some (valueOf row)))
                        rows).
Proof.
  induction rows as [|row rest IH]; [done|].
  cbn [grouped List.filter]. rewrite length_app, IH.
  destruct (decide (keyOf row = Some c)) as [Hk|Hk].
  - rewrite bool_decide_eq_true_2 by done.
    destruct (valueOf row) as [v|]; cbn [fmap option_fmap option_map default].
    + by rewrite bool_decide_eq_true_2 by eauto.
    + rewrite bool_decide_eq_false_2; [done|]. intros [_ [? ?]]. done.
  - rewrite !bool_decide_eq_false_2; [done|tauto|done].
Qed.

Lemma readGlobalStorage_count entries globalDb projectId :
  length (default []
            (Projects.readGlobalStorage
               {| fs_entries := Some entries; fs_globalDb := globalDb |}
               (Attribution.createProjectNameToWorkspaceIdMap
                  (collectWorkspaceEntries entries))
               (collectWorkspaceEntries entries) !! projectId))
  = match globalDb with
    | Some (Some globalDb) =>
        length (List.filter
                  (λ row, cr_long row
                          && bool_decide (attributionOf entries globalDb row
                                          = Some projectId))
                  (composerDataRows globalDb))
    | _ => 0%nat
    end.
Proof.
  unfold Projects.readGlobalStorage, attributionOf. cbn [fs_globalDb].
  destruct globalDb as [[globalDb|]|]; cbn [openDatabase mbind Res_bind];
    [|done|done].
  rewrite Projects_composerLoop_eq, group_lookup.
  rewrite (grouped_length _ (λ row, snd <$> conversationOfRow _ _ _ _ row)).
  unfold Projects.composerRows.
  rewrite (filter_fmap_filter (λ row, (cr_key row, cr_value row))).
  f_equal. apply filter_ext_in. intros row _. f_equal. cbv zeta.
  destruct (conversationOfRow _ _ _ _ _) as [[p c]|]; cbn.
  - apply bool_decide_ext. split; [tauto|]. eauto.
  - apply bool_decide_ext. split; [tauto|done].
Qed.

End ListingMore.

(** ** The conversation route, row by row *)

Section GatherFacts.
Context {X Y : Type}.

(** What a loop over [xs] pushes when each element gives at most one item
    and may take readings of the clock. *)
Fixpoint gather (item : nat → X → option Y * nat) (n : nat) (xs : list X)
  : list Y * nat :=
  match xs with
  | [] => ([], n)
  | x :: rest =>
      let '(o, n1) := item n x in
      let '(l, n2) := gather item n1 rest in
      (option_list o ++ l, n2)
  end.

Lemma forM_gather (body : list Y → X → M (list Y))
    (item : nat → X → option Y * nat) clock :
  (∀ acc x n, body acc x clock n = (Ok (acc ++ option_list (item n x).1), (item n x).2)) →
  ∀ xs acc n,
    forM xs acc body clock n = (Ok (acc ++ (gather item n xs).1), (gather item n xs).2).
Proof.
  intros Hbody xs. induction xs as [|x xs IH]; intros acc n.
  - cbn. by rewrite app_nil_r.
  - cbn [forM gather]. rewrite run_bind, Hbody, IH.
    destruct (item n x) as [o n1]. cbn [fst snd].
    destruct (gather item n1 xs) as [l n2].
    cbn [fst snd]. by rewrite <- app_assoc.
Qed.

Lemma gather_omap {K} (item : nat → X → option Y * nat) (f : X → option K) (g : Y → K) :
  (∀ n x, g <$> (item n x).1 = f x) →
  ∀ xs n, g <$> (gather item n xs).1 = omap f xs.
Proof.
  intros Hitem xs. induction xs as [|x xs IH]; intros n; [done|].
  cbn [gather omap list_omap]. fold (omap f xs).
  specialize (Hitem n x). destruct (item n x) as [o n1].
  specialize (IH n1). destruct (gather item n1 xs) as [l n2].
  cbn [fst] in *. rewrite fmap_app, IH, <- Hitem. by destruct o.
Qed.

Lemma gather_Forall (P : Y → Prop) (item : nat → X → option Y * nat) :
  (∀ n x y, (item n x).1 = Some y → P y) →
  ∀ xs n, Forall P (gather item n xs).1.
Proof.
  intros Hitem xs. induction xs as [|x xs IH]; intros n; cbn [gather].
  - constructor.
  - destruct (item n x) as [o n1] eqn:E. specialize (IH n1).
    destruct (gather item n1 xs) as [l n2]. cbn [fst] in *.
    apply Forall_app. split; [|done].
    destruct o as [y|]; cbn; [|constructor].
    constructor; [|constructor]. apply (Hitem n x). by rewrite E.
Qed.

End GatherFacts.

Module RouteFacts.
Import JS Tabs TabsFacts.

(** The conversation id of a [composerData] row: the second segment of its
    key. *)
Definition composerIdOf (row : string * JsonText ComposerData) : string :=
  show (split ":" row.1 !! 1%nat).

Section Route.
Variable clock : nat → Z.
Variable params_id : string.
Variable projectLayoutsMap : gmap string (list string).
Variable projectNameToWorkspaceId : gmap string string.
Variable workspaceEntries : list WorkspaceEntry.
Variable bubbleMap : gmap string Bubble.
Variable codeBlockDiffMap : gmap string (list Action).
Variable messageRequestContextMap : gmap string (list RequestContext).

(** The payload of a row that decodes and that the resolver gives to the
    project asked for. *)
Definition attributed (row : string * JsonText ComposerData) : option ComposerData :=
  match row.2 with
  | Encodes composerData =>
      match Attribution.determineProjectForConversation projectLayoutsMap
              projectNameToWorkspaceId workspaceEntries bubbleMap composerData
              (composerIdOf row)
      with
      | Ok projectId =>
          if bool_decide (projectId = Some (Stored params_id))
          then Some composerData else None
      | Thrown _ => None
      end
  | Malformed => None
  end.

(** The conversation a row adds to the answer, and the readings of the
    clock it takes. *)
Definition tabOfRow (n : nat) (row : string * JsonText ComposerData)
  : option ChatTab * nat :=
  match attributed row with
  | Some composerData =>
      match assembleConversation bubbleMap codeBlockDiffMap messageRequestContextMap
              (composerIdOf row) composerData clock n
      with
      | (Ok tab, n1) => (tab, n1)
      | (Thrown _, n1) => (None, n1)
      end
  | None => (None, n)
  end.

Lemma composerStep_run tabs row n :
  composerStep params_id projectLayoutsMap projectNameToWorkspaceId workspaceEntries
    bubbleMap codeBlockDiffMap messageRequestContextMap tabs row clock n
  = (Ok (tabs ++ option_list (tabOfRow n row).1), (tabOfRow n row).2).
Proof.
  unfold composerStep, tabOfRow, attributed, try_catchM. fold (composerIdOf row).
  rewrite run_bind, run_lift.
  destruct row.2 as [|composerData]; cbn [JSON_parse];
    [by rewrite run_ret, app_nil_r|].
  rewrite run_bind, run_lift.
  destruct (Attribution.determineProjectForConversation _ _ _ _ _ _) as [projectId|e];
    [|by rewrite run_ret, app_nil_r].
  destruct (bool_decide _); [|by rewrite run_ret, app_nil_r].
  rewrite run_bind.
  destruct (assembleConversation _ _ _ _ _ clock n) as [[[tab|]|e] n1];
    rewrite run_ret; cbn [fst snd option_list]; by rewrite ?app_nil_r.
Qed.

(** The id a row contributes to the answer: the row decodes, the resolver
    gives it to the project asked for and one of its headers has a bubble
    with a text that is not blank. *)
Definition shown (row : string * JsonText ComposerData) : option string :=
  match attributed row with
  | Some composerData =>
      match omap (keptText bubbleMap messageRequestContextMap (composerIdOf row))
                 (headersOf composerData)
      with
      | [] => None
      | _ :: _ => Some (composerIdOf row)
      end
  | None => None
  end.

Lemma tabOf_id composerId composerData headerTurns n :
  tab_id (tabOf codeBlockDiffMap clock composerId composerData headerTurns n).1
  = composerId.
Proof.
  unfold tabOf. destruct (collect _ n _) as [diffTurns n2].
  by destruct (outputOf _ n2 _) as [bubbles n3].
Qed.

Lemma tabOf_codeBlockDiffs composerId composerData headerTurns n :
  tab_codeBlockDiffs (tabOf codeBlockDiffMap clock composerId composerData headerTurns n).1
  = default [] (codeBlockDiffMap !! composerId).
Proof.
  unfold tabOf. destruct (collect _ n _) as [diffTurns n2].
  by destruct (outputOf _ n2 _) as [bubbles n3].
Qed.

Lemma tabOfRow_id n row : tab_id <$> (tabOfRow n row).1 = shown row.
Proof.
  unfold tabOfRow, shown. destruct (attributed row) as [composerData|]; [|done].
  rewrite assembleConversation_run.
  rewrite <- (headerTurn_texts bubbleMap messageRequestContextMap clock
                (composerIdOf row) n).
  destruct (collect _ n (headersOf composerData)) as [[|first others] n1]; [done|].
  cbn [fst fmap list_fmap option_fmap option_map]. by rewrite tabOf_id.
Qed.

Lemma tabOfRow_codeBlockDiffs n row tab :
  (tabOfRow n row).1 = Some tab →
  tab_codeBlockDiffs tab = default [] (codeBlockDiffMap !! tab_id tab).
Proof.
  unfold tabOfRow. destruct (attributed row) as [composerData|]; [|done].
  rewrite assembleConversation_run.
  destruct (collect _ n (headersOf composerData)) as [[|first others] n1]; [done|].
  cbn [fst]. intros [= <-]. by rewrite tabOf_id, tabOf_codeBlockDiffs.
Qed.

End Route.

(** The rows the route goes through and what it makes of each, for a
    storage whose directory and global store can be read. *)
Definition tabsOf (clock : nat → Z) (params_id : string) (entries : list DirEntry)
    (globalDb : GlobalDb) (n : nat) : list ChatTab * nat :=
  let workspaceEntries := collectWorkspaceEntries entries in
  gather (tabOfRow clock params_id
            (buildProjectLayoutsMap (messageRequestContextRows globalDb))
            (Attribution.createProjectNameToWorkspaceIdMap workspaceEntries)
            workspaceEntries
            (buildBubbleMap (bubbleRows globalDb))
            (buildCodeBlockDiffMap (codeBlockDiffRows globalDb))
            (buildMessageRequestContextMap (messageRequestContextRows globalDb)))
         n (Tabs.composerRows globalDb).

Lemma GET_run fs params_id clock n :
  GET fs params_id clock n
  = match fs_entries fs, fs_globalDb fs with
    | None, _ => (Ok (Failure 500 "Failed to get workspace tabs"), n)
    | Some entries, None => (Ok (Failure 404 "Global storage not found"), n)
    | Some entries, Some None => (Ok (Failure 500 "Failed to get workspace tabs"), n)
    | Some entries, Some (Some globalDb) =>
        (Ok (Json (tabsOf clock params_id entries globalDb n).1),
         (tabsOf clock params_id entries globalDb n).2)
    end.
Proof.
  unfold GET, try_catchM, readdir. rewrite run_bind, run_lift.
  destruct (fs_entries fs) as [entries|]; [|done].
  destruct (fs_globalDb fs) as [[globalDb|]|]; [| |done].
  - rewrite run_bind, run_lift. cbn [openDatabase]. rewrite run_bind.
    rewrite (forM_gather _ _ clock (composerStep_run clock params_id _ _ _ _ _ _)).
    by rewrite run_ret.
  - by rewrite run_bind, run_lift.
Qed.

End RouteFacts.

(** ** Titles and flattened texts *)

Module TitleFacts.
Import JS Tabs TabsFacts.

Lemma length_app (s t : string) :
  String.length (s +:+ t) = (String.length s + String.length t)%nat.
Proof. induction s as [|c s IH]; [done|]. rewrite JSFacts.app_cons. cbn. by rewrite IH. Qed.

Lemma placeholder_nonempty name composerId :
  show_or name ("Conversation " +:+ take 8 composerId) ≠ "".
Proof.
  change ("Conversation " +:+ take 8 composerId)
    with (String "C" ("onversation " +:+ take 8 composerId)).
  by destruct name as [[|c s]|].
Qed.

Lemma placeholder_length name composerId :
  present truthy name = false →
  (String.length (show_or name ("Conversation " +:+ take 8 composerId)) ≤ 21)%nat.
Proof.
  intros Hname.
  assert (show_or name ("Conversation " +:+ take 8 composerId)
          = "Conversation " +:+ take 8 composerId) as ->.
  { destruct name as [[|c s]|]; done. }
  rewrite length_app, JSFacts.length_take.
  change (String.length "Conversation ") with 13%nat. lia.
Qed.

Lemma first_line_nonempty text firstLine firstLines :
  List.filter (λ line, truthy (trim line)) (split "010" text) = firstLine :: firstLines →
  firstLine ≠ "".
Proof.
  intros Hlines.
  assert (In firstLine (List.filter (λ line, truthy (trim line)) (split "010" text)))
    as Hin by (rewrite Hlines; by left).
  apply filter_In in Hin as [_ Htruthy].
  apply JSFacts.truthy_trim_truthy in Htruthy. by destruct firstLine.
Qed.

Lemma resolveTitle_nonempty name composerId bubbles :
  resolveTitle name composerId bubbles ≠ "".
Proof.
  unfold resolveTitle. pose proof (placeholder_nonempty name composerId) as Hdefault.
  destruct (present truthy name); cbn [negb]; [done|].
  destruct bubbles as [|first others]; [done|].
  destruct (truthy (cb_text first)); [|done].
  destruct (List.filter _ _) as [|firstLine firstLines] eqn:Hlines; [done|].
  apply first_line_nonempty in Hlines.
  destruct firstLine as [|c s]; [done|]. cbn [take].
  by destruct (bool_decide _).
Qed.

Lemma resolveTitle_length name composerId bubbles :
  present truthy name = false →
  (String.length (resolveTitle name composerId bubbles) ≤ 103)%nat.
Proof.
  intros Hname. unfold resolveTitle. rewrite Hname. cbn [negb].
  pose proof (placeholder_length name composerId Hname) as Hdefault.
  destruct bubbles as [|first others]; [lia|].
  destruct (truthy (cb_text first)); [|lia].
  destruct (List.filter _ _) as [|firstLine firstLines]; [lia|].
  destruct (bool_decide _).
  - rewrite length_app, JSFacts.length_take.
    change (String.length "...") with 3%nat. lia.
  - rewrite JSFacts.length_take. lia.
Qed.

Lemma extractTextFromRichText_app (a b : list RichNode) :
  Extract.extractTextFromRichText (a ++ b)
  = Extract.extractTextFromRichText a +:+ Extract.extractTextFromRichText b.
Proof.
  induction a as [|child a IH]; [done|].
  rewrite <- app_comm_cons, !ExtractFacts.extractTextFromRichText_cons, IH.
  by rewrite JSFacts.app_assoc.
Qed.

(** The display name of a project is its last folder segment, and the
    placeholder when there is none. *)
Lemma workspaceNameOf_nonempty entry : Projects.workspaceNameOf entry ≠ "".
Proof.
  unfold Projects.workspaceNameOf.
  assert (∀ o, show_or o ("Project " +:+ take 8 (we_name entry)) ≠ "") as Hshow.
  { intros o.
    change ("Project " +:+ take 8 (we_name entry))
      with (String "P" ("roject " +:+ take 8 (we_name entry))).
    by destruct o as [[|c s]|]. }
  destruct (JSON_parse (we_workspaceJson entry)) as [workspaceData|e]; [|apply (Hshow None)].
  destruct (present truthy (wd_folder workspaceData)); [apply Hshow|apply (Hshow None)].
Qed.

(** Up to a separator and after it: the segments of the rest come last. *)
Lemma split_after sep a b :
  ∃ l, l ≠ [] ∧ split sep (a +:+ KeyFacts.sep_string sep +:+ b) = l ++ split sep b.
Proof.
  induction a as [|c a (l & Hl & IH)].
  - exists [""]. split; [done|]. rewrite JSFacts.app_nil_l. unfold KeyFacts.sep_string.
    rewrite JSFacts.app_cons. cbn [split]. by rewrite Ascii.eqb_refl, JSFacts.app_nil_l.
  - rewrite JSFacts.app_cons. cbn [split]. rewrite IH.
    destruct (Ascii.eqb c sep); [by exists ("" :: l)|].
    destruct l as [|w l]; [done|]. by exists (String c w :: l).
Qed.

Lemma last_split_after sep a b :
  KeyFacts.occurs sep b = false →
  last (split sep (a +:+ KeyFacts.sep_string sep +:+ b)) = Some b.
Proof.
  intros Hb. destruct (split_after sep a b) as (l & _ & ->).
  rewrite (KeyFacts.split_whole _ _ Hb). apply last_snoc.
Qed.

Lemma workspaceNameOf_segment entry parent name :
  AttributionFacts.folderOf entry = Some (parent +:+ "/" +:+ name) →
  name ≠ "" → KeyFacts.occurs "/" name = false →
  Projects.workspaceNameOf entry = name.
Proof.
  unfold AttributionFacts.folderOf, Projects.workspaceNameOf.
  destruct (we_workspaceJson entry) as [|workspaceData]; [done|]. cbn [JSON_parse].
  destruct (present truthy (wd_folder workspaceData)); [|done].
  intros -> Hname Hslash. cbn [show]. unfold pop.
  change (parent +:+ "/" +:+ name) with (parent +:+ KeyFacts.sep_string "/" +:+ name).
  rewrite (last_split_after "/" parent name Hslash).
  unfold or_else. cbn [present].
  apply JSFacts.truthy_true_iff in Hname. rewrite Hname. cbn [show_or]. by rewrite Hname.
Qed.

Lemma workspaceNameOf_whole entry folder :
  AttributionFacts.folderOf entry = Some folder →
  KeyFacts.occurs "/" folder = false →
  Projects.workspaceNameOf entry = folder.
Proof.
  unfold AttributionFacts.folderOf, Projects.workspaceNameOf.
  destruct (we_workspaceJson entry) as [|workspaceData]; [done|]. cbn [JSON_parse].
  destruct (present truthy (wd_folder workspaceData)) eqn:Htruthy; [|done].
  intros Hfolder Hslash. rewrite Hfolder in *. cbn [show present] in *. unfold pop.
  rewrite (KeyFacts.split_whole _ _ Hslash). cbn [last].
  unfold or_else. cbn [present]. rewrite Htruthy. cbn [show_or]. by rewrite Htruthy.
Qed.

Lemma workspaceNameOf_placeholder entry :
  AttributionFacts.folderOf entry = None →
  Projects.workspaceNameOf entry = "Project " +:+ take 8 (we_name entry).
Proof.
  unfold AttributionFacts.folderOf, Projects.workspaceNameOf.
  destruct (we_workspaceJson entry) as [|workspaceData]; [done|]. cbn [JSON_parse].
  destruct (wd_folder workspaceData) as [folder|]; [|done]. cbn [present].
  by destruct (truthy folder).
Qed.

End TitleFacts.

(** ** The listings as a whole *)

Module ListingWhole.
Import JS ListingMore.

Lemma forallb_false_elem {A} (f : A → bool) (l : list A) :
  forallb f l = false → ∃ x, x ∈ l ∧ f x = false.
Proof.
  induction l as [|x l IH]; [done|]. cbn [forallb].
  destruct (f x) eqn:Hx; cbn [andb].
  - intros (y & Hy & Hfy)%IH. exists y. split; [by right|done].
  - intros _. exists x. split; [by left|done].
Qed.

Lemma forallb_true_elem {A} (f : A → bool) (l : list A) x :
  forallb f l = true → x ∈ l → f x = true.
Proof.
  intros Hall Hx. apply list_elem_of_In in Hx.
  by apply (proj1 (forallb_forall f l) Hall).
Qed.

Lemma Sorted_weaken {A} (R1 R2 : A → A → Prop) (l : list A) :
  (∀ x y, R1 x y → R2 x y) → Sorted R1 l → Sorted R2 l.
Proof.
  intros HR Hsorted. rewrite <- (list_fmap_id l).
  by apply (Sorted_fmap id R1 R2).
Qed.

Lemma omap_length_filter {A B} (f : A → option B) (g : A → bool) (l : list A) :
  (∀ x, x ∈ l → is_Some (f x) → g x = true) →
  (length (omap f l) ≤ length (List.filter g l))%nat.
Proof.
  intros Hfg. induction l as [|x l IH]; [done|].
  cbn [omap list_omap List.filter]. fold (omap f l).
  assert (length (omap f l) ≤ length (List.filter g l))%nat as Hrest.
  { apply IH. intros y Hy. apply Hfg. by right. }
  destruct (f x) as [y|] eqn:Hy.
  - rewrite Hfg by (by left || (rewrite Hy; eauto)). cbn [length]. lia.
  - destruct (g x); cbn [length]; lia.
Qed.

(** A directory the legacy listing answers with: its store file exists and
    opens. *)
Definition openable (entry : DirEntry) : bool :=
  de_isDirectory entry
  && match de_stateDb entry with
     | Some store => bool_decide (is_Some (st_chatdata store))
     | None => false
     end.

Lemma listed_ids entries :
  Workspaces.ws_id <$> omap listed entries = de_name <$> List.filter openable entries.
Proof.
  induction entries as [|entry rest IH]; [done|].
  cbn [omap list_omap List.filter]. fold (omap listed rest).
  unfold listed at 1, openable at 1, Workspaces.describe.
  destruct (de_isDirectory entry); cbn [andb]; [|done].
  destruct (de_stateDb entry) as [store|]; [|done].
  destruct (st_chatdata store) as [chatdata|]; cbn [openDatabase mbind Res_bind].
  - rewrite bool_decide_eq_true_2 by eauto. cbn [fmap list_fmap Workspaces.ws_id].
    by rewrite <- IH.
  - rewrite bool_decide_eq_false_2; [done|]. by intros [? ?].
Qed.

Lemma Workspaces_GET_eq fs :
  Workspaces.GET fs
  = match fs_entries fs with
    | Some entries => Json (omap listed entries)
    | None => Failure 500 "Failed to get workspaces"
    end.
Proof.
  unfold Workspaces.GET, readdir. destruct (fs_entries fs) as [entries|]; [|done].
  cbn [mbind Res_bind]. by rewrite Workspaces_loop_eq.
Qed.

Lemma projectFor_None entries conversationMap entry :
  projectFor entries conversationMap entry = None
  ↔ stat_stateDb entries (we_name entry) = Thrown IOError.
Proof.
  unfold projectFor.
  destruct (stat_stateDb entries (we_name entry)) as [stats|e] eqn:Hstat.
  - split; done.
  - apply stat_stateDb_error in Hstat as ->. done.
Qed.

Lemma projectFor_Some entries conversationMap entry project :
  projectFor entries conversationMap entry = Some project →
  Projects.p_id project = we_name entry
  ∧ Projects.p_conversationCount project
    = length (default [] (conversationMap !! we_name entry)).
Proof.
  unfold projectFor. destruct (stat_stateDb entries (we_name entry)); [|done].
  by intros [= <-].
Qed.

Lemma Projects_GET_eq fs :
  Projects.GET fs
  = match fs_entries fs with
    | None => Failure 500 "Failed to get workspaces"
    | Some entries =>
        let workspaceEntries := collectWorkspaceEntries entries in
        let conversationMap :=
          Projects.readGlobalStorage fs
            (Attribution.createProjectNameToWorkspaceIdMap workspaceEntries)
            workspaceEntries in
        if forallb (λ entry, bool_decide
                               (is_Some (projectFor entries conversationMap entry)))
                   workspaceEntries
        then Json (sort Projects.newestFirst
                     (omap (projectFor entries conversationMap) workspaceEntries))
        else Failure 500 "Failed to get workspaces"
    end.
Proof.
  unfold Projects.GET, readdir. destruct (fs_entries fs) as [entries|]; [|done].
  cbn [mbind Res_bind]. rewrite projectLoop_eq. cbv zeta.
  by destruct (forallb _ _).
Qed.

Lemma Projects_GET_Json fs projects :
  Projects.GET fs = Json projects →
  ∃ entries,
    fs_entries fs = Some entries
    ∧ let workspaceEntries := collectWorkspaceEntries entries in
      let conversationMap :=
        Projects.readGlobalStorage fs
          (Attribution.createProjectNameToWorkspaceIdMap workspaceEntries)
          workspaceEntries in
      forallb (λ entry, bool_decide (is_Some (projectFor entries conversationMap entry)))
              workspaceEntries = true
      ∧ projects = sort Projects.newestFirst
                     (omap (projectFor entries conversationMap) workspaceEntries).
Proof.
  rewrite Projects_GET_eq. destruct (fs_entries fs) as [entries|]; [|done].
  cbv zeta. destruct (forallb _ _) eqn:Hall; [|done]. intros [= <-]. by exists entries.
Qed.

Lemma omap_elem_of {A B} (f : A → option B) (l : list A) y :
  y ∈ omap f l → ∃ x, x ∈ l ∧ f x = Some y.
Proof. intros (x & Hx & Hy)%list_elem_of_omap. eauto. Qed.

(** A row the conversation route shows is a row the project listing
    counts. *)
Lemma shown_attributionOf params_id entries globalDb (row : ComposerRow) id :
  RouteFacts.shown params_id
    (buildProjectLayoutsMap (messageRequestContextRows globalDb))
    (Attribution.createProjectNameToWorkspaceIdMap (collectWorkspaceEntries entries))
    (collectWorkspaceEntries entries)
    (buildBubbleMap (bubbleRows globalDb))
    (Tabs.buildMessageRequestContextMap (messageRequestContextRows globalDb))
    (cr_key row, cr_value row) = Some id →
  attributionOf entries globalDb row = Some params_id.
Proof.
  intros Hshown. unfold attributionOf, conversationOfRow. cbv zeta.
  unfold RouteFacts.shown, RouteFacts.attributed in Hshown.
  fold (RouteFacts.composerIdOf (cr_key row, cr_value row)).
  cbn [snd] in *.
  destruct (cr_value row) as [|composerData]; [done|].
  destruct (Attribution.determineProjectForConversation _ _ _ _ _ _)
    as [projectId|e] eqn:Hresolved; [|done].
  destruct (decide (projectId = Some (Stored params_id))) as [->|Hne].
  - apply ResolverFacts.determineProjectForConversation_truthy in Hresolved.
    by rewrite Hresolved.
  - by rewrite bool_decide_eq_false_2 in Hshown.
Qed.

End ListingWhole.

(** * Further properties, route by route *)

(** ** Keys and maps of the global store *)

(** The maps below are read at ids; the name index of the projects, which
    is read at layout hints, is read with [JS.read]. *)

(** X1. [extractChatIdFromCodeBlockDiffKey] answers with a conversation id
    exactly for the keys made of "codeBlockDiff:", an id that is not empty
    and holds no colon, a colon and any rest; the id it answers with is that
    one.  Every other key gives nothing. *)
Theorem diff_key_names_its_conversation (key chatId : string) :
  Tabs.extractChatIdFromCodeBlockDiffKey key = Some chatId
  ↔ chatId ≠ "" ∧ KeyFacts.occurs ":" chatId = false
    ∧ ∃ rest, key = "codeBlockDiff:" +:+ chatId +:+ ":" +:+ rest.
Proof.
  unfold Tabs.extractChatIdFromCodeBlockDiffKey. split.
  - pose proof (KeyFacts.join_split ":" key) as Hjoin.
    pose proof (KeyFacts.split_no_sep ":" key) as Hsep.
    destruct (JS.split ":" key) as [|kind [|c [|x l]]]; try done.
    destruct (decide (kind = "codeBlockDiff")) as [->|Hne].
    + rewrite bool_decide_eq_true_2 by done. cbn [andb].
      destruct (JS.truthy c) eqn:Hc; [|done]. intros [= ->].
      split; [by apply JSFacts.truthy_true_iff|]. split.
      * apply Forall_cons in Hsep as [_ Hsep]. by apply Forall_cons in Hsep as [Hsep _].
      * exists (JS.join (KeyFacts.sep_string ":") (x :: l)). rewrite <- Hjoin.
        by rewrite !KeyFacts.join_cons.
    + by rewrite bool_decide_eq_false_2.
  - intros (Hne & Hocc & rest & ->).
    change ("codeBlockDiff:" +:+ chatId +:+ ":" +:+ rest)
      with ("codeBlockDiff" +:+ KeyFacts.sep_string ":" +:+
            (chatId +:+ KeyFacts.sep_string ":" +:+ rest)).
    rewrite KeyFacts.split_app by done. rewrite KeyFacts.split_app by done.
    pose proof (KeyFacts.split_nonempty ":" rest) as Hrest.
    destruct (JS.split ":" rest) as [|x l]; [done|].
    rewrite bool_decide_eq_true_2 by done.
    apply JSFacts.truthy_true_iff in Hne. by rewrite Hne.
Qed.

Lemma diff_key_names_its_conversation_witness :
  Tabs.extractChatIdFromCodeBlockDiffKey "codeBlockDiff:c1:d1" = Some "c1".
Proof.
  apply (proj2 (diff_key_names_its_conversation "codeBlockDiff:c1:d1" "c1")).
  split; [done|]. split; [reflexivity|]. by exists "d1".
Defined.

(** X2. The code-block diffs recorded for a conversation are, in the order
    of the rows, one for each [codeBlockDiff] row whose key names the
    conversation and whose value decodes: the payload of the row, property
    by property, with the third segment of the key of the row as [diffId].
    A row that does not decode is skipped and a conversation no row names
    has no diff. *)
Theorem diffs_of_a_conversation_follow_the_rows
    (rows : list (string * JsonText Action)) (chatId : string) :
  default [] (Tabs.buildCodeBlockDiffMap rows !! chatId)
  = omap (λ row,
            if bool_decide (Tabs.extractChatIdFromCodeBlockDiffKey row.1 = Some chatId)
            then match row.2 with
                 | Encodes codeBlockDiff =>
                     Some {| act_newModelDiffWrtV0 := act_newModelDiffWrtV0 codeBlockDiff;
                             act_filePath := act_filePath codeBlockDiff;
                             act_command := act_command codeBlockDiff;
                             act_searchResults := act_searchResults codeBlockDiff;
                             act_webResults := act_webResults codeBlockDiff;
                             act_toolName := act_toolName codeBlockDiff;
                             act_parameters := act_parameters codeBlockDiff;
                             act_result := act_result codeBlockDiff;
                             act_actionsTaken := act_actionsTaken codeBlockDiff;
                             act_filesModified := act_filesModified codeBlockDiff;
                             act_gitStatus := act_gitStatus codeBlockDiff;
                             act_directoryListed := act_directoryListed codeBlockDiff;
                             act_webSearchResults := act_webSearchResults codeBlockDiff;
                             act_diffId := JS.split ":" row.1 !! 2%nat |}
                 | Malformed => None
                 end
            else None)
         rows
  ∧ Forall (λ diff, is_Some (act_diffId diff))
           (default [] (Tabs.buildCodeBlockDiffMap rows !! chatId)).
Proof.
  rewrite StoreFacts.buildCodeBlockDiffMap_lookup. split; [reflexivity|].
  apply Forall_forall. intros diff (row & _ & Hrow)%list_elem_of_omap.
  unfold StoreFacts.diffOfRow in Hrow.
  destruct (decide (Tabs.extractChatIdFromCodeBlockDiffKey row.1 = Some chatId))
    as [Hkey|Hkey]; [|by rewrite bool_decide_eq_false_2 in Hrow].
  rewrite bool_decide_eq_true_2 in Hrow by done.
  destruct row.2 as [|codeBlockDiff]; [done|]. injection Hrow as <-.
  cbn [Tabs.setDiffId act_diffId].
  unfold Tabs.extractChatIdFromCodeBlockDiffKey in Hkey.
  by destruct (JS.split ":" row.1) as [|kind [|c [|x l]]].
Qed.

(** X3. The request contexts recorded for a conversation are, in the order
    of the rows, one for each [messageRequestContext] row whose key has at
    least three segments, the second of which is the conversation, and whose
    value decodes: the payload of the row, property by property, with the
    third segment of the key of the row as [contextId]. *)
Theorem contexts_of_a_conversation_follow_the_rows
    (rows : list (string * JsonText RequestContext)) (chatId : string) :
  default [] (Tabs.buildMessageRequestContextMap rows !! chatId)
  = omap (λ row,
            match JS.split ":" row.1 with
            | _ :: conversation :: contextId :: _ =>
                if bool_decide (conversation = chatId) then
                  match row.2 with
                  | Encodes context =>
                      Some {| rc_bubbleId := rc_bubbleId context;
                              rc_gitStatusRaw := rc_gitStatusRaw context;
                              rc_terminalFiles := rc_terminalFiles context;
                              rc_attachedFoldersListDirResults :=
                                rc_attachedFoldersListDirResults context;
                              rc_cursorRules := rc_cursorRules context;
                              rc_summarizedComposers := rc_summarizedComposers context;
                              rc_projectLayouts := rc_projectLayouts context;
                              rc_contextId := Some contextId |}
                  | Malformed => None
                  end
                else None
            | _ => None
            end)
         rows.
Proof. rewrite StoreFacts.buildMessageRequestContextMap_lookup. reflexivity. Qed.

(** X4. The layout hints of a conversation are the root paths of the hints
    of all the [messageRequestContext] rows whose key has the conversation
    as second segment, in the order of the rows and of the hints in a row;
    a row or a hint that does not decode, and a hint without a root path,
    gives nothing. *)
Theorem layout_hints_of_a_conversation_follow_the_rows
    (rows : list (string * JsonText RequestContext)) (composerId : string) :
  default [] (buildProjectLayoutsMap rows !! composerId)
  = concat (StoreFacts.hintsOfRow composerId <$> rows).
Proof. apply StoreFacts.buildProjectLayoutsMap_lookup. Qed.

(** X5. The bubble found under an id is the payload of the last [bubbleId]
    row that decodes and whose key has that id as third segment: the second
    segment of the key, the conversation, plays no part. *)
Theorem bubble_index_keeps_last_row_of_an_id
    (rows : list (string * JsonText Bubble)) (bubbleId : string) :
  buildBubbleMap rows !! bubbleId = last (omap (IndexFacts.bubbleOfRow bubbleId) rows).
Proof. apply IndexFacts.buildBubbleMap_lookup. Qed.

(** X6. A bubble row of any conversation replaces what the rows before it
    stored under the same bubble id, also when those rows belong to other
    conversations. *)
Theorem bubble_row_replaces_rows_of_other_conversations
    (rows : list (string * JsonText Bubble)) (chatId bubbleId : string) (bubble : Bubble) :
  KeyFacts.occurs ":" chatId = false →
  KeyFacts.occurs ":" bubbleId = false →
  buildBubbleMap (rows ++ [(IndexFacts.bubbleKey chatId bubbleId, Encodes bubble)])
    !! bubbleId = Some bubble.
Proof.
  intros Hchat Hbubble.
  rewrite IndexFacts.buildBubbleMap_lookup, omap_app. cbn [omap list_omap].
  unfold IndexFacts.bubbleOfRow at 2. cbn [fst snd].
  rewrite IndexFacts.bubbleIdOfKey_bubbleKey by done.
  rewrite bool_decide_eq_true_2 by done. apply last_snoc.
Qed.

Lemma bubble_row_replaces_rows_of_other_conversations_witness :
  buildBubbleMap
    ([("bubbleId:c1:b1", Encodes (Examples.textBubble "hello" (Some 100)))]
       ++ [(IndexFacts.bubbleKey "c2" "b1", Encodes (Examples.textBubble "other" None))])
    !! "b1" = Some (Examples.textBubble "other" None).
Proof.
  apply (bubble_row_replaces_rows_of_other_conversations
           [("bubbleId:c1:b1", Encodes (Examples.textBubble "hello" (Some 100)))]
           "c2" "b1" (Examples.textBubble "other" None)); reflexivity.
Defined.


(** ** Project attribution *)

(** X8. Whatever tier answers, the resolver hands back either the id of a
    workspace entry that has a folder, never the empty id, or, when a layout
    hint of the conversation names a member of [Object.prototype] that the
    name index does not hold as a key of its own, the member that the index
    inherits under that name, which is no id at all.  The index is the one
    built from the workspace entries. *)
Theorem attribution_names_a_known_project
    (projectLayoutsMap : gmap string (list string))
    (workspaceEntries : list WorkspaceEntry) (bubbleMap : gmap string Bubble)
    (composerData : ComposerData) (composerId : string) (value : JS.Found) :
  Attribution.determineProjectForConversation projectLayoutsMap
    (Attribution.createProjectNameToWorkspaceIdMap workspaceEntries) workspaceEntries
    bubbleMap composerData composerId = Ok (Some value) →
  match value with
  | JS.Stored projectId =>
      projectId ≠ ""
      ∧ ∃ entry, entry ∈ workspaceEntries ∧ we_name entry = projectId
                 ∧ is_Some (AttributionFacts.folderOf entry)
  | JS.Inherited member =>
      member ∈ JS.prototypeMembers
      ∧ member ∈ default [] (projectLayoutsMap !! composerId)
  end.
Proof. apply ResolverFacts.determineProjectForConversation_known. Qed.

Lemma attribution_names_a_known_project_witness :
  ("ws1" ≠ ""
   ∧ ∃ entry,
       entry ∈ [ {| we_name := "ws1";
                    we_workspaceJson :=
                      Encodes {| wd_folder := Some "file:///home/dev/proj" |} |} ]
       ∧ we_name entry = "ws1" ∧ is_Some (AttributionFacts.folderOf entry))
  ∧ ("constructor" ∈ JS.prototypeMembers
     ∧ "constructor" ∈ default [] (({[ "c2" := ["constructor"; "proj"] ]}
                                     : gmap string (list string)) !! "c2")).
Proof.
  split.
  - apply (attribution_names_a_known_project
             {[ "c1" := ["proj"] ]}
             [ {| we_name := "ws1";
                  we_workspaceJson :=
                    Encodes {| wd_folder := Some "file:///home/dev/proj" |} |} ]
             ∅ (Examples.unnamed []) "c1" (JS.Stored "ws1")).
    vm_compute. reflexivity.
  - apply (attribution_names_a_known_project
             {[ "c2" := ["constructor"; "proj"] ]}
             [ {| we_name := "ws1";
                  we_workspaceJson :=
                    Encodes {| wd_folder := Some "file:///home/dev/proj" |} |} ]
             ∅ (Examples.unnamed []) "c2" (JS.Inherited "constructor")).
    vm_compute. reflexivity.
Defined.

(** X9. [getProjectFromFilePath] gives a path to the first workspace entry
    whose folder it extends: the entries before it, which have no folder or
    a folder that the path does not start with, are passed over, and the
    entries after it are not looked at (no longer folder further down the
    list is preferred).  What follows the folder in the path is free (the
    next character need not be a separator).  The home prefix is cut from
    both sides of the comparison or from neither. *)
Theorem path_goes_to_first_folder_it_extends
    (before : list WorkspaceEntry) (entry : WorkspaceEntry) (rest : list WorkspaceEntry)
    (folder path suffix : string) :
  Forall (λ earlier,
            ∀ earlierFolder,
              AttributionFacts.folderOf earlier = Some earlierFolder →
              JS.startsWith (JS.stripPrefix Attribution.home path)
                (JS.stripPrefix Attribution.home
                   (JS.removeFirst Attribution.scheme earlierFolder)) = false)
         before →
  AttributionFacts.folderOf entry = Some folder →
  path = JS.removeFirst Attribution.scheme folder +:+ suffix →
  (JS.startsWith (JS.removeFirst Attribution.scheme folder) Attribution.home = true
   ∨ JS.startsWith path Attribution.home = false) →
  Attribution.getProjectFromFilePath path (before ++ entry :: rest)
  = Ok (Some (we_name entry)).
Proof. apply ResolverFacts.first_folder_extended. Qed.

Lemma path_goes_to_first_folder_it_extends_witness :
  Attribution.getProjectFromFilePath "/home/dev/project-old/a.ts"
    ([ {| we_name := "ws0";
          we_workspaceJson := Encodes {| wd_folder := Some "file:///home/dev/other" |} |};
       {| we_name := "broken"; we_workspaceJson := Malformed |} ]
       ++ {| we_name := "ws1";
             we_workspaceJson :=
               Encodes {| wd_folder := Some "file:///home/dev/proj" |} |}
       :: [ {| we_name := "ws2";
               we_workspaceJson :=
                 Encodes {| wd_folder := Some "file:///home/dev/project-old" |} |} ])
  = Ok (Some "ws1").
Proof.
  apply (path_goes_to_first_folder_it_extends
           [ {| we_name := "ws0";
                we_workspaceJson :=
                  Encodes {| wd_folder := Some "file:///home/dev/other" |} |};
             {| we_name := "broken"; we_workspaceJson := Malformed |} ]
           {| we_name := "ws1";
              we_workspaceJson := Encodes {| wd_folder := Some "file:///home/dev/proj" |} |}
           [ {| we_name := "ws2";
                we_workspaceJson :=
                  Encodes {| wd_folder := Some "file:///home/dev/project-old" |} |} ]
           "file:///home/dev/proj" "/home/dev/project-old/a.ts" "ect-old/a.ts").
  - repeat (apply Forall_cons; split; [by intros earlierFolder [= <-]|]). constructor.
  - reflexivity.
  - reflexivity.
  - right. reflexivity.
Defined.

(** ** The conversation route *)

(** X10. The conversation route answers 500 exactly when the workspace
    storage directory cannot be read, or the global store exists and cannot
    be opened or queried; it answers 404 exactly when the directory is read
    and the global store is missing; in every other case it answers with a
    list of conversations.  No row of the store makes it fail. *)
Theorem conversation_route_status
    (fs : Storage) (params_id : string) (clock : nat → Z) (n : nat) :
  let response := (Tabs.GET fs params_id clock n).1 in
  (response = Ok (Failure 500 "Failed to get workspace tabs")
   ↔ fs_entries fs = None ∨ fs_globalDb fs = Some None)
  ∧ (response = Ok (Failure 404 "Global storage not found")
     ↔ is_Some (fs_entries fs) ∧ fs_globalDb fs = None)
  ∧ ((∃ tabs, response = Ok (Json tabs))
     ↔ is_Some (fs_entries fs) ∧ ∃ globalDb, fs_globalDb fs = Some (Some globalDb)).
Proof.
  cbv zeta. rewrite RouteFacts.GET_run.
  destruct (fs_entries fs) as [entries|]; [destruct (fs_globalDb fs) as [[globalDb|]|]|];
    cbn [fst]; (split; [|split]); split;
    try done; try (intros [? ?]; done); try (intros [[? ?] ?]; done);
    try (intros [?|?]; done); try (intros [_ [? ?]]; done); eauto.
Qed.

Lemma conversation_route_status_witness :
  (Tabs.GET {| fs_entries := Some []; fs_globalDb := None |} "ws1" (λ _, 1) 0%nat).1
  = Ok (Failure 404 "Global storage not found").
Proof.
  apply (proj2 (proj1 (proj2 (conversation_route_status
                                {| fs_entries := Some []; fs_globalDb := None |}
                                "ws1" (λ _, 1) 0%nat)))).
  split; [by exists []|reflexivity].
Defined.

(** X11. When the directory and the global store are read, the ids of the
    conversations of the answer are, in the order of the [composerData]
    rows, the ids of the rows that the query of the route selects (the value
    mentions the conversation headers, and not an empty list of them), that
    decode, that the resolver gives to the project asked for (as the id of
    that workspace: a member inherited for a layout hint is no id), and that
    have a header whose bubble exists with a final text that is not blank.
    Rows the query leaves out, rows of other projects, rows that do not
    decode and conversations without a text turn leave no trace. *)
Theorem conversation_route_shows_attributed_rows
    (entries : list DirEntry) (globalDb : GlobalDb) (params_id : string)
    (clock : nat → Z) (n : nat) :
  ∃ tabs n',
    Tabs.GET {| fs_entries := Some entries; fs_globalDb := Some (Some globalDb) |}
      params_id clock n = (Ok (Json tabs), n')
    ∧ tab_id <$> tabs
      = omap (λ row,
                if cr_likeHeaders row && negb (cr_likeEmptyHeaders row) then
                  RouteFacts.shown params_id
                    (buildProjectLayoutsMap (messageRequestContextRows globalDb))
                    (Attribution.createProjectNameToWorkspaceIdMap
                       (collectWorkspaceEntries entries))
                    (collectWorkspaceEntries entries)
                    (buildBubbleMap (bubbleRows globalDb))
                    (Tabs.buildMessageRequestContextMap
                       (messageRequestContextRows globalDb))
                    (cr_key row, cr_value row)
                else None)
             (composerDataRows globalDb).
Proof.
  rewrite RouteFacts.GET_run. cbn [fs_entries fs_globalDb].
  eexists _, _. split; [reflexivity|].
  unfold RouteFacts.tabsOf, Tabs.composerRows.
  rewrite <- (ListingMore.omap_fmap_filter _ (λ row, (cr_key row, cr_value row))).
  apply gather_omap. intros. apply RouteFacts.tabOfRow_id.
Qed.

(** X12. Every conversation of the answer carries, as its code-block diffs,
    all the diffs recorded for its id in the [codeBlockDiff] rows, in the
    order of the rows: also the diffs whose formatted text is blank and that
    give no turn. *)
Theorem conversation_route_attaches_recorded_diffs
    (entries : list DirEntry) (globalDb : GlobalDb) (params_id : string)
    (clock : nat → Z) (n : nat) :
  ∃ tabs n',
    Tabs.GET {| fs_entries := Some entries; fs_globalDb := Some (Some globalDb) |}
      params_id clock n = (Ok (Json tabs), n')
    ∧ Forall (λ tab, tab_codeBlockDiffs tab
                     = omap (StoreFacts.diffOfRow (tab_id tab))
                            (codeBlockDiffRows globalDb))
             tabs.
Proof.
  rewrite RouteFacts.GET_run. cbn [fs_entries fs_globalDb].
  eexists _, _. split; [reflexivity|].
  unfold RouteFacts.tabsOf. apply gather_Forall. intros k row tab Htab.
  rewrite <- StoreFacts.buildCodeBlockDiffMap_lookup.
  by eapply RouteFacts.tabOfRow_codeBlockDiffs.
Qed.

(** ** The listings *)

(** X13. The legacy workspace listing fails only when the workspace storage
    directory cannot be read.  Otherwise it answers with one workspace for
    each directory whose [state.vscdb] exists and opens, in the order of the
    directory, under the name of the directory; plain files, directories
    without store and directories whose store does not open are left out,
    and neither [workspace.json] nor the global store is needed. *)
Theorem legacy_listing_lists_openable_stores (fs : Storage) :
  match fs_entries fs with
  | None => Workspaces.GET fs = Failure 500 "Failed to get workspaces"
  | Some entries =>
      ∃ workspaces,
        Workspaces.GET fs = Json workspaces
        ∧ Workspaces.ws_id <$> workspaces
          = de_name <$> List.filter ListingWhole.openable entries
  end.
Proof.
  rewrite ListingWhole.Workspaces_GET_eq.
  destruct (fs_entries fs) as [entries|]; [|done].
  eexists. split; [reflexivity|]. apply ListingWhole.listed_ids.
Qed.

(** X14. The project listing fails, with status 500, exactly when the
    workspace storage directory cannot be read or one of the directories
    that hold a [workspace.json] has no [state.vscdb] to stat.  The global
    store never makes it fail: missing, unreadable or holding rows that do
    not decode, it only changes the counts. *)
Theorem project_listing_fails_exactly_without_store (fs : Storage) :
  Projects.GET fs = Failure 500 "Failed to get workspaces"
  ↔ fs_entries fs = None
    ∨ ∃ entries entry,
        fs_entries fs = Some entries
        ∧ entry ∈ collectWorkspaceEntries entries
        ∧ stat_stateDb entries (we_name entry) = Thrown IOError.
Proof.
  rewrite ListingWhole.Projects_GET_eq.
  destruct (fs_entries fs) as [entries|]; [|split; eauto]. cbv zeta.
  destruct (forallb _ _) eqn:Hall; split.
  - done.
  - intros [[=]|(entries' & entry & [= <-] & Hin & Hstat)]. exfalso.
    eapply ListingWhole.forallb_true_elem in Hall; [|exact Hin].
    apply bool_decide_eq_true_1 in Hall as [project Hproject].
    apply (ListingWhole.projectFor_None entries
             (Projects.readGlobalStorage fs
                (Attribution.createProjectNameToWorkspaceIdMap
                   (collectWorkspaceEntries entries))
                (collectWorkspaceEntries entries))) in Hstat.
    congruence.
  - intros _. right.
    apply ListingWhole.forallb_false_elem in Hall as (entry & Hin & Hentry).
    exists entries, entry. split; [done|]. split; [done|].
    apply bool_decide_eq_false_1 in Hentry.
    eapply ListingWhole.projectFor_None.
    destruct (ListingMore.projectFor entries _ entry) eqn:E; [|exact E].
    exfalso. apply Hentry. eauto.
  - done.
Qed.

Lemma project_listing_fails_exactly_without_store_witness :
  Projects.GET
    {| fs_entries := Some [ Examples.workspaceDirWithoutStore "ws1" "file:///home/dev/a";
                            Examples.workspaceDir "ws2" "file:///home/dev/b" 2 ];
       fs_globalDb := None |}
  = Failure 500 "Failed to get workspaces".
Proof.
  apply (proj2 (project_listing_fails_exactly_without_store
                  {| fs_entries :=
                       Some [ Examples.workspaceDirWithoutStore "ws1" "file:///home/dev/a";
                              Examples.workspaceDir "ws2" "file:///home/dev/b" 2 ];
                     fs_globalDb := None |})).
  right.
  exists [ Examples.workspaceDirWithoutStore "ws1" "file:///home/dev/a";
           Examples.workspaceDir "ws2" "file:///home/dev/b" 2 ],
         {| we_name := "ws1";
            we_workspaceJson := Encodes {| wd_folder := Some "file:///home/dev/a" |} |}.
  split; [reflexivity|]. split; [|reflexivity].
  vm_compute. by left.
Defined.

(** X15. When the project listing answers, its projects are in order of
    last modification, newest first, and they are the directories that hold
    a [workspace.json], each once: a project is listed whether or not a
    conversation is attributed to it. *)
Theorem project_listing_is_newest_first (fs : Storage) (projects : list Projects.Project) :
  Projects.GET fs = Json projects →
  Sorted (λ a b, Projects.p_lastModified b ≤ Projects.p_lastModified a) projects
  ∧ ∃ entries,
      fs_entries fs = Some entries
      ∧ Projects.p_id <$> projects ≡ₚ we_name <$> collectWorkspaceEntries entries.
Proof.
  intros (entries & Hentries & Hall & ->)%ListingWhole.Projects_GET_Json. split.
  - eapply ListingWhole.Sorted_weaken;
      [|apply (sort_Sorted Projects.newestFirst (λ p, - Projects.p_lastModified p))].
    + cbn beta. intros a b. lia.
    + intros a b. unfold Projects.newestFirst. lia.
  - exists entries. split; [done|].
    rewrite (sort_perm Projects.newestFirst).
    rewrite (ListingMore.omap_all_Some _ _ Hall Projects.p_id we_name); [done|].
    intros entry project Hproject.
    by apply ListingWhole.projectFor_Some in Hproject as [-> _].
Qed.

Lemma project_listing_is_newest_first_witness :
  ∃ projects,
    Projects.p_id <$> projects = ["ws2"; "ws1"]
    ∧ Sorted (λ a b, Projects.p_lastModified b ≤ Projects.p_lastModified a) projects
    ∧ ∃ entries,
        Some [ Examples.workspaceDir "ws1" "file:///home/dev/a" 1;
               Examples.workspaceDir "ws2" "file:///home/dev/b" 2 ] = Some entries
        ∧ Projects.p_id <$> projects ≡ₚ we_name <$> collectWorkspaceEntries entries.
Proof.
  eexists. split; [|
    apply (project_listing_is_newest_first
             {| fs_entries := Some [ Examples.workspaceDir "ws1" "file:///home/dev/a" 1;
                                     Examples.workspaceDir "ws2" "file:///home/dev/b" 2 ];
                fs_globalDb := None |});
    vm_compute; reflexivity ].
  reflexivity.
Defined.

Module SelectedRows.

(** A storage with the project [ws1] and three conversations that carry a
    layout hint for it: [c1] with a text turn, [c2] whose value holds an
    empty list of headers, and [c3] whose value is not longer than ten
    characters. *)
Definition entries : list DirEntry :=
  [ Examples.workspaceDir "ws1" "file:///home/dev/proj" 1 ].

Definition globalDb : GlobalDb :=
  {| bubbleRows := [ ("bubbleId:c1:b1", Encodes (Examples.textBubble "hello" (Some 100))) ];
     codeBlockDiffRows := [];
     messageRequestContextRows :=
       [ ("messageRequestContext:c1:ctx", Encodes (Examples.layoutContext ["proj"]));
         ("messageRequestContext:c2:ctx", Encodes (Examples.layoutContext ["proj"]));
         ("messageRequestContext:c3:ctx", Encodes (Examples.layoutContext ["proj"])) ];
     composerDataRows :=
       [ {| cr_key := "composerData:c1"; cr_value := Encodes (Examples.unnamed ["b1"]);
            cr_long := true; cr_likeHeaders := true; cr_likeEmptyHeaders := false |};
         {| cr_key := "composerData:c2"; cr_value := Encodes (Examples.unnamed []);
            cr_long := true; cr_likeHeaders := true; cr_likeEmptyHeaders := true |};
         {| cr_key := "composerData:c3";
            cr_value := Encodes {| cd_name := None; cd_newlyCreatedFiles := None;
                                   cd_codeBlockData := None;
                                   cd_fullConversationHeadersOnly := None;
                                   cd_lastUpdatedAt := None; cd_createdAt := None |};
            cr_long := false; cr_likeHeaders := false; cr_likeEmptyHeaders := false |} ] |}.

Definition storage : Storage :=
  {| fs_entries := Some entries; fs_globalDb := Some (Some globalDb) |}.

End SelectedRows.

(** X16. When the project listing answers, the conversation count of each
    project is the number of [composerData] rows that its query selects (the
    value is longer than ten characters), that decode, and for which the
    value the resolver answers with, used as a property name, is the id of
    the project; it is zero for every project when the global store is
    missing or cannot be opened.  Whether the conversation has any text
    plays no part in the count. *)
Theorem project_listing_counts_attributed_rows
    (entries : list DirEntry) (globalDb : option (option GlobalDb))
    (projects : list Projects.Project) :
  Projects.GET {| fs_entries := Some entries; fs_globalDb := globalDb |} = Json projects →
  Forall (λ project,
            Projects.p_conversationCount project
            = match globalDb with
              | Some (Some globalDb) =>
                  length (List.filter
                            (λ row, cr_long row
                                    && bool_decide
                                         (ListingMore.attributionOf entries globalDb row
                                          = Some (Projects.p_id project)))
                            (composerDataRows globalDb))
              | _ => 0%nat
              end)
         projects.
Proof.
  intros (entries' & [= <-] & Hall & ->)%ListingWhole.Projects_GET_Json.
  rewrite (sort_perm Projects.newestFirst). apply Forall_forall.
  intros project (entry & Hin & Hproject)%ListingWhole.omap_elem_of.
  apply ListingWhole.projectFor_Some in Hproject as [-> ->].
  apply ListingMore.readGlobalStorage_count.
Qed.

Lemma project_listing_counts_attributed_rows_witness :
  ∃ projects,
    Projects.p_conversationCount <$> projects = [2%nat]
    ∧ Forall (λ project,
                Projects.p_conversationCount project
                = length (List.filter
                            (λ row, cr_long row
                                    && bool_decide
                                         (ListingMore.attributionOf SelectedRows.entries
                                            SelectedRows.globalDb row
                                          = Some (Projects.p_id project)))
                            (composerDataRows SelectedRows.globalDb)))
             projects.
Proof.
  eexists. split; [|
    apply (project_listing_counts_attributed_rows
             SelectedRows.entries (Some (Some SelectedRows.globalDb)));
    vm_compute; reflexivity ].
  reflexivity.
Defined.

(** X17. The two routes agree on attribution: when every value that
    mentions the conversation headers is longer than ten characters (the
    word itself has twenty-seven), the conversations the conversation route
    shows for a project are never more than the conversations the project
    listing counts for it.  They can be fewer: the listing also counts the
    conversations whose value holds an empty list of headers, those whose
    value does not mention the headers, and those without a text turn. *)
Theorem route_shows_no_more_than_listing_counts
    (entries : list DirEntry) (globalDb : GlobalDb) (params_id : string)
    (clock : nat → Z) (n : nat) (tabs : list ChatTab) (n' : nat)
    (projects : list Projects.Project) (project : Projects.Project) :
  Forall (λ row, cr_likeHeaders row = true → cr_long row = true)
         (composerDataRows globalDb) →
  Tabs.GET {| fs_entries := Some entries; fs_globalDb := Some (Some globalDb) |}
    params_id clock n = (Ok (Json tabs), n') →
  Projects.GET {| fs_entries := Some entries; fs_globalDb := Some (Some globalDb) |}
  = Json projects →
  project ∈ projects →
  Projects.p_id project = params_id →
  (length tabs ≤ Projects.p_conversationCount project)%nat.
Proof.
  intros Hlong. rewrite RouteFacts.GET_run. cbn [fs_entries fs_globalDb].
  intros [= <- _] Hlisting Hin Hid.
  pose proof (ListingWhole.Projects_GET_Json _ _ Hlisting)
    as (entries' & [= <-] & Hall & ->).
  rewrite (sort_perm Projects.newestFirst) in Hin.
  apply ListingWhole.omap_elem_of in Hin as (entry & Hentry & Hproject).
  apply ListingWhole.projectFor_Some in Hproject as [Hname ->].
  rewrite ListingMore.readGlobalStorage_count, <- Hname, Hid.
  rewrite <- (length_fmap tab_id). unfold RouteFacts.tabsOf, Tabs.composerRows.
  rewrite (gather_omap _ _ tab_id
             (λ k row, RouteFacts.tabOfRow_id clock params_id _ _ _ _ _ _ k row)).
  rewrite ListingMore.omap_fmap_filter.
  apply ListingWhole.omap_length_filter. intros row Hrow [id Hshown].
  rewrite Forall_forall in Hlong. specialize (Hlong row Hrow).
  destruct (cr_likeHeaders row); [|done]. rewrite Hlong by done.
  destruct (cr_likeEmptyHeaders row); [done|]. cbn [andb negb] in *.
  apply bool_decide_eq_true_2. by eapply ListingWhole.shown_attributionOf.
Qed.

Lemma route_shows_no_more_than_listing_counts_witness :
  ∃ (tabs : list ChatTab) (project : Projects.Project),
    length tabs = 1%nat
    ∧ Projects.p_conversationCount project = 2%nat
    ∧ (length tabs ≤ Projects.p_conversationCount project)%nat.
Proof.
  destruct (Tabs.GET SelectedRows.storage "ws1" (λ _, 1) 0%nat) as [answer n'] eqn:Hroute.
  assert (∃ tabs, answer = Ok (Json tabs) ∧ length tabs = 1%nat) as (tabs & -> & Hone).
  { vm_compute in Hroute. injection Hroute as <- _. eexists. split; reflexivity. }
  exists tabs, {| Projects.p_id := "ws1"; Projects.p_name := "proj";
                  Projects.p_conversationCount := 2; Projects.p_lastModified := 1 |}.
  split; [exact Hone|]. split; [reflexivity|].
  apply (route_shows_no_more_than_listing_counts
           SelectedRows.entries SelectedRows.globalDb "ws1" (λ _, 1) 0%nat tabs n'
           [ {| Projects.p_id := "ws1"; Projects.p_name := "proj";
                Projects.p_conversationCount := 2; Projects.p_lastModified := 1 |} ]).
  - repeat (apply Forall_cons; split; [by vm_compute|]). constructor.
  - exact Hroute.
  - vm_compute. reflexivity.
  - by left.
  - reflexivity.
Defined.

(** X18. The display name of a project is the last segment of its folder:
    for a folder that ends with a slash and a name that is not empty, the
    name; for a folder without any slash, the folder itself (so a path
    written with backslashes only is shown whole).  A project whose
    [workspace.json] does not decode or holds no folder is shown as
    "Project " and the first eight characters of the directory name.  The
    name is never empty. *)
Theorem project_name_is_last_folder_segment (entry : WorkspaceEntry) :
  (∀ parent name,
      AttributionFacts.folderOf entry = Some (parent +:+ "/" +:+ name) →
      name ≠ "" → KeyFacts.occurs "/" name = false →
      Projects.workspaceNameOf entry = name)
  ∧ (∀ folder,
        AttributionFacts.folderOf entry = Some folder →
        KeyFacts.occurs "/" folder = false →
        Projects.workspaceNameOf entry = folder)
  ∧ (AttributionFacts.folderOf entry = None →
     Projects.workspaceNameOf entry = "Project " +:+ JS.take 8 (we_name entry))
  ∧ Projects.workspaceNameOf entry ≠ "".
Proof.
  repeat apply conj.
  - apply TitleFacts.workspaceNameOf_segment.
  - apply TitleFacts.workspaceNameOf_whole.
  - apply TitleFacts.workspaceNameOf_placeholder.
  - apply TitleFacts.workspaceNameOf_nonempty.
Qed.

Lemma project_name_is_last_folder_segment_witness :
  Projects.workspaceNameOf
    {| we_name := "0123456789abcdef";
       we_workspaceJson := Encodes {| wd_folder := Some "file:///home/dev/proj" |} |}
  = "proj"
  ∧ Projects.workspaceNameOf
      {| we_name := "0123456789abcdef"; we_workspaceJson := Malformed |}
    = "Project 01234567".
Proof.
  split.
  - apply (proj1 (project_name_is_last_folder_segment
                    {| we_name := "0123456789abcdef";
                       we_workspaceJson :=
                         Encodes {| wd_folder := Some "file:///home/dev/proj" |} |})
             "file:///home/dev" "proj"); [reflexivity|discriminate|reflexivity].
  - apply (proj1 (proj2 (proj2 (project_name_is_last_folder_segment
                                  {| we_name := "0123456789abcdef";
                                     we_workspaceJson := Malformed |})))).
    reflexivity.
Defined.

(** ** Titles and texts *)

(** X19. The title of a conversation is never empty, whatever the stored
    name and the turns are. *)
Theorem title_is_never_empty
    (name : option string) (composerId : string) (bubbles : list ChatBubble) :
  Tabs.resolveTitle name composerId bubbles ≠ "".
Proof. apply TitleFacts.resolveTitle_nonempty. Qed.

(** X20. A title that is not the stored name has at most 103 characters:
    the first 100 characters of a line and the ellipsis, or the placeholder
    of at most 21 characters. *)
Theorem derived_title_has_at_most_103_characters
    (name : option string) (composerId : string) (bubbles : list ChatBubble) :
  JS.present JS.truthy name = false →
  (String.length (Tabs.resolveTitle name composerId bubbles) ≤ 103)%nat.
Proof. apply TitleFacts.resolveTitle_length. Qed.

Lemma derived_title_has_at_most_103_characters_witness :
  (String.length
     (Tabs.resolveTitle None "c1"
        [ {| cb_type := user; cb_text := Examples.longLine; cb_timestamp := 1 |} ])
   ≤ 103)%nat.
Proof.
  apply (derived_title_has_at_most_103_characters None "c1"
           [ {| cb_type := user; cb_text := Examples.longLine; cb_timestamp := 1 |} ]).
  reflexivity.
Defined.

(** X21. Flattening a rich text goes node by node: the text of a list of
    nodes is the text of any initial part followed by the text of the rest,
    so that no node changes what the nodes around it give. *)
Theorem flattening_distributes_over_append (nodes others : list RichNode) :
  Extract.extractTextFromRichText (nodes ++ others)
  = Extract.extractTextFromRichText nodes +:+ Extract.extractTextFromRichText others.
Proof. apply TitleFacts.extractTextFromRichText_app. Qed.

(** ** The sections of the request contexts *)

Module ContextFacts.
Import JS Tabs.

(** A step extends its text when it leaves it in place and adds to its
    right a text that does not depend on it. *)
Definition extends (step : string → string) : Prop := ∀ t, step t = t +:+ step "".

Lemma extends_compose (f g : string → string) :
  extends f → extends g → extends (λ t, g (f t)).
Proof.
  intros Hf Hg t. cbv beta. rewrite (Hg (f t)), (Hg (f "")), (Hf t).
  by rewrite JSFacts.app_assoc.
Qed.

Lemma extends_suffix (cond : bool) (suffix : string) :
  extends (λ t, if cond then t +:+ suffix else t).
Proof. intros t. destruct cond; [done|]. by rewrite JSFacts.app_nil_r. Qed.

Lemma extends_section {X} (cond : bool) (header : string)
    (body : string → X → string) (l : list X) :
  appender body → extends (λ t, if cond then foldl body (t +:+ header) l else t).
Proof.
  intros Hbody t. destruct cond; [|by rewrite JSFacts.app_nil_r].
  rewrite (foldl_appender body Hbody l (t +:+ header)).
  rewrite (foldl_appender body Hbody l ("" +:+ header)).
  by rewrite JSFacts.app_nil_l, JSFacts.app_assoc.
Qed.

Ltac extends_tac :=
  lazymatch goal with
  | |- extends (λ t, if ?c then foldl ?b (@?f t +:+ ?h) ?l else _) =>
      apply (extends_compose f (λ u, if c then foldl b (u +:+ h) l else u));
      [|apply extends_section]
  | |- extends (λ t, if ?c then t +:+ ?s else t) => apply extends_suffix
  end.

Lemma appendContext_extends (context : RequestContext) :
  extends (λ contextText, appendContext contextText context).
Proof.
  unfold appendContext. cbv zeta.
  repeat extends_tac; try appender_tac.
  intros r folder.
  apply (extends_section (nonEmpty (fl_files folder)) _ _ (items (fl_files folder))).
  appender_tac.
Qed.

(** The texts of a list, one after the other. *)
Definition concatenated (texts : list string) : string := foldr String.append "" texts.

Lemma foldl_matching (bubbleId : string) (contexts : list RequestContext) (acc : string) :
  foldl (λ contextText context,
           if bool_decide (rc_bubbleId context = Some bubbleId)
           then appendContext contextText context
           else contextText)
        acc contexts
  = acc +:+ concatenated
              (appendContext "" <$>
                 List.filter (λ context, bool_decide (rc_bubbleId context = Some bubbleId))
                             contexts).
Proof.
  revert acc. induction contexts as [|context contexts IH]; intros acc.
  - cbn. by rewrite JSFacts.app_nil_r.
  - cbn [foldl List.filter]. rewrite IH.
    destruct (bool_decide _); [|done].
    rewrite (appendContext_extends context acc). cbn [fmap list_fmap concatenated foldr].
    by rewrite JSFacts.app_assoc.
Qed.

End ContextFacts.

(** X22. The final text of a turn is the text extracted from its bubble
    followed by the sections of the request contexts of the conversation
    that name the bubble, in the order in which they are recorded; the
    sections of a context do not depend on the text before them, and the
    contexts of other bubbles add nothing. *)
Theorem turn_text_appends_sections_of_its_contexts
    (messageRequestContextMap : gmap string (list RequestContext))
    (composerId bubbleId : string) (bubble : Bubble) :
  Tabs.fullTextOf messageRequestContextMap composerId bubbleId bubble
  = text ← Extract.extractTextFromBubble bubble;
    Ok (text +:+ ContextFacts.concatenated
                   (Tabs.appendContext "" <$>
                      List.filter
                        (λ context, bool_decide (rc_bubbleId context = Some bubbleId))
                        (default [] (messageRequestContextMap !! composerId)))).
Proof.
  unfold Tabs.fullTextOf.
  destruct (Extract.extractTextFromBubble bubble) as [text|e]; [|done].
  cbn [mbind Res_bind]. by rewrite ContextFacts.foldl_matching, JSFacts.app_nil_l.
Qed.

